(** * AST-based node schema extraction: a shallow embedding

    This development embeds the version-selection and aggregation core of
    [extract-node-schemas-ast.ts] (class [ASTNodeSchemaExtractor], second
    iteration of the script) and proves the properties the design document
    states about it.

    Conventions.
    - JavaScript strings are modelled by [string] (bytes).  All the regular
      expressions and case conversions of the script look at ASCII
      characters only, and the embedding follows them on ASCII.
    - JavaScript numbers that the script computes with are integers
      (scores, counts, [parseInt] results) far below 2^53; they are
      modelled by [Z] and [nat].  The one division of the script is
      modelled by the exact rational quotient in [Q].
    - [path] is Node's POSIX [path] module ([path.sep] is the slash).
    - The file system, the TypeScript parser, the import resolver and the
      wrapper redirection target are collected in an [Environment] record;
      every theorem quantifies over it. *)

From Stdlib Require Import Bool Arith ZArith QArith Lia List Ascii String.
From Stdlib Require Import Permutation DecimalString Qround.
Import ListNotations.

Set Implicit Arguments.
Set Warnings "-register-all".

Local Close Scope Q_scope.
Local Close Scope Z_scope.
Local Open Scope string_scope.
Local Open Scope list_scope.

(* ================================================================== *)
(** * Strings *)
(* ================================================================== *)

Module JsString.

Definition chars (s : string) : list ascii := list_ascii_of_string s.
Definition str (l : list ascii) : string := string_of_list_ascii l.

Definition code (c : ascii) : nat := nat_of_ascii c.

Definition is_digit (c : ascii) : bool :=
  (48 <=? code c)%nat && (code c <=? 57)%nat.
Definition is_lower (c : ascii) : bool :=
  (97 <=? code c)%nat && (code c <=? 122)%nat.
Definition is_upper (c : ascii) : bool :=
  (65 <=? code c)%nat && (code c <=? 90)%nat.
(** The character class [[Vv]]. *)
Definition is_Vv (c : ascii) : bool :=
  Ascii.eqb c "V" || Ascii.eqb c "v".
(** The character class [[2-9]]. *)
Definition is_2_to_9 (c : ascii) : bool :=
  (50 <=? code c)%nat && (code c <=? 57)%nat.
Definition is_space (c : ascii) : bool :=
  Ascii.eqb c " " || ((9 <=? code c)%nat && (code c <=? 13)%nat).
Definition is_line_terminator (c : ascii) : bool :=
  (code c =? 10)%nat || (code c =? 13)%nat.

Definition to_lower_char (c : ascii) : ascii :=
  if is_upper c then ascii_of_nat (code c + 32) else c.
Definition to_upper_char (c : ascii) : ascii :=
  if is_lower c then ascii_of_nat (code c - 32) else c.

Definition toLowerCase (s : string) : string :=
  str (map to_lower_char (chars s)).

Fixpoint starts_with (p s : list ascii) : bool :=
  match p, s with
  | [], _ => true
  | _ :: _, [] => false
  | a :: p', b :: s' => Ascii.eqb a b && starts_with p' s'
  end.

Definition startsWith (s p : string) : bool :=
  starts_with (chars p) (chars s).

Definition ends_with (s p : list ascii) : bool :=
  starts_with (rev p) (rev s).

Definition endsWith (s p : string) : bool := ends_with (chars s) (chars p).

Fixpoint includes_chars (s sub : list ascii) : bool :=
  starts_with sub s ||
  match s with
  | [] => false
  | _ :: s' => includes_chars s' sub
  end.

(** [s.includes(sub)] *)
Definition includes (s sub : string) : bool :=
  includes_chars (chars s) (chars sub).

(** [parseInt] on a run of decimal digits. *)
Definition digit_value (c : ascii) : Z := Z.of_nat (code c) - 48.
Definition parseInt_digits (ds : list ascii) : Z :=
  fold_left (fun acc c => acc * 10 + digit_value c)%Z ds 0%Z.

(** Decimal rendering of a number inside a template literal. *)
Definition nat_to_string (n : nat) : string :=
  NilEmpty.string_of_uint (Nat.to_uint n).
Definition Z_to_string (z : Z) : string :=
  NilEmpty.string_of_int (Z.to_int z).

Fixpoint drop_while (f : ascii -> bool) (l : list ascii) : list ascii :=
  match l with
  | [] => []
  | c :: l' => if f c then drop_while f l' else l
  end.

Fixpoint take_while (f : ascii -> bool) (l : list ascii) : list ascii :=
  match l with
  | [] => []
  | c :: l' => if f c then c :: take_while f l' else []
  end.

(** [s.trim()] *)
Definition trim (s : list ascii) : list ascii :=
  rev (drop_while is_space (rev (drop_while is_space s))).

(** [s.split(sep)] for a one-character separator. *)
Fixpoint split_on (sep : ascii) (cur : list ascii) (s : list ascii)
  : list string :=
  match s with
  | [] => [str (rev cur)]
  | c :: s' =>
      if Ascii.eqb c sep then str (rev cur) :: split_on sep [] s'
      else split_on sep (c :: cur) s'
  end.

Definition split (s : string) (sep : ascii) : list string :=
  split_on sep [] (chars s).

End JsString.

(* ================================================================== *)
(** * Regular expressions of the script *)
(* ================================================================== *)

Module Regex.
Import JsString.

(** A version marker anchored at both ends of what is left of the
    subject: one of [V], [v], then one or more digits, then the end.
    Returns the digits (capture group 1). *)
Definition version_here (s : list ascii) : option (list ascii) :=
  match s with
  | c :: (_ :: _) as ds =>
      if is_Vv c && forallb is_digit ds then Some ds else None
  | _ => None
  end.

(** Leftmost match of [/[Vv](\d+)$/]: the matcher is tried at every
    start position, from the left.  Returns the text before the match
    and capture group 1. *)
Fixpoint search_version_suffix (before s : list ascii)
  : option (list ascii * list ascii) :=
  match version_here s with
  | Some ds => Some (rev before, ds)
  | None =>
      match s with
      | [] => None
      | c :: s' => search_version_suffix (c :: before) s'
      end
  end.

(** [s.match(/[Vv](\d+)$/)], capture group 1. *)
Definition match_version_suffix (s : string) : option (list ascii) :=
  option_map snd (search_version_suffix [] (chars s)).

(** [s.match(/^[Vv](\d+)$/)], capture group 1. *)
Definition match_version_whole (s : string) : option (list ascii) :=
  version_here (chars s).

(** [s.match(/^[Vv][2-9]$/)] as a truth value. *)
Definition match_versioned_dir (s : string) : bool :=
  match chars s with
  | [c; d] => is_Vv c && is_2_to_9 d
  | _ => false
  end.

(** [s.replace(/[Vv]\d+$/, '')] (also [/v\d+$/i]). *)
Definition strip_version_suffix (s : list ascii) : list ascii :=
  match search_version_suffix [] s with
  | Some (before, _) => before
  | None => s
  end.

(** [s.replace(/([a-z])([A-Z])/g, '$1 $2')] *)
Fixpoint space_camel (s : list ascii) : list ascii :=
  match s with
  | [] => []
  | a :: t =>
      match t with
      | [] => [a]
      | b :: t' =>
          if is_lower a && is_upper b
          then a :: " "%char :: b :: space_camel t'
          else a :: space_camel t
      end
  end.

(** [s.replace(/^./, str => str.toUpperCase())] *)
Definition upper_first (s : list ascii) : list ascii :=
  match s with
  | [] => []
  | c :: t => if is_line_terminator c then s else to_upper_char c :: t
  end.

End Regex.

(* ================================================================== *)
(** * Node's [path] module (POSIX) *)
(* ================================================================== *)

Module Path.
Import JsString.

Definition sep : ascii := "/"%char.
Definition is_sep (c : ascii) : bool := Ascii.eqb c sep.
Definition not_sep (c : ascii) : bool := negb (is_sep c).

(** Last component of a path, and the separators that trail it. *)
Definition last_component (p : list ascii) : list ascii :=
  rev (take_while not_sep (drop_while is_sep (rev p))).
Definition trailing_seps (p : list ascii) : list ascii :=
  take_while is_sep (rev p).

Definition remove_last (n : nat) (l : list ascii) : list ascii :=
  firstn (List.length l - n) l.

(** [path.basename(p, suffix)] *)
Definition basename (p suffix : string) : string :=
  let pc := chars p in
  let sc := chars suffix in
  let comp := last_component pc in
  if ((0 <? List.length sc) && (List.length sc <=? List.length pc))%nat
  then
    if String.eqb suffix p then ""
    else if ((List.length comp <? List.length sc)%nat && ends_with sc comp)
    then str (comp ++ trailing_seps pc)
    else if ((List.length sc <? List.length comp)%nat && ends_with comp sc)
    then str (remove_last (List.length sc) comp)
    else str comp
  else str comp.

(** [path.basename(p)] *)
Definition basename1 (p : string) : string :=
  str (last_component (chars p)).

(** [path.dirname(p)] *)
Definition dirname (p : string) : string :=
  match chars p with
  | [] => "."
  | c0 :: t =>
      let hasRoot := is_sep c0 in
      let r1 := drop_while is_sep (rev t) in
      match drop_while not_sep r1 with
      | [] => if hasRoot then "/" else "."
      | _ :: r3 =>
          match r3 with
          | [] => if hasRoot then "//" else str [c0]
          | _ => str (c0 :: rev r3)
          end
      end
  end.

(** [p.split(path.sep)] *)
Definition split (p : string) : list string := JsString.split p sep.

End Path.

(* ================================================================== *)
(** * JavaScript values and objects *)
(* ================================================================== *)

Module Js.
Import JsString.

(** The values the literal interpreter can produce.  [undefined] is the
    [None] of an [option Value]. *)
Inductive Value : Type :=
| JStr (s : string)
| JNum (z : Z)
| JNaN
| JBool (b : bool)
| JArr (elements : list Value)
| JObj (entries : list (string * Value)).

(** A plain object: own string keys in insertion order. *)
Definition Obj (A : Type) : Type := list (string * A).

Section Objects.
Variable A : Type.

Fixpoint get (k : string) (o : Obj A) : option A :=
  match o with
  | [] => None
  | (k', v) :: o' => if String.eqb k k' then Some v else get k o'
  end.

(** [o[k] = v]: an existing key keeps its place. *)
Fixpoint set (k : string) (v : A) (o : Obj A) : Obj A :=
  match o with
  | [] => [(k, v)]
  | (k', v') :: o' =>
      if String.eqb k k' then (k, v) :: o' else (k', v') :: set k v o'
  end.

(** [Object.keys(o)] and [Object.entries(o)] *)
Definition keys (o : Obj A) : list string := map fst o.
Definition entries (o : Obj A) : list (string * A) := o.

(** [Object.fromEntries(es)] *)
Definition fromEntries (es : list (string * A)) : Obj A :=
  fold_left (fun o e => set (fst e) (snd e) o) es [].
End Objects.

(** Truthiness of a value, and of a possibly undefined one. *)
Definition truthy (v : Value) : bool :=
  match v with
  | JStr s => negb (String.eqb s "")
  | JNum z => negb (Z.eqb z 0)
  | JNaN => false
  | JBool b => b
  | JArr _ => true
  | JObj _ => true
  end.

Definition truthy_opt (v : option Value) : bool :=
  match v with
  | Some v => truthy v
  | None => false
  end.

(** [a || b] *)
Definition or_else (a b : option Value) : option Value :=
  if truthy_opt a then a else b.

(** [a || d] where [d] is defined. *)
Definition or_default (a : option Value) (d : Value) : Value :=
  match a with
  | Some v => if truthy v then v else d
  | None => d
  end.

(** [Array.isArray(v)] *)
Definition isArray (v : Value) : bool :=
  match v with
  | JArr _ => true
  | _ => false
  end.

(** [parseInt(text, 10)] on the text of a numeric literal (no sign, no
    leading blank): the leading decimal digits, [NaN] without any. *)
Definition parseInt (text : string) : Value :=
  match take_while is_digit (chars text) with
  | [] => JNaN
  | ds => JNum (parseInt_digits ds)
  end.

(** [String(v)], the conversion a template literal applies. *)
Fixpoint toString (v : Value) : string :=
  match v with
  | JStr s => s
  | JNum z => Z_to_string z
  | JNaN => "NaN"
  | JBool true => "true"
  | JBool false => "false"
  | JArr l => String.concat "," (map toString l)
  | JObj _ => "[object Object]"
  end.

(** The interpolation of a possibly undefined value. *)
Definition toString_opt (v : option Value) : string :=
  match v with
  | Some v => toString v
  | None => "undefined"
  end.

Definition quote : ascii := ascii_of_nat 34.
Definition backslash : ascii := ascii_of_nat 92.

Definition hex_digit (n : nat) : ascii :=
  if (n <? 10)%nat then ascii_of_nat (48 + n) else ascii_of_nat (87 + n).

(** The escape of one character inside a JSON string. *)
Definition json_escape (c : ascii) : list ascii :=
  let n := code c in
  if Ascii.eqb c quote then [backslash; quote]
  else if Ascii.eqb c backslash then [backslash; backslash]
  else if (n =? 8)%nat then [backslash; "b"%char]
  else if (n =? 9)%nat then [backslash; "t"%char]
  else if (n =? 10)%nat then [backslash; "n"%char]
  else if (n =? 12)%nat then [backslash; "f"%char]
  else if (n =? 13)%nat then [backslash; "r"%char]
  else if (n <? 32)%nat
       then [backslash; "u"%char; "0"%char; "0"%char;
             hex_digit (n / 16); hex_digit (n mod 16)]
  else [c].

Definition json_string (s : string) : string :=
  str (quote :: flat_map json_escape (chars s) ++ [quote]).

(** [JSON.stringify(v)] without indentation. *)
Fixpoint stringify (v : Value) : string :=
  match v with
  | JStr s => json_string s
  | JNum z => Z_to_string z
  | JNaN => "null"
  | JBool true => "true"
  | JBool false => "false"
  | JArr l => ("[" ++ String.concat "," (map stringify l) ++ "]")%string
  | JObj o =>
      ("{" ++ String.concat ","
               (map (fun kv => json_string (fst kv) ++ ":" ++ stringify (snd kv))
                    o)
           ++ "}")%string
  end.

(** [`${JSON.stringify(v)}`]: [JSON.stringify(undefined)] is [undefined]. *)
Definition stringify_opt (v : option Value) : string :=
  match v with
  | Some v => stringify v
  | None => "undefined"
  end.

(** [Object.entries(v)] of an arbitrary value: the entries of an object,
    the indexed elements of an array, the indexed characters of a
    string, nothing for a number or a boolean. *)
Definition index_entries (A : Type) (l : list A) : list (string * A) :=
  combine (map nat_to_string (seq 0 (List.length l))) l.

Definition entries_of (v : Value) : list (string * Value) :=
  match v with
  | JObj o => o
  | JArr l => index_entries l
  | JStr s => index_entries (map (fun c => JStr (String c "")) (chars s))
  | _ => []
  end.

(** [v.show], a member access by a name that only an own property of an
    object can carry: [undefined] on a string, a number, a boolean and an
    array. *)
Definition member (v : Value) (k : string) : option Value :=
  match v with
  | JObj o => get k o
  | _ => None
  end.

End Js.

(* ================================================================== *)
(** * Data model *)
(* ================================================================== *)

Inductive Quality : Type := high | medium | low.

(** [workflowJsonStructure.conditionalContext] *)
Module ConditionalContext.
Record t : Type := mk {
  condition : string;
  value : Js.Value;
  description : string
}.
End ConditionalContext.

Module WorkflowJsonStructure.
Record t : Type := mk {
  parameterName : Js.Value;
  workflowJsonValue : option Js.Value;
  usage : string;
  type : Js.Value;
  required : Js.Value;
  conditionalContext : option ConditionalContext.t
}.
End WorkflowJsonStructure.

(** [interface ExtractedParameterSchema].  The fields hold whatever the
    literal interpreter read; the interface declares [name], [displayName]
    and [type] to be strings. *)
Module Param.
Record t : Type := mk {
  name : Js.Value;
  displayName : Js.Value;
  type : Js.Value;
  default : option Js.Value;
  description : option Js.Value;
  required : option Js.Value;
  placeholder : option Js.Value;
  hint : option Js.Value;
  options : option Js.Value;
  displayOptions : option Js.Value;
  typeOptions : option Js.Value;
  routing : option Js.Value;
  modes : option Js.Value;
  extractValue : option Js.Value;
  nested : option Js.Value;
  exampleValue : option Js.Value;
  workflowJsonStructure : WorkflowJsonStructure.t
}.
End Param.

(** [interface ExtractedNodeSchema] *)
Module Schema.
Record t : Type := mk {
  displayName : Js.Value;
  name : Js.Value;
  description : option Js.Value;
  group : option Js.Value;
  version : Js.Value;
  icon : option Js.Value;
  parameters : list Param.t;
  credentials : option Js.Value;
  webhookId : option Js.Value;
  polling : option Js.Value;
  supportsCORS : option Js.Value;
  extractionQuality : Quality;
  extractionNotes : list string
}.
End Schema.

(** [interface NodeSchemaDatabase] *)
Module Stats.
Record t : Type := mk {
  highQuality : nat;
  mediumQuality : nat;
  lowQuality : nat;
  totalParametersExtracted : nat;
  averageParametersPerNode : Q
}.
End Stats.

Module Database.
Record t : Type := mk {
  generatedAt : string;
  nodeCount : nat;
  extractionStats : Stats.t;
  nodes : Js.Obj Schema.t;
  knownIssues : list string
}.

(** The initial value of the [database] field; the timestamp is the
    clock's. *)
Definition initial (now : string) : t :=
  mk now 0 (Stats.mk 0 0 0 0 0) [] [].
End Database.

(** One element of the [versions] array of [processNodeGroupAST]. *)
Module Candidate.
Record t : Type := mk {
  schema : Schema.t;
  filePath : string;
  priority : Z
}.
End Candidate.

(* ================================================================== *)
(** * Syntax trees *)
(* ================================================================== *)

(** The part of the TypeScript tree the extractor looks at.  Every node
    kind the extractor does not test for is an [OtherNode]; the lists a
    node carries are its children in the order [ts.forEachChild] visits
    them.  The name of a property assignment is an identifier or something
    else (a string, a number, a computed name), which no test of the
    extractor looks into.  [extendsIdentifiers] lists, for the types of the
    [extends] clauses of a class, the identifier each one is, if any. *)
Inductive PropertyName : Type :=
| Identifier (text : string)
| OtherName.

Inductive Node : Type :=
| StringLiteral (text : string)
| NumericLiteral (text : string)
| TrueKeyword
| FalseKeyword
| ArrayLiteralExpression (elements : list Node)
| ObjectLiteralExpression (properties : list Node)
| PropertyAssignment (name : PropertyName) (initializer : Node)
| VariableStatement (exported : bool) (declarations : list Node)
| VariableDeclaration (name : option string) (initializer : option Node)
| InterfaceDeclaration (name : string) (members : list Node)
| ClassDeclaration (extendsIdentifiers : list (option string))
                   (members : list Node)
| OtherNode (children : list Node).

(** The nodes [visit] is called on, in call order, when [visit] ends with
    [ts.forEachChild(node, visit)] unless [stop node]. *)
Fixpoint visited (stop : Node -> bool) (node : Node) : list Node :=
  node ::
  if stop node then []
  else
    match node with
    | StringLiteral _ | NumericLiteral _ | TrueKeyword | FalseKeyword => []
    | ArrayLiteralExpression l => flat_map (visited stop) l
    | ObjectLiteralExpression l => flat_map (visited stop) l
    | PropertyAssignment _ i => visited stop i
    | VariableStatement _ l => flat_map (visited stop) l
    | VariableDeclaration _ (Some i) => visited stop i
    | VariableDeclaration _ None => []
    | InterfaceDeclaration _ l => flat_map (visited stop) l
    | ClassDeclaration _ l => flat_map (visited stop) l
    | OtherNode l => flat_map (visited stop) l
    end.

Definition never (_ : Node) : bool := false.

(** [ts.forEachChild(node, visit)]: the visit starts at the children. *)
Definition visited_below (node : Node) : list Node := tl (visited never node).

(* ================================================================== *)
(** * The literal interpreter and the property schema extractor *)
(* ================================================================== *)

(** [extractValueFromNode] *)
Fixpoint extractValueFromNode (node : Node) : option Js.Value :=
  match node with
  | StringLiteral text => Some (Js.JStr text)
  | NumericLiteral text => Some (Js.parseInt text)
  | TrueKeyword => Some (Js.JBool true)
  | FalseKeyword => Some (Js.JBool false)
  | ArrayLiteralExpression elements =>
      Some (Js.JArr
              (flat_map (fun el => match extractValueFromNode el with
                                   | Some v => [v]
                                   | None => []
                                   end) elements))
  | ObjectLiteralExpression properties =>
      let obj :=
        fold_left
          (fun obj prop =>
             match prop with
             | PropertyAssignment (Identifier propName) initializer =>
                 match extractValueFromNode initializer with
                 | Some value => Js.set propName value obj
                 | None => obj
                 end
             | _ => obj
             end) properties [] in
      match obj with
      | [] => None
      | _ => Some (Js.JObj obj)
      end
  | _ => None
  end.

(** The loop shared by [parsePropertyObject] and
    [extractDescriptionFromObjectLiteral]: every identifier-named property
    assignment whose value the interpreter reads is stored under its
    name. *)
Definition assignProperties (properties : list Node)
           (target : Js.Obj Js.Value) : Js.Obj Js.Value :=
  fold_left
    (fun target prop =>
       match prop with
       | PropertyAssignment (Identifier propName) initializer =>
           match extractValueFromNode initializer with
           | Some value => Js.set propName value target
           | None => target
           end
       | _ => target
       end) properties target.

(** [parsePropertyObject], on the properties of the object literal. *)
Definition parsePropertyObject (properties : list Node) : option Param.t :=
  let param := assignProperties properties [] in
  let field := fun k => Js.get k param in
  match field "name", field "type" with
  | Some name, Some type =>
      if Js.truthy name && Js.truthy type then
        let example := Js.or_else (field "exampleValue") (field "default") in
        Some
          (Param.mk
             name
             (Js.or_default (field "displayName") name)
             type
             (field "default")
             (field "description")
             (field "required")
             (field "placeholder")
             (field "hint")
             (field "options")
             (field "displayOptions")
             (field "typeOptions")
             (field "routing")
             (field "modes")
             (field "extractValue")
             (field "nested")
             example
             (WorkflowJsonStructure.mk
                name
                example
                (JsString.str [Js.quote] ++ Js.toString name ++ JsString.str [Js.quote]
                   ++ ": " ++ Js.stringify_opt example)%string
                type
                (Js.or_default (field "required") (Js.JBool false))
                None))
      else None
  | _, _ => None
  end.

(** The parameters read from the object literals among [elements]. *)
Definition parseElements (elements : list Node) : list Param.t :=
  flat_map
    (fun element =>
       match element with
       | ObjectLiteralExpression properties =>
           match parsePropertyObject properties with
           | Some param => [param]
           | None => []
           end
       | _ => []
       end) elements.

(** What one call of [visit] in [findDirectProperties] pushes. *)
Definition directPropertiesAt (node : Node) : list Param.t :=
  match node with
  | PropertyAssignment (Identifier "properties")
                       (ArrayLiteralExpression elements) =>
      parseElements elements
  | VariableStatement true declarations =>
      flat_map
        (fun declaration =>
           match declaration with
           | VariableDeclaration (Some "description")
                                 (Some (ArrayLiteralExpression elements)) =>
               parseElements elements
           | _ => []
           end) declarations
  | _ => []
  end.

(** [findDirectProperties] *)
Definition findDirectProperties (sourceFile : Node) : list Param.t :=
  fold_left (fun properties node => properties ++ directPropertiesAt node)
            (visited never sourceFile) [].

(* ================================================================== *)
(** * The conditional parameter expander *)
(* ================================================================== *)

(** The [conditionalParam] object literal of [expandConditionalParameters]. *)
Definition conditionalParam (param : Param.t) (conditionKey : string)
           (value : Js.Value) : Param.t :=
  let w := Param.workflowJsonStructure param in
  Param.mk
    (Js.JStr (Js.toString (Param.name param) ++ "_when_" ++ conditionKey
                ++ "_" ++ Js.toString value)%string)
    (Js.JStr (Js.toString (Param.displayName param) ++ " (when "
                ++ conditionKey ++ "=" ++ Js.toString value ++ ")")%string)
    (Param.type param)
    (Param.default param)
    (Param.description param)
    (Param.required param)
    (Param.placeholder param)
    (Param.hint param)
    (Param.options param)
    (Param.displayOptions param)
    (Param.typeOptions param)
    (Param.routing param)
    (Param.modes param)
    (Param.extractValue param)
    (Param.nested param)
    (Param.exampleValue param)
    (WorkflowJsonStructure.mk
       (Param.name param)
       (WorkflowJsonStructure.workflowJsonValue w)
       (WorkflowJsonStructure.usage w)
       (WorkflowJsonStructure.type w)
       (WorkflowJsonStructure.required w)
       (Some (ConditionalContext.mk
                conditionKey value
                ("Only visible when " ++ conditionKey ++ " is set to "
                   ++ Js.toString value)%string))).

(** [param.displayOptions?.show] *)
Definition showOf (param : Param.t) : option Js.Value :=
  match Param.displayOptions param with
  | Some displayOptions => Js.member displayOptions "show"
  | None => None
  end.

(** The state of the loops: [expandedParameters] and [conditionalCount]. *)
Definition ExpandState : Type := (list Param.t * nat)%type.

Definition expandValue (param : Param.t) (conditionKey : string)
           (st : ExpandState) (value : Js.Value) : ExpandState :=
  (fst st ++ [conditionalParam param conditionKey value], S (snd st)).

Definition expandCondition (param : Param.t) (st : ExpandState)
           (entry : string * Js.Value) : ExpandState :=
  match snd entry with
  | Js.JArr conditionValues =>
      fold_left (expandValue param (fst entry)) conditionValues st
  | _ => st
  end.

Definition expandParam (st : ExpandState) (param : Param.t) : ExpandState :=
  match showOf param with
  | Some showConditions =>
      if Js.truthy showConditions
      then fold_left (expandCondition param) (Js.entries_of showConditions) st
      else st
  | None => st
  end.

(** [expandConditionalParameters]: the expanded list and the note log. *)
Definition expandConditionalParameters (parameters : list Param.t)
           (extractionNotes : list string) : list Param.t * list string :=
  let st := fold_left expandParam parameters (parameters, 0) in
  let conditionalCount := snd st in
  (fst st,
   if (0 <? conditionalCount)%nat
   then extractionNotes
          ++ [("🔀 Expanded " ++ JsString.nat_to_string conditionalCount
                 ++ " conditional parameters from displayOptions.show")%string]
   else extractionNotes).

(* ================================================================== *)
(** * The quality classifier *)
(* ================================================================== *)

(** [determineExtractionQuality]; [paramCount / 2] is a real quotient, so
    [n > paramCount / 2] is [2 n > paramCount]. *)
Definition determineExtractionQuality (parameters : list Param.t) : Quality :=
  let paramCount := List.length parameters in
  let hasTypes := forallb (fun p => Js.truthy (Param.type p)) parameters in
  let hasDescriptions :=
    (paramCount <?
       2 * List.length
             (filter (fun p => Js.truthy_opt (Param.description p)) parameters))%nat in
  if (5 <=? paramCount)%nat && hasTypes && hasDescriptions then high
  else if (2 <=? paramCount)%nat && hasTypes then medium
  else low.

(* ================================================================== *)
(** * The version-group prioritizer *)
(* ================================================================== *)

Local Open Scope Z_scope.

Definition wrapperNote : string := "Wrapper file: VersionedNodeType".

(** [calculateVersionPriority] *)
Definition calculateVersionPriority (filePath : string) (schema : Schema.t)
  : Z :=
  let priority := 0 in
  let fileName := Path.basename filePath ".node.ts" in
  let dirName := Path.basename1 (Path.dirname filePath) in
  let isWrapper :=
    existsb (fun note => JsString.includes note wrapperNote)
            (Schema.extractionNotes schema) in
  let priority := if isWrapper then priority - 100 else priority in
  let versionNum := 0 in
  let versionNum :=
    match Regex.match_version_suffix fileName with
    | Some digits => JsString.parseInt_digits digits
    | None => versionNum
    end in
  let versionNum :=
    match Regex.match_version_whole dirName with
    | Some digits => Z.max versionNum (JsString.parseInt_digits digits)
    | None => versionNum
    end in
  let priority :=
    if 0 <? versionNum then priority + versionNum * 50 else priority + 25 in
  let priority :=
    priority + Z.of_nat (List.length (Schema.parameters schema)) * 5 in
  let priority :=
    match Schema.extractionQuality schema with
    | high => priority + 50
    | medium => priority + 25
    | low => priority + 0
    end in
  let pathParts := Path.split filePath in
  let hasVersionedDir := existsb Regex.match_versioned_dir pathParts in
  if hasVersionedDir then priority + 30 else priority.

(** [Array.prototype.sort(compare)]: a stable sort; an element goes
    before the elements it does not compare greater than. *)
Section Sort.
Variable A : Type.
Variable compare : A -> A -> Z.

Fixpoint sort_insert (x : A) (sorted : list A) : list A :=
  match sorted with
  | [] => [x]
  | y :: rest =>
      if compare x y <=? 0 then x :: sorted else y :: sort_insert x rest
  end.

Definition sort (l : list A) : list A := fold_right sort_insert [] l.
End Sort.

(** [selectBestVersion]: [versions[0]] after the sort, [undefined] on an
    empty array. *)
Definition selectBestVersion (versions : list Candidate.t)
  : option Candidate.t :=
  let versions :=
    sort (fun a b => Candidate.priority b - Candidate.priority a) versions in
  hd_error versions.

Local Close Scope Z_scope.

(** [extractBaseNodeName] *)
Definition extractBaseNodeName (filePath : string) : string :=
  let fileName := Path.basename filePath ".node.ts" in
  let dirName := Path.basename1 (Path.dirname filePath) in
  let cleanFileName :=
    JsString.str (Regex.strip_version_suffix (JsString.chars fileName)) in
  let cleanDirName :=
    JsString.str (Regex.strip_version_suffix (JsString.chars dirName)) in
  if String.eqb cleanFileName "index" || JsString.includes cleanFileName "Test"
  then JsString.toLowerCase cleanDirName
  else JsString.toLowerCase cleanFileName.

(** [groupNodeFilesByBaseName]; the keys of [groups] are base names, in
    insertion order. *)
Definition groupNodeFilesByBaseName (files : list string)
  : Js.Obj (list string) :=
  fold_left
    (fun groups file =>
       let baseName := extractBaseNodeName file in
       match Js.get baseName groups with
       | None => Js.set baseName [file] groups
       | Some group => Js.set baseName (group ++ [file]) groups
       end) files [].

(* ================================================================== *)
(** * Node descriptions *)
(* ================================================================== *)

(** [formatDisplayName] *)
Definition formatDisplayName (name : string) : string :=
  JsString.str
    (JsString.trim
       (Regex.strip_version_suffix
          (Regex.upper_first (Regex.space_camel (JsString.chars name))))).

(** The state of the visit of [findNodeDescription]: the [description]
    object and the note log. *)
Definition DescriptionState : Type := (Js.Obj Js.Value * list string)%type.

Definition describeDeclaration (st : DescriptionState) (declaration : Node)
  : DescriptionState :=
  match declaration with
  | VariableDeclaration name (Some (ObjectLiteralExpression properties)) =>
      let variableName := match name with Some text => text | None => "" end in
      if JsString.includes variableName "description"
         || JsString.includes variableName "Description"
      then (assignProperties properties (fst st),
            snd st ++ [("Found description via variable: " ++ variableName)%string])
      else st
  | _ => st
  end.

(** What one call of [visit] in [findNodeDescription] does before it
    goes to the children. *)
Definition describeAt (st : DescriptionState) (node : Node)
  : DescriptionState :=
  match node with
  | VariableStatement _ declarations =>
      fold_left describeDeclaration declarations st
  | PropertyAssignment (Identifier "description")
                       (ObjectLiteralExpression properties) =>
      (assignProperties properties (fst st),
       snd st ++ ["Found description via class property"])
  | _ => st
  end.

(** The visit returns before the children of the interface declaration
    [INodeTypeDescription]. *)
Definition isNodeTypeDescriptionInterface (node : Node) : bool :=
  match node with
  | InterfaceDeclaration name _ => String.eqb name "INodeTypeDescription"
  | _ => false
  end.

(** The [description] object and the notes after [visit(sourceFile)]. *)
Definition collectDescription (sourceFile : Node)
           (extractionNotes : list string) : DescriptionState :=
  fold_left describeAt (visited isNodeTypeDescriptionInterface sourceFile)
            ([], extractionNotes).

(** The name inferred from the path when no display name was read. *)
Definition inferFromPath (filePath : string) (st : DescriptionState)
  : DescriptionState :=
  let fileName := Path.basename filePath ".node.ts" in
  let dirName := Path.basename1 (Path.dirname filePath) in
  if negb (String.eqb dirName "nodes") && negb (String.eqb dirName "base")
     && negb (JsString.includes fileName "Test")
  then (Js.set "name" (Js.JStr (JsString.toLowerCase dirName))
          (Js.set "displayName" (Js.JStr (formatDisplayName dirName)) (fst st)),
        snd st ++ [("Inferred name from directory: " ++ dirName)%string])
  else if negb (String.eqb fileName "index")
  then (Js.set "name" (Js.JStr (JsString.toLowerCase fileName))
          (Js.set "displayName" (Js.JStr (formatDisplayName fileName)) (fst st)),
        snd st ++ [("Inferred name from filename: " ++ fileName)%string])
  else st.

(** [findNodeDescription]: the description, [None] for [null], and the
    note log. *)
Definition findNodeDescription (sourceFile : Node) (filePath : string)
           (extractionNotes : list string)
  : option (Js.Obj Js.Value) * list string :=
  let st := collectDescription sourceFile extractionNotes in
  let st :=
    if Js.truthy_opt (Js.get "displayName" (fst st)) then st
    else inferFromPath filePath st in
  (match Js.keys (fst st) with
   | [] => None
   | _ => Some (fst st)
   end, snd st).

(* ================================================================== *)
(** * The version dispatcher: wrapper detection *)
(* ================================================================== *)

(** The result of [detectVersionedNodeWrapper]; [defaultVersion] is kept
    as the text of the numeric literal [parseFloat] was applied to. *)
Record WrapperInfo : Type := mkWrapperInfo {
  isWrapper : bool;
  defaultVersion : option string
}.

Definition detectAt (info : WrapperInfo) (node : Node) : WrapperInfo :=
  match node with
  | ClassDeclaration extendsIdentifiers _ =>
      if existsb (fun e => match e with
                           | Some text => String.eqb text "VersionedNodeType"
                           | None => false
                           end) extendsIdentifiers
      then mkWrapperInfo true (defaultVersion info)
      else info
  | PropertyAssignment (Identifier "defaultVersion") (NumericLiteral text) =>
      mkWrapperInfo (isWrapper info) (Some text)
  | _ => info
  end.

(** [detectVersionedNodeWrapper] *)
Definition detectVersionedNodeWrapper (sourceFile : Node) : WrapperInfo :=
  fold_left detectAt (visited_below sourceFile) (mkWrapperInfo false None).

(** The truth value of [parseFloat(text)] for the text of a numeric
    literal: it has a digit, and a digit of its mantissa is not [0]. *)
Definition parseFloat_truthy (text : string) : bool :=
  let cs := JsString.chars text in
  let intPart := JsString.take_while JsString.is_digit cs in
  let rest := JsString.drop_while JsString.is_digit cs in
  let fraction :=
    match rest with
    | c :: rest' =>
        if Ascii.eqb c "." then JsString.take_while JsString.is_digit rest'
        else []
    | [] => []
    end in
  existsb (fun c => JsString.is_digit c && negb (Ascii.eqb c "0"))
          (intPart ++ fraction).

(** [wrapperInfo.defaultVersion] as a condition. *)
Definition defaultVersion_truthy (info : WrapperInfo) : bool :=
  match defaultVersion info with
  | Some text => parseFloat_truthy text
  | None => false
  end.

(* ================================================================== *)
(** * The run state and its monad *)
(* ================================================================== *)

(** How a piece of the script ends: with a value, with a thrown error
    (its message), or not within the given number of wrapper
    redirections. *)
Inductive Result (A : Type) : Type :=
| Ok (a : A)
| Throw (message : string)
| OutOfFuel.

Arguments Ok {A} a.
Arguments Throw {A} message.
Arguments OutOfFuel {A}.

(** A computation on [this.database]. *)
Definition M (A : Type) : Type := Database.t -> Result A * Database.t.

Definition ret {A : Type} (a : A) : M A := fun db => (Ok a, db).

Definition bind {A B : Type} (m : M A) (f : A -> M B) : M B :=
  fun db =>
    match m db with
    | (Ok a, db') => f a db'
    | (Throw e, db') => (Throw e, db')
    | (OutOfFuel, db') => (OutOfFuel, db')
    end.

(** What a call into the surroundings does: it returns or it throws. *)
Inductive Attempt (A : Type) : Type :=
| Returns (a : A)
| Throws (message : string).

Arguments Returns {A} a.
Arguments Throws {A} message.

Definition attempt {A : Type} (r : Attempt A) : M A :=
  fun db =>
    match r with
    | Returns a => (Ok a, db)
    | Throws message => (Throw message, db)
    end.

(** No redirection is left to follow. *)
Definition outOfFuel {A : Type} : M A := fun db => (OutOfFuel, db).

Definition modify (f : Database.t -> Database.t) : M unit :=
  fun db => (Ok tt, f db).

(** [try { m } catch (error) { handler(error.message) }] *)
Definition tryCatch {A : Type} (m : M A) (handler : string -> M A) : M A :=
  fun db =>
    match m db with
    | (Throw e, db') => handler e db'
    | r => r
    end.

Declare Scope monad_scope.
Delimit Scope monad_scope with monad.
Notation "x <- m ;; k" := (bind m (fun x => k))
  (at level 61, m at next level, right associativity) : monad_scope.
Notation "m ;;; k" := (bind m (fun _ => k))
  (at level 61, right associativity) : monad_scope.
Local Open Scope monad_scope.

(** What the script takes from its surroundings.
    - [readSourceFile p]: [readFileSync] then [ts.createSourceFile]; a
      failure is thrown.
    - [resolveImportedProperties sourceFile p]: the parameters the import
      resolver and the layered-module walker contribute for the file, and
      the notes they append; it reads files and may throw.  It leaves the
      database alone.
    - [findImplementationFileForVersion p v]: the implementation file the
      file system holds for wrapper [p] and default version [v] (given by
      the text of its literal).
    - [ignoredDirExists]: whether the output directory exists. *)
Record Environment : Type := mkEnvironment {
  readSourceFile : string -> Attempt Node;
  resolveImportedProperties :
    Node -> string -> Attempt (list Param.t * list string);
  findImplementationFileForVersion : string -> string -> option string;
  ignoredDirExists : bool
}.

Definition addParameters (n : nat) (db : Database.t) : Database.t :=
  let st := Database.extractionStats db in
  Database.mk (Database.generatedAt db) (Database.nodeCount db)
    (Stats.mk (Stats.highQuality st) (Stats.mediumQuality st)
       (Stats.lowQuality st) (Stats.totalParametersExtracted st + n)
       (Stats.averageParametersPerNode st))
    (Database.nodes db) (Database.knownIssues db).

Definition pushIssue (issue : string) (db : Database.t) : Database.t :=
  Database.mk (Database.generatedAt db) (Database.nodeCount db)
    (Database.extractionStats db) (Database.nodes db)
    (Database.knownIssues db ++ [issue]).

(** [this.database.nodes[key] = schema; this.database.nodeCount++] *)
Definition storeNode (key : string) (schema : Schema.t) (db : Database.t)
  : Database.t :=
  Database.mk (Database.generatedAt db) (S (Database.nodeCount db))
    (Database.extractionStats db) (Js.set key schema (Database.nodes db))
    (Database.knownIssues db).

(** [updateQualityStats] *)
Definition updateQualityStats (schema : Schema.t) (db : Database.t)
  : Database.t :=
  let st := Database.extractionStats db in
  let st :=
    match Schema.extractionQuality schema with
    | high =>
        Stats.mk (S (Stats.highQuality st)) (Stats.mediumQuality st)
          (Stats.lowQuality st) (Stats.totalParametersExtracted st)
          (Stats.averageParametersPerNode st)
    | medium =>
        Stats.mk (Stats.highQuality st) (S (Stats.mediumQuality st))
          (Stats.lowQuality st) (Stats.totalParametersExtracted st)
          (Stats.averageParametersPerNode st)
    | low =>
        Stats.mk (Stats.highQuality st) (Stats.mediumQuality st)
          (S (Stats.lowQuality st)) (Stats.totalParametersExtracted st)
          (Stats.averageParametersPerNode st)
    end in
  Database.mk (Database.generatedAt db) (Database.nodeCount db) st
    (Database.nodes db) (Database.knownIssues db).

(** [schema.extractionNotes.push(note)] *)
Definition pushNote (note : string) (schema : Schema.t) : Schema.t :=
  Schema.mk (Schema.displayName schema) (Schema.name schema)
    (Schema.description schema) (Schema.group schema) (Schema.version schema)
    (Schema.icon schema) (Schema.parameters schema)
    (Schema.credentials schema) (Schema.webhookId schema)
    (Schema.polling schema) (Schema.supportsCORS schema)
    (Schema.extractionQuality schema)
    (Schema.extractionNotes schema ++ [note]).

(* ================================================================== *)
(** * Extraction of one file *)
(* ================================================================== *)

(** [extractPropertiesAST]: the expanded parameters and the note log. *)
Definition extractPropertiesAST (env : Environment) (sourceFile : Node)
           (filePath : string) (extractionNotes : list string)
  : M (list Param.t * list string) :=
  let parameters : list Param.t := [] in
  let directProperties := findDirectProperties sourceFile in
  let '(parameters, extractionNotes) :=
    if (0 <? List.length directProperties)%nat
    then (parameters ++ directProperties,
          extractionNotes
            ++ [("Found " ++ JsString.nat_to_string (List.length directProperties)
                   ++ " direct properties")%string])
    else (parameters, extractionNotes) in
  imported <- attempt (resolveImportedProperties env sourceFile filePath) ;;
  let parameters := parameters ++ fst imported in
  let extractionNotes := extractionNotes ++ snd imported in
  let '(expandedParameters, extractionNotes) :=
    expandConditionalParameters parameters extractionNotes in
  modify (addParameters (List.length expandedParameters)) ;;;
  ret (expandedParameters, extractionNotes).

(** The object literal [extractNodeSchemaAST] returns. *)
Definition schemaOf (description : Js.Obj Js.Value)
           (parameters : list Param.t) (quality : Quality)
           (extractionNotes : list string) : Schema.t :=
  let field := fun k => Js.get k description in
  Schema.mk
    (Js.or_default (field "displayName") (Js.JStr "Unknown"))
    (Js.or_default (field "name") (Js.JStr "unknown"))
    (field "description")
    (field "group")
    (Js.or_default (field "version") (Js.JNum 1))
    (field "icon")
    parameters
    (field "credentials")
    (field "webhookId")
    (field "polling")
    (field "supportsCORS")
    quality
    extractionNotes.

(** [extractNodeSchemaAST] *)
Definition extractNodeSchemaAST (env : Environment) (sourceFile : Node)
           (filePath : string) : M (option Schema.t) :=
  let extractionNotes : list string := [] in
  let '(description, extractionNotes) :=
    findNodeDescription sourceFile filePath extractionNotes in
  match description with
  | None => ret None
  | Some description =>
      r <- extractPropertiesAST env sourceFile filePath extractionNotes ;;
      let '(parameters, extractionNotes) := r in
      let quality := determineExtractionQuality parameters in
      ret (Some (schemaOf description parameters quality extractionNotes))
  end.

(** The wrapper mark [parseNodeFile] appends to the note log. *)
Definition wrapperMark (info : WrapperInfo) : string :=
  ("Wrapper file: VersionedNodeType with defaultVersion "
     ++ (if defaultVersion_truthy info
         then match defaultVersion info with
              | Some text => text
              | None => "unspecified"
              end
         else "unspecified"))%string.

(** The redirection of a wrapper: the implementation file, when the file
    is a wrapper with a default version and the file is found. *)
Definition redirection (env : Environment) (filePath : string)
           (info : WrapperInfo) : option string :=
  if isWrapper info && defaultVersion_truthy info
  then match defaultVersion info with
       | Some text => findImplementationFileForVersion env filePath text
       | None => None
       end
  else None.

(** The issue [parseNodeFile] records in its [catch]. *)
Definition processingIssue (filePath message : string) : string :=
  ("Error processing " ++ filePath ++ ": " ++ message)%string.

(** [parseNodeFile]; [fuel] bounds the chain of wrapper redirections. *)
Fixpoint parseNodeFile (fuel : nat) (env : Environment) (filePath : string)
  : M (option Schema.t) :=
  match fuel with
  | O => outOfFuel
  | S fuel =>
      tryCatch
        (sourceFile <- attempt (readSourceFile env filePath) ;;
         let wrapperInfo := detectVersionedNodeWrapper sourceFile in
         match redirection env filePath wrapperInfo with
         | Some implementationFile => parseNodeFile fuel env implementationFile
         | None =>
             nodeSchema <- extractNodeSchemaAST env sourceFile filePath ;;
             match nodeSchema with
             | Some schema =>
                 if isWrapper wrapperInfo
                 then ret (Some (pushNote (wrapperMark wrapperInfo) schema))
                 else ret (Some schema)
             | None => ret None
             end
         end)
        (fun message =>
           modify (pushIssue (processingIssue filePath message)) ;;;
           ret None)
  end.

(* ================================================================== *)
(** * Version groups and the run *)
(* ================================================================== *)

(** [processNodeFileAST] *)
Definition processNodeFileAST (fuel : nat) (env : Environment)
           (filePath : string) : M unit :=
  schema <- parseNodeFile fuel env filePath ;;
  match schema with
  | Some schema =>
      let nodeTypeName := extractBaseNodeName filePath in
      modify (storeNode nodeTypeName schema) ;;;
      modify (updateQualityStats schema)
  | None => ret tt
  end.

(** The loop of [processNodeGroupAST] that fills [versions]. *)
Fixpoint collectVersions (fuel : nat) (env : Environment)
         (files : list string) (versions : list Candidate.t)
  : M (list Candidate.t) :=
  match files with
  | [] => ret versions
  | file :: files =>
      schema <- parseNodeFile fuel env file ;;
      match schema with
      | Some schema =>
          let priority := calculateVersionPriority file schema in
          collectVersions fuel env files
            (versions ++ [Candidate.mk schema file priority])
      | None => collectVersions fuel env files versions
      end
  end.

Definition selectionNote (count : nat) (filePath : string) : string :=
  ("Selected best version from " ++ JsString.nat_to_string count
     ++ " candidates (" ++ filePath ++ ")")%string.

(** [processNodeGroupAST] *)
Definition processNodeGroupAST (fuel : nat) (env : Environment)
           (baseName : string) (files : list string) : M unit :=
  match files with
  | [file] => processNodeFileAST fuel env file
  | _ =>
      versions <- collectVersions fuel env files [] ;;
      match selectBestVersion versions with
      | Some bestVersion =>
          let schema :=
            pushNote (selectionNote (List.length versions)
                                    (Candidate.filePath bestVersion))
                     (Candidate.schema bestVersion) in
          modify (storeNode baseName schema) ;;;
          modify (updateQualityStats schema)
      | None => ret tt
      end
  end.

(** [generateStats] *)
Definition generateStats (db : Database.t) : Database.t :=
  let stats := Database.extractionStats db in
  let average : Q :=
    if (0 <? Database.nodeCount db)%nat
    then (inject_Z (Z.of_nat (Stats.totalParametersExtracted stats))
          / inject_Z (Z.of_nat (Database.nodeCount db)))%Q
    else 0%Q in
  Database.mk (Database.generatedAt db) (Database.nodeCount db)
    (Stats.mk (Stats.highQuality stats) (Stats.mediumQuality stats)
       (Stats.lowQuality stats) (Stats.totalParametersExtracted stats)
       average)
    (Database.nodes db) (Database.knownIssues db).

(** The loop of [extractAllSchemas] over the groups. *)
Fixpoint processGroups (fuel : nat) (env : Environment)
         (groups : list (string * list string)) : M unit :=
  match groups with
  | [] => ret tt
  | (baseName, files) :: groups =>
      tryCatch
        (processNodeGroupAST fuel env baseName files)
        (fun message =>
           modify (pushIssue ("Failed to process node group " ++ baseName
                                ++ ": " ++ message)%string)) ;;;
      processGroups fuel env groups
  end.

(** [extractAllSchemas], given the files [findNodeFiles] found. *)
Definition extractAllSchemas (fuel : nat) (env : Environment)
           (nodeFiles : list string) : M unit :=
  let nodeFileGroups := groupNodeFilesByBaseName nodeFiles in
  processGroups fuel env (Js.entries nodeFileGroups) ;;;
  modify generateStats.

(** The entries [saveResults] keeps for the second document. *)
Definition isHighOrMedium (entry : string * Schema.t) : bool :=
  match Schema.extractionQuality (snd entry) with
  | high | medium => true
  | low => false
  end.

(** The second document of [saveResults]:
    [{...this.database, nodes: highQualityNodes, nodeCount: ...}]. *)
Definition ragOptimized (db : Database.t) : Database.t :=
  let highQualityNodes :=
    Js.fromEntries (filter isHighOrMedium (Js.entries (Database.nodes db))) in
  Database.mk (Database.generatedAt db)
    (List.length (Js.keys highQualityNodes))
    (Database.extractionStats db) highQualityNodes (Database.knownIssues db).

(** [saveResults]: the two documents written, the full database and the
    filtered one. *)
Definition saveResults (env : Environment) : M (Database.t * Database.t) :=
  fun db =>
    if ignoredDirExists env
    then (Ok (db, ragOptimized db), db)
    else (Throw "_ignored directory does not exist. Please create it first.",
          db).

(* ================================================================== *)
(** * The design document's formulas *)
(* ================================================================== *)

Local Open Scope Z_scope.

(** The five inputs of the score, read off a candidate. *)
Definition isWrapperFallback (schema : Schema.t) : bool :=
  existsb (fun note => JsString.includes note wrapperNote)
          (Schema.extractionNotes schema).

(** The version number found in the file name ([...V3.node.ts]) or in the
    directory name ([v3/]); the larger one when both carry one; [None]
    when neither does. *)
Definition explicitVersionNumber (filePath : string) : option Z :=
  let fileName := Path.basename filePath ".node.ts" in
  let dirName := Path.basename1 (Path.dirname filePath) in
  match Regex.match_version_suffix fileName, Regex.match_version_whole dirName with
  | Some f, Some d =>
      Some (Z.max (JsString.parseInt_digits f) (JsString.parseInt_digits d))
  | Some f, None => Some (JsString.parseInt_digits f)
  | None, Some d => Some (JsString.parseInt_digits d)
  | None, None => None
  end.

Definition parameterCount (schema : Schema.t) : Z :=
  Z.of_nat (List.length (Schema.parameters schema)).

Definition qualityBonus (q : Quality) : Z :=
  match q with
  | high => 50
  | medium => 25
  | low => 0
  end.

Definition pathContainsVersionedDirectory (filePath : string) : bool :=
  existsb Regex.match_versioned_dir (Path.split filePath).

(** The score as the design document writes it. *)
Definition documentedScore (isWrapperFallback : bool)
           (explicitVersionNumber : option Z) (parameterCount : Z)
           (quality : Quality) (inVersionedDirectory : bool) : Z :=
  (if isWrapperFallback then -100 else 0)
  + (match explicitVersionNumber with
     | Some v => v * 50
     | None => 25
     end)
  + parameterCount * 5
  + qualityBonus quality
  + (if inVersionedDirectory then 30 else 0).

(** The version term of the script: a version number counts when it is
    positive. *)
Definition versionTerm (explicitVersionNumber : option Z) : Z :=
  match explicitVersionNumber with
  | Some v => if 0 <? v then v * 50 else 25
  | None => 25
  end.

(** A version number of [0] is no version number to the script. *)
Definition positiveVersion (explicitVersionNumber : option Z) : option Z :=
  match explicitVersionNumber with
  | Some v => if 0 <? v then Some v else None
  | None => None
  end.

(** The script's [versionNum]: [0] stands for no version number. *)
Definition versionNumOf (filePath : string) : Z :=
  match explicitVersionNumber filePath with
  | Some v => v
  | None => 0
  end.

Local Close Scope Z_scope.

(** The (condition key, accepted value) pairs of a list of entries: one
    pair per element of every entry whose value is a list. *)
Definition conditionPairs (entries : list (string * Js.Value))
  : list (string * Js.Value) :=
  flat_map
    (fun entry =>
       match snd entry with
       | Js.JArr conditionValues => map (pair (fst entry)) conditionValues
       | _ => []
       end) entries.

(** The pairs of a parameter's [displayOptions.show] mapping. *)
Definition showPairs (param : Param.t) : list (string * Js.Value) :=
  match showOf param with
  | Some showConditions =>
      if Js.truthy showConditions
      then conditionPairs (Js.entries_of showConditions)
      else []
  | None => []
  end.

(** The derived parameters of a parameter: one per pair. *)
Definition derivedOf (param : Param.t) : list Param.t :=
  map (fun pair => conditionalParam param (fst pair) (snd pair))
      (showPairs param).

(** A name or a type tag is non-empty when the guard [if (v)] of the
    script lets it through; a string, the declared type of both fields, is
    let through exactly when it is not the empty string. *)
Definition nonEmpty (v : Js.Value) : Prop := Js.truthy v = true.

Definition namedAndTyped (param : Param.t) : Prop :=
  nonEmpty (Param.name param) /\ nonEmpty (Param.type param).

Definition hasTypeTag (param : Param.t) : Prop := nonEmpty (Param.type param).

Definition hasDescription (param : Param.t) : bool :=
  Js.truthy_opt (Param.description param).

Definition describedCount (parameters : list Param.t) : nat :=
  List.length (filter hasDescription parameters).

(** What [extractPropertiesAST] returns once the resolver has returned
    [imported]: the direct parameters, then the imported ones, expanded. *)
Definition assembleProperties (sourceFile : Node)
           (imported : list Param.t * list string)
           (extractionNotes : list string) : list Param.t * list string :=
  let direct := findDirectProperties sourceFile in
  let notes :=
    if (0 <? List.length direct)%nat
    then extractionNotes
           ++ [("Found " ++ JsString.nat_to_string (List.length direct)
                  ++ " direct properties")%string]
    else extractionNotes in
  expandConditionalParameters (direct ++ fst imported) (notes ++ snd imported).

(** The import resolver of the environment contributes parameters that
    [parsePropertyObject] built, hence named and typed ones. *)
Definition resolverNamedAndTyped (env : Environment) : Prop :=
  forall sourceFile filePath imported,
    resolveImportedProperties env sourceFile filePath = Returns imported ->
    Forall namedAndTyped (fst imported).

(** The value a computation returns from the initial database. *)
Definition valueOf {A : Type} (m : M A) : Result A :=
  fst (m (Database.initial "")).

(** The schema [parseNodeFile] returns for a candidate file. *)
Definition parsedSchema (fuel : nat) (env : Environment) (filePath : string)
  : Result (option Schema.t) :=
  valueOf (parseNodeFile fuel env filePath).

(** The number of (expanded) parameters of a parse result. *)
Definition schemaCount (r : Result (option Schema.t)) : nat :=
  match r with
  | Ok (Some schema) => List.length (Schema.parameters schema)
  | _ => 0
  end.

(** [db'] is [db] with [n] more extracted parameters and, possibly, more
    known issues; nodes and the other counters are the same. *)
Definition Extends (n : nat) (db db' : Database.t) : Prop :=
  Database.generatedAt db' = Database.generatedAt db
  /\ Database.nodeCount db' = Database.nodeCount db
  /\ Database.nodes db' = Database.nodes db
  /\ Stats.highQuality (Database.extractionStats db')
     = Stats.highQuality (Database.extractionStats db)
  /\ Stats.mediumQuality (Database.extractionStats db')
     = Stats.mediumQuality (Database.extractionStats db)
  /\ Stats.lowQuality (Database.extractionStats db')
     = Stats.lowQuality (Database.extractionStats db)
  /\ Stats.totalParametersExtracted (Database.extractionStats db')
     = Stats.totalParametersExtracted (Database.extractionStats db) + n
  /\ exists issues,
      Database.knownIssues db' = Database.knownIssues db ++ issues.

(** The [versions] array [processNodeGroupAST] fills for the files of a
    group: one candidate per file that parses to a schema. *)
Definition candidatesOf (fuel : nat) (env : Environment)
           (files : list string) : list Candidate.t :=
  flat_map
    (fun file =>
       match parsedSchema fuel env file with
       | Ok (Some schema) =>
           [Candidate.mk schema file (calculateVersionPriority file schema)]
       | _ => []
       end) files.

(** The parameters the parses of the files of a group add to the total. *)
Definition sumCounts (fuel : nat) (env : Environment) (files : list string)
  : nat :=
  list_sum (map (fun file => schemaCount (parsedSchema fuel env file)) files).

(** The entry a group leaves in [database.nodes]: its key and its winning
    schema. *)
Definition winnerOf (fuel : nat) (env : Environment) (baseName : string)
           (files : list string) : option (string * Schema.t) :=
  match files with
  | [file] =>
      match parsedSchema fuel env file with
      | Ok (Some schema) => Some (extractBaseNodeName file, schema)
      | _ => None
      end
  | _ =>
      let versions := candidatesOf fuel env files in
      match selectBestVersion versions with
      | Some bestVersion =>
          Some (baseName,
                pushNote (selectionNote (List.length versions)
                                        (Candidate.filePath bestVersion))
                         (Candidate.schema bestVersion))
      | None => None
      end
  end.

Definition winners (fuel : nat) (env : Environment)
           (groups : list (string * list string))
  : list (string * Schema.t) :=
  flat_map
    (fun group =>
       match winnerOf fuel env (fst group) (snd group) with
       | Some winner => [winner]
       | None => []
       end) groups.

(** The candidates of a group that lose: the sorted array without its
    head. *)
Definition losersOf (fuel : nat) (env : Environment) (files : list string)
  : list Candidate.t :=
  tl (sort (fun a b => (Candidate.priority b - Candidate.priority a)%Z)
           (candidatesOf fuel env files)).

(** The parameters of the schemas of a node mapping. *)
Definition parametersOfNodes (nodes : Js.Obj Schema.t) : nat :=
  list_sum (map (fun entry => List.length (Schema.parameters (snd entry)))
                nodes).

(** [db'] is [db] after a group that added [n] parameters to the total
    and left the entry [winner], if any. *)
Definition GroupStep (n : nat) (winner : option (string * Schema.t))
           (db db' : Database.t) : Prop :=
  Stats.totalParametersExtracted (Database.extractionStats db')
  = Stats.totalParametersExtracted (Database.extractionStats db) + n
  /\ match winner with
     | Some (key, schema) =>
         Database.nodes db' = Js.set key schema (Database.nodes db)
         /\ Database.nodeCount db' = S (Database.nodeCount db)
     | None =>
         Database.nodes db' = Database.nodes db
         /\ Database.nodeCount db' = Database.nodeCount db
     end.

(** The parameters the parses of all the groups add to the total. *)
Definition sumGroups (fuel : nat) (env : Environment)
           (groups : list (string * list string)) : nat :=
  list_sum (map (fun group => sumCounts fuel env (snd group)) groups).

(** [nodes[key] = schema] for each winner in turn. *)
Definition storeWinners (winners : list (string * Schema.t))
           (nodes : Js.Obj Schema.t) : Js.Obj Schema.t :=
  fold_left (fun nodes winner => Js.set (fst winner) (snd winner) nodes)
            winners nodes.

(** What the grouping loop keeps true of the groups built from the files
    seen so far: distinct keys, every file under its base name, every file
    in one group. *)
Definition Grouped (groups : Js.Obj (list string)) (seen : list string)
  : Prop :=
  NoDup (Js.keys groups)
  /\ (forall baseName files file,
         In (baseName, files) groups -> In file files ->
         extractBaseNodeName file = baseName)
  /\ Permutation (List.concat (map snd groups)) seen.

Definition candidateParameters (c : Candidate.t) : nat :=
  List.length (Schema.parameters (Candidate.schema c)).

(** The parameters of the winner of a group. *)
Definition winnerParametersOf (fuel : nat) (env : Environment)
           (group : string * list string) : nat :=
  match winnerOf fuel env (fst group) (snd group) with
  | Some winner => List.length (Schema.parameters (snd winner))
  | None => 0
  end.

(* ================================================================== *)
(** * The layered-module walker: structure test and operation files *)
(* ================================================================== *)

(** Leftmost search of a pattern that is anchored at the end: the
    matcher is tried at every start position, from the left. *)
Fixpoint search_anchored (here : list ascii -> bool) (s : list ascii) : bool :=
  here s
  || match s with
     | [] => false
     | _ :: s' => search_anchored here s'
     end.

(** [/^[Vv]\d{2,}$/] on what is left of the subject. *)
Definition high_version_here (s : list ascii) : bool :=
  match s with
  | c :: (_ :: _ :: _) as ds =>
      JsString.is_Vv c && forallb JsString.is_digit ds
  | _ => false
  end.

(** [/^[Vv][2-9]$/] on what is left of the subject. *)
Definition versioned_here (s : list ascii) : bool :=
  match s with
  | [c; d] => JsString.is_Vv c && JsString.is_2_to_9 d
  | _ => false
  end.

(** [detectV2Structure], as the condition it is used for. *)
Definition detectV2Structure (filePath : string) : bool :=
  let pathParts := Path.split filePath in
  let fileName := Path.basename filePath ".node.ts" in
  let hasVersionedDir :=
    existsb (fun part => versioned_here (JsString.chars part)
                         || high_version_here (JsString.chars part))
            pathParts in
  let hasActionsDir :=
    existsb (fun part => String.eqb part "actions") pathParts in
  let hasVersionedFileName :=
    search_anchored versioned_here (JsString.chars fileName)
    || search_anchored high_version_here (JsString.chars fileName) in
  let hasHighVersionDir :=
    existsb (fun part => high_version_here (JsString.chars part)) pathParts in
  let hasHighVersionFile :=
    search_anchored high_version_here (JsString.chars fileName) in
  hasVersionedDir || hasActionsDir || hasVersionedFileName
  || hasHighVersionDir || hasHighVersionFile.

(** The digits of a version marker the structure test accepts: one of
    [2] to [9], or two digits or more. *)
Definition aboveVersionOne (digits : list ascii) : bool :=
  match digits with
  | [] => false
  | [d] => JsString.is_2_to_9 d
  | _ :: _ :: _ => true
  end.

(** One element of the result of [findExportedConstants]. *)
Module ExportedConstant.
Record t : Type := mk {
  name : string;
  type : string;
  properties : list Param.t
}.
End ExportedConstant.





(* ================================================================== *)
(** * The file system: implementation files and import paths *)
(* ================================================================== *)

(** What the version dispatcher and the import resolver ask of the file
    system and of Node's [path]: [existsSync], [readdirSync] (which
    throws on what is no readable directory), [path.join] and
    [path.resolve] (which depends on the working directory). *)
Record FileSystem : Type := mkFileSystem {
  existsSync : string -> bool;
  readdirSync : string -> Attempt (list string);
  join : list string -> string;
  resolve : list string -> string
}.

(** [targetVersion] of [findImplementationFileForVersion]: the integer
    part of the version, but for the three nodes with an override. *)
Definition targetVersionOf (baseName : string) (version : Q) : Z :=
  let targetVersion := Qfloor version in
  let targetVersion :=
    if String.eqb baseName "HttpRequest" && Qle_bool 4 version
    then 3%Z else targetVersion in
  let targetVersion :=
    if String.eqb baseName "GoogleSheets" && Qle_bool 3 version
    then 2%Z else targetVersion in
  let targetVersion :=
    if String.eqb baseName "GoogleDrive" && Qle_bool 3 version
    then 3%Z else targetVersion in
  targetVersion.

(** The first loop of [findImplementationFileForVersion]: for each
    pattern the sub-directory path, then the lower-cased one. *)
Fixpoint probePatterns (fs : FileSystem) (nodeDir baseName : string)
         (versionPatterns : list string) : option string :=
  match versionPatterns with
  | [] => None
  | pattern :: versionPatterns =>
      let fileName := (baseName ++ pattern ++ ".node.ts")%string in
      let subDirPath := join fs [nodeDir; pattern; fileName] in
      if existsSync fs subDirPath then Some subDirPath
      else
        let directPath :=
          join fs [nodeDir; JsString.toLowerCase pattern; fileName] in
        if existsSync fs directPath then Some directPath
        else probePatterns fs nodeDir baseName versionPatterns
  end.

(** The second loop, inside [try]: the first file of a version directory
    whose name ends with [.node.ts] and includes the base name; a
    directory that cannot be read ends the scan. *)
Fixpoint scanVersionDirectories (fs : FileSystem) (nodeDir baseName : string)
         (entries : list string) : option string :=
  match entries with
  | [] => None
  | entry :: entries =>
      match Regex.match_version_whole entry with
      | Some _ =>
          let versionDir := join fs [nodeDir; entry] in
          match readdirSync fs versionDir with
          | Returns files =>
              match find (fun f => JsString.endsWith f ".node.ts"
                                   && JsString.includes f baseName) files with
              | Some nodeFile =>
                  if negb (String.eqb nodeFile "")
                  then Some (join fs [versionDir; nodeFile])
                  else scanVersionDirectories fs nodeDir baseName entries
              | None => scanVersionDirectories fs nodeDir baseName entries
              end
          | Throws _ => None
          end
      | None => scanVersionDirectories fs nodeDir baseName entries
      end
  end.

(** [findImplementationFileForVersion], on a version that is a finite
    number (the value of [parseFloat] on the text of a numeric literal)
    whose integer part is printed by its digits, as a template literal
    does below [10^21]. *)
Definition findImplementationFile (fs : FileSystem) (wrapperFilePath : string)
           (version : Q) : option string :=
  let nodeDir := Path.dirname wrapperFilePath in
  let baseName := Path.basename wrapperFilePath ".node.ts" in
  let targetVersion := JsString.Z_to_string (targetVersionOf baseName version) in
  let versionPatterns :=
    [("V" ++ targetVersion)%string;
     ("v" ++ targetVersion)%string;
     (baseName ++ "V" ++ targetVersion)%string] in
  match probePatterns fs nodeDir baseName versionPatterns with
  | Some found => Some found
  | None =>
      match readdirSync fs nodeDir with
      | Returns entries => scanVersionDirectories fs nodeDir baseName entries
      | Throws _ => None
      end
  end.

(** [resolveImportPath] *)
Definition resolveImportPath (fs : FileSystem) (importPath : string)
           (currentFilePath : string) : string :=
  let currentDir := Path.dirname currentFilePath in
  if JsString.startsWith importPath "./"
     || JsString.startsWith importPath "../"
  then
    let resolvedPath := resolve fs [currentDir; importPath] in
    let extensions := [".ts"; ".js"; ".json"] in
    match find (fun ext => existsSync fs (resolvedPath ++ ext)%string)
               extensions with
    | Some ext => (resolvedPath ++ ext)%string
    | None =>
        match find (fun ext =>
                      existsSync fs (join fs [resolvedPath;
                                              ("index" ++ ext)%string]))
                   extensions with
        | Some ext => join fs [resolvedPath; ("index" ++ ext)%string]
        | None => importPath
        end
    end
  else importPath.

(* ================================================================== *)
(** * The script as a whole *)
(* ================================================================== *)




(* ================================================================== *)
(** * Notions used by the properties of the run *)
(* ================================================================== *)

(** The three quality counters of the statistics. *)
Definition counters (db : Database.t) : nat * nat * nat :=
  let st := Database.extractionStats db in
  (Stats.highQuality st, Stats.mediumQuality st, Stats.lowQuality st).

Definition sameQuality (a b : Quality) : bool :=
  match a, b with
  | high, high | medium, medium | low, low => true
  | _, _ => false
  end.

(** The number of entries of a node mapping of a given quality. *)
Definition countQuality (q : Quality) (nodes : Js.Obj Schema.t) : nat :=
  List.length
    (filter (fun entry => sameQuality (Schema.extractionQuality (snd entry)) q)
            nodes).

(** A value the literal interpreter can have read: no negative number,
    no empty object, no key twice in an object, at any depth. *)
Fixpoint readable (v : Js.Value) : Prop :=
  match v with
  | Js.JNum z => (0 <= z)%Z
  | Js.JArr elements =>
      fold_right (fun element rest => readable element /\ rest) True elements
  | Js.JObj entries =>
      entries <> []
      /\ NoDup (map fst entries)
      /\ fold_right (fun entry rest => readable (snd entry) /\ rest) True
                    entries
  | _ => True
  end.

(** The message of what is thrown, and caught by [parseNodeFile], while
    a file that is not redirected is read and extracted. *)
Definition thrownIn (env : Environment) (filePath : string) : option string :=
  match readSourceFile env filePath with
  | Throws message => Some message
  | Returns sourceFile =>
      match redirection env filePath (detectVersionedNodeWrapper sourceFile),
            findNodeDescription sourceFile filePath [] with
      | None, (Some _, _) =>
          match resolveImportedProperties env sourceFile filePath with
          | Throws message => Some message
          | Returns _ => None
          end
      | _, _ => None
      end
  end.

(** An issue recorded by the [catch] of [parseNodeFile]. *)
Definition isProcessingIssue (issue : string) : Prop :=
  exists filePath message, issue = processingIssue filePath message.

(** [db'] has the issues of [db] and more, each recorded by
    [parseNodeFile]. *)
Definition Records (db db' : Database.t) : Prop :=
  exists added,
    Database.knownIssues db' = (Database.knownIssues db ++ added)%list
    /\ Forall isProcessingIssue added.

(** What a returning step leaves in the counters and in the issues of
    the files it went through. *)
Definition LedgerStep (env : Environment) (files : list string)
           (f : nat * nat * nat -> nat * nat * nat)
           (db db' : Database.t) : Prop :=
  counters db' = f (counters db)
  /\ Records db db'
  /\ forall file message,
      In file files -> thrownIn env file = Some message ->
      In (processingIssue file message) (Database.knownIssues db').

(** The number of nodes of a tree. *)
Fixpoint size (node : Node) : nat :=
  S (match node with
     | StringLiteral _ | NumericLiteral _ | TrueKeyword | FalseKeyword => 0
     | ArrayLiteralExpression l => list_sum (map size l)
     | ObjectLiteralExpression l => list_sum (map size l)
     | PropertyAssignment _ i => size i
     | VariableStatement _ l => list_sum (map size l)
     | VariableDeclaration _ (Some i) => size i
     | VariableDeclaration _ None => 0
     | InterfaceDeclaration _ l => list_sum (map size l)
     | ClassDeclaration _ l => list_sum (map size l)
     | OtherNode l => list_sum (map size l)
     end).


(** A class that extends [VersionedNodeType]. *)
Definition extendsVersionedNodeType (node : Node) : bool :=
  match node with
  | ClassDeclaration extendsIdentifiers _ =>
      existsb (fun e => match e with
                        | Some text => String.eqb text "VersionedNodeType"
                        | None => false
                        end) extendsIdentifiers
  | _ => false
  end.

(** The text of a [defaultVersion: <number>] property assignment. *)
Definition defaultVersionAt (node : Node) : option string :=
  match node with
  | PropertyAssignment (Identifier "defaultVersion") (NumericLiteral text) =>
      Some text
  | _ => None
  end.

(* ================================================================== *)
(** * Sample inputs *)
(* ================================================================== *)

Module Sample.

(** A parameter as [parsePropertyObject] builds it from
    [{ name, type, description }]. *)
Definition param (name type : string) (description : option string)
  : Param.t :=
  Param.mk (Js.JStr name) (Js.JStr name) (Js.JStr type) None
    (option_map Js.JStr description) None None None None None None None
    None None None None
    (WorkflowJsonStructure.mk (Js.JStr name) None
       (JsString.str [Js.quote] ++ name ++ JsString.str [Js.quote]
          ++ ": undefined")%string
       (Js.JStr type) (Js.JBool false) None).

Definition schema (parameters : list Param.t) (quality : Quality)
           (notes : list string) : Schema.t :=
  Schema.mk (Js.JStr "Foo") (Js.JStr "foo") None None (Js.JNum 1) None
    parameters None None None None quality notes.

Definition candidate (filePath : string) (schema : Schema.t) : Candidate.t :=
  Candidate.mk schema filePath (calculateVersionPriority filePath schema).

Definition assign (name : string) (initializer : Node) : Node :=
  PropertyAssignment (Identifier name) initializer.

(** [{ name: 'table', type: 'string',
       displayOptions: { show: { operation: ['insert', 'update'] } } }] *)
Definition conditionalProperty : list Node :=
  [assign "name" (StringLiteral "table");
   assign "type" (StringLiteral "string");
   assign "displayOptions"
     (ObjectLiteralExpression
        [assign "show"
           (ObjectLiteralExpression
              [assign "operation"
                 (ArrayLiteralExpression
                    [StringLiteral "insert"; StringLiteral "update"])])])].

(** [{ name: 'n', type: 'string', description: 'd' }] *)
Definition describedProperty (name : string) : Node :=
  ObjectLiteralExpression
    [assign "name" (StringLiteral name);
     assign "type" (StringLiteral "string");
     assign "description" (StringLiteral "d")].

Definition object (properties : list Node) : Node :=
  ObjectLiteralExpression properties.

(** A file [const description = { displayName: 'Foo', name: 'foo',
    properties: [ ... ] };]. *)
Definition nodeFile (properties : list Node) : Node :=
  OtherNode
    [VariableStatement false
       [VariableDeclaration (Some "description")
          (Some (ObjectLiteralExpression
                   [assign "displayName" (StringLiteral "Foo");
                    assign "name" (StringLiteral "foo");
                    assign "properties"
                      (ArrayLiteralExpression properties)]))]].

(** A file without any declaration. *)
Definition emptyFile : Node := OtherNode [].

Definition fooPath : string :=
  "/n8n/packages/nodes-base/nodes/Foo/Foo.node.ts".
Definition barPath : string :=
  "/n8n/packages/nodes-base/nodes/Bar/Bar.node.ts".
Definition indexPath : string :=
  "/n8n/packages/nodes-base/nodes/index.node.ts".
Definition postgresPath : string :=
  "/n8n/packages/nodes-base/nodes/Postgres/Postgres.node.ts".
Definition postgresV2Path : string :=
  "/n8n/packages/nodes-base/nodes/Postgres/v2/PostgresV2.node.ts".

(** A small file system: [Foo] declares one conditional parameter,
    [Bar] and [index] declare nothing, [Postgres] declares two
    parameters and [PostgresV2] five. *)
Definition files : Js.Obj Node :=
  [(fooPath, nodeFile [object conditionalProperty]);
   (barPath, emptyFile);
   (indexPath, emptyFile);
   (postgresPath, nodeFile [describedProperty "a"; describedProperty "b"]);
   (postgresV2Path,
    nodeFile [describedProperty "a"; describedProperty "b";
              describedProperty "c"; describedProperty "d";
              describedProperty "e"])].

Definition env : Environment :=
  mkEnvironment
    (fun filePath =>
       match Js.get filePath files with
       | Some sourceFile => Returns sourceFile
       | None => Throws "ENOENT: no such file or directory"
       end)
    (fun _ _ => Returns ([], []))
    (fun _ _ => None)
    true.

Definition now : string := "2025-01-01T00:00:00.000Z".

(** What [findNodeFiles] finds in that file system. *)
Definition nodeFiles : list string :=
  [fooPath; barPath; indexPath; postgresPath; postgresV2Path].

(** The run on these files. *)
Definition run : Result unit * Database.t :=
  extractAllSchemas 2 env nodeFiles (Database.initial now).

End Sample.

(** [updateQualityStats] on the three counters. *)
Definition bump (q : Quality) (c : nat * nat * nat) : nat * nat * nat :=
  match c, q with
  | (h, m, l), high => (S h, m, l)
  | (h, m, l), medium => (h, S m, l)
  | (h, m, l), low => (h, m, S l)
  end.

Definition bumpWinner (winner : option (string * Schema.t))
           (c : nat * nat * nat) : nat * nat * nat :=
  match winner with
  | Some w => bump (Schema.extractionQuality (snd w)) c
  | None => c
  end.

(** The schema [parseNodeFile] makes of what it extracted from a file. *)
Definition markedSchema (info : WrapperInfo) (schema : Schema.t) : Schema.t :=
  if isWrapper info then pushNote (wrapperMark info) schema else schema.

(* ================================================================== *)
(** * A sample with a wrapper *)
(* ================================================================== *)

Module Fixture.

Definition httpDir : string := "/n8n/packages/nodes-base/nodes/HttpRequest".
Definition wrapperPath : string := (httpDir ++ "/HttpRequest.node.ts")%string.
Definition v3Path : string := (httpDir ++ "/V3/HttpRequestV3.node.ts")%string.
Definition lonelyPath : string :=
  "/n8n/packages/nodes-base/nodes/Lonely/Lonely.node.ts".
Definition brokenPath : string :=
  "/n8n/packages/nodes-base/nodes/Broken/Broken.node.ts".

(** [export class HttpRequest extends VersionedNodeType { constructor() {
      const baseDescription = { displayName: 'HTTP Request',
                                defaultVersion: 4.2 }; ... } }] *)
Definition wrapperFile : Node :=
  OtherNode
    [ClassDeclaration [Some "VersionedNodeType"]
       [OtherNode
          [VariableStatement false
             [VariableDeclaration (Some "baseDescription")
                (Some (ObjectLiteralExpression
                         [Sample.assign "displayName"
                            (StringLiteral "HTTP Request");
                          Sample.assign "defaultVersion"
                            (NumericLiteral "4.2")]))]]]].

(** [path.join] and [path.resolve] on an absolute first part and parts
    without [.], [..] and slashes at their ends. *)
Definition joinParts (parts : list string) : string := String.concat "/" parts.

(** A file system with [HttpRequest/V3/HttpRequestV3.node.ts] and
    nothing under [Lonely]. *)
Definition fs : FileSystem :=
  mkFileSystem
    (fun p => String.eqb p v3Path || String.eqb p wrapperPath
              || String.eqb p lonelyPath)
    (fun d =>
       if String.eqb d httpDir then Returns ["HttpRequest.node.ts"; "V3"]
       else if String.eqb d (httpDir ++ "/V3")%string
            then Returns ["HttpRequestV3.node.ts"]
            else Throws "ENOENT: no such file or directory")
    joinParts joinParts.

Definition files : Js.Obj Node :=
  [(wrapperPath, wrapperFile);
   (v3Path, Sample.nodeFile [Sample.describedProperty "url";
                             Sample.describedProperty "method"]);
   (lonelyPath, wrapperFile)].

Definition env : Environment :=
  mkEnvironment
    (fun filePath =>
       match Js.get filePath files with
       | Some sourceFile => Returns sourceFile
       | None => Throws "ENOENT: no such file or directory"
       end)
    (fun _ _ => Returns ([], []))
    (fun wrapper text =>
       if String.eqb text "4.2"
       then findImplementationFile fs wrapper (42 # 10)
       else None)
    true.

Definition nodeFiles : list string :=
  [wrapperPath; v3Path; lonelyPath; brokenPath].

Definition run : Result unit * Database.t :=
  extractAllSchemas 2 env nodeFiles (Database.initial Sample.now).

End Fixture.

(* ================================================================== *)
(** * Properties *)
(* ================================================================== *)

Example basename_sample :
  Path.basename "/n/Postgres/v2/PostgresV2.node.ts" ".node.ts" = "PostgresV2".
Proof. reflexivity. Qed.

Example dirname_sample :
  Path.dirname "/n/Postgres/v2/PostgresV2.node.ts" = "/n/Postgres/v2".
Proof. reflexivity. Qed.

Example split_sample :
  Path.split "/n/Postgres/v2/P.node.ts"
  = [""; "n"; "Postgres"; "v2"; "P.node.ts"].
Proof. reflexivity. Qed.

Example version_suffix_sample :
  Regex.match_version_suffix "HttpRequestV3" = Some ["3"%char]
  /\ Regex.match_version_suffix "HttpRequest" = None
  /\ Regex.match_version_whole "v12" = Some ["1"%char; "2"%char]
  /\ Regex.match_version_whole "Postgres" = None.
Proof. repeat split; reflexivity. Qed.

Example formatDisplayName_sample :
  formatDisplayName "HttpRequestV3" = "Http Request"
  /\ formatDisplayName "googleSheets" = "Google Sheets".
Proof. split; reflexivity. Qed.

Example extractBaseNodeName_sample :
  extractBaseNodeName "/n/Postgres/v2/PostgresV2.node.ts" = "postgres"
  /\ extractBaseNodeName "/n/Postgres/Postgres.node.ts" = "postgres".
Proof. split; reflexivity. Qed.

(** Scenario B of the design document: the [V2] candidate, nine
    parameters of high quality, scores 225 against 60. *)
Example priority_sample :
  calculateVersionPriority "/n/Postgres/v2/PostgresV2.node.ts"
    (Sample.schema (repeat (Sample.param "a" "string" (Some "d")) 9) high [])
  = 225%Z
  /\ calculateVersionPriority "/n/Postgres/Postgres.node.ts"
       (Sample.schema (repeat (Sample.param "a" "string" None) 2) medium [])
     = 60%Z.
Proof. split; reflexivity. Qed.

(* ------------------------------------------------------------------ *)
(** ** The priority score *)
(* ------------------------------------------------------------------ *)

Section Priority.
Local Open Scope Z_scope.
Import JsString.

Lemma digit_value_nonneg (c : ascii) :
  is_digit c = true -> 0 <= digit_value c.
Proof.
  unfold is_digit, digit_value. intros H.
  apply andb_true_iff in H. destruct H as [H _].
  apply Nat.leb_le in H. lia.
Qed.

Lemma parseInt_digits_from (ds : list ascii) (acc : Z) :
  forallb is_digit ds = true -> 0 <= acc ->
  0 <= fold_left (fun a c => a * 10 + digit_value c) ds acc.
Proof.
  revert acc. induction ds as [|c ds IH]; intros acc Hd Hacc; simpl.
  - exact Hacc.
  - simpl in Hd. apply andb_true_iff in Hd. destruct Hd as [Hc Hd].
    apply IH; [exact Hd|].
    pose proof (digit_value_nonneg c Hc). lia.
Qed.

Lemma parseInt_digits_nonneg (ds : list ascii) :
  forallb is_digit ds = true -> 0 <= parseInt_digits ds.
Proof. intros H. apply parseInt_digits_from; [exact H|lia]. Qed.

Lemma version_here_digits (s ds : list ascii) :
  Regex.version_here s = Some ds -> forallb is_digit ds = true.
Proof.
  unfold Regex.version_here. destruct s as [|c [|d s]]; try discriminate.
  destruct (is_Vv c && forallb is_digit (d :: s)) eqn:E; try discriminate.
  intros H. injection H as <-.
  apply andb_true_iff in E. apply E.
Qed.

Lemma match_version_whole_nonneg (s : string) (ds : list ascii) :
  Regex.match_version_whole s = Some ds -> 0 <= parseInt_digits ds.
Proof.
  intros H. apply parseInt_digits_nonneg. eapply version_here_digits, H.
Qed.

(** The score in closed form, on the five inputs read off the
    candidate. *)
Lemma calculateVersionPriority_closed (filePath : string) (schema : Schema.t) :
  calculateVersionPriority filePath schema
  = (if isWrapperFallback schema then -100 else 0)
    + versionTerm (explicitVersionNumber filePath)
    + parameterCount schema * 5
    + qualityBonus (Schema.extractionQuality schema)
    + (if pathContainsVersionedDirectory filePath then 30 else 0).
Proof.
  unfold calculateVersionPriority, isWrapperFallback, explicitVersionNumber,
    versionTerm, parameterCount, pathContainsVersionedDirectory.
  cbv zeta.
  destruct (Regex.match_version_suffix (Path.basename filePath ".node.ts"))
    as [f|];
    destruct (Regex.match_version_whole
                (Path.basename1 (Path.dirname filePath))) as [d|] eqn:Ed;
    try (apply match_version_whole_nonneg in Ed;
         try rewrite (Z.max_r 0 (parseInt_digits d)) by lia);
    destruct (existsb _ (Schema.extractionNotes schema));
    destruct (Schema.extractionQuality schema);
    destruct (existsb Regex.match_versioned_dir (Path.split filePath));
    cbn [qualityBonus];
    repeat match goal with
           | |- context [if ?b then _ else _] => destruct b eqn:?
           end.
  all: lia.
Qed.

Lemma versionTerm_positive (v : option Z) :
  versionTerm v
  = match positiveVersion v with Some n => n * 50 | None => 25 end.
Proof.
  unfold versionTerm, positiveVersion.
  destruct v as [n|]; [destruct (0 <? n)|]; reflexivity.
Qed.

Lemma versionTerm_versionNumOf (filePath : string) :
  versionTerm (explicitVersionNumber filePath)
  = if 0 <? versionNumOf filePath then versionNumOf filePath * 50 else 25.
Proof.
  unfold versionTerm, versionNumOf.
  destruct (explicitVersionNumber filePath); reflexivity.
Qed.

Lemma versionTerm_monotone (a b : Z) :
  a <= b ->
  (if 0 <? a then a * 50 else 25) <= (if 0 <? b then b * 50 else 25).
Proof.
  intros H. destruct (0 <? a) eqn:Ea, (0 <? b) eqn:Eb;
    try apply Z.ltb_lt in Ea; try apply Z.ltb_ge in Ea;
    try apply Z.ltb_lt in Eb; try apply Z.ltb_ge in Eb; lia.
Qed.

Lemma search_version_suffix_digits (s before pre ds : list ascii) :
  Regex.search_version_suffix before s = Some (pre, ds) ->
  forallb is_digit ds = true.
Proof.
  revert before. induction s as [|c s IH]; intros before.
  - simpl. discriminate.
  - cbn [Regex.search_version_suffix].
    destruct (Regex.version_here (c :: s)) as [ds'|] eqn:E.
    + intros H. injection H as _ <-. eapply version_here_digits, E.
    + apply IH.
Qed.

Lemma match_version_suffix_nonneg (s : string) (ds : list ascii) :
  Regex.match_version_suffix s = Some ds -> 0 <= parseInt_digits ds.
Proof.
  unfold Regex.match_version_suffix.
  destruct (Regex.search_version_suffix [] (chars s)) as [[pre ds']|] eqn:E;
    [|discriminate].
  simpl. intros H. injection H as <-.
  apply parseInt_digits_nonneg. eapply search_version_suffix_digits, E.
Qed.

Lemma explicitVersionNumber_nonneg (filePath : string) (v : Z) :
  explicitVersionNumber filePath = Some v -> 0 <= v.
Proof.
  unfold explicitVersionNumber.
  destruct (Regex.match_version_suffix (Path.basename filePath ".node.ts"))
    as [f|] eqn:Ef;
    destruct (Regex.match_version_whole
                (Path.basename1 (Path.dirname filePath))) as [d|] eqn:Ed;
    try discriminate;
    try apply match_version_suffix_nonneg in Ef;
    try apply match_version_whole_nonneg in Ed;
    intros H; injection H as <-; lia.
Qed.

(** The documented formula holds as written but for the version number
    0. *)
Lemma priority_score_documented (filePath : string) (schema : Schema.t) :
  explicitVersionNumber filePath <> Some 0 ->
  calculateVersionPriority filePath schema
  = documentedScore (isWrapperFallback schema)
      (explicitVersionNumber filePath)
      (parameterCount schema)
      (Schema.extractionQuality schema)
      (pathContainsVersionedDirectory filePath).
Proof.
  intros Hz.
  rewrite calculateVersionPriority_closed, versionTerm_positive.
  unfold documentedScore, positiveVersion.
  destruct (explicitVersionNumber filePath) as [v|] eqn:E; [|reflexivity].
  apply explicitVersionNumber_nonneg in E.
  destruct (Z.ltb_spec 0 v); [reflexivity|].
  exfalso. apply Hz. f_equal. lia.
Qed.



(** C3 (as amended).  A wrapper fallback scores strictly less than a
    non-wrapper candidate of medium or high quality with at least one
    parameter, both with version numbers below 10, provided the
    wrapper's version number is not the larger one, the wrapper is in a
    versioned directory only if the other candidate is, and the wrapper
    has fewer than 15 parameters more than the other candidate. *)
Theorem wrapper_scores_below_non_wrapper
        (wrapperPath otherPath : string) (wrapper other : Schema.t) :
  isWrapperFallback wrapper = true ->
  isWrapperFallback other = false ->
  (1 <= List.length (Schema.parameters other))%nat ->
  Schema.extractionQuality other <> low ->
  versionNumOf wrapperPath < 10 ->
  versionNumOf otherPath < 10 ->
  versionNumOf wrapperPath <= versionNumOf otherPath ->
  (pathContainsVersionedDirectory wrapperPath = true ->
   pathContainsVersionedDirectory otherPath = true) ->
  (List.length (Schema.parameters wrapper)
   < List.length (Schema.parameters other) + 15)%nat ->
  calculateVersionPriority wrapperPath wrapper
  < calculateVersionPriority otherPath other.
Proof.
  intros Hw Ho _ Hq _ _ Hv Hd Hn.
  rewrite !calculateVersionPriority_closed, !versionTerm_versionNumOf.
  rewrite Hw, Ho. unfold parameterCount.
  pose proof (versionTerm_monotone Hv) as Hm.
  assert (Hb : qualityBonus (Schema.extractionQuality wrapper)
               <= qualityBonus (Schema.extractionQuality other) + 25).
  { destruct (Schema.extractionQuality wrapper),
      (Schema.extractionQuality other); cbn; try lia; congruence. }
  destruct (pathContainsVersionedDirectory wrapperPath);
    [rewrite Hd by reflexivity
    |destruct (pathContainsVersionedDirectory otherPath)]; lia.
Qed.

Lemma wrapper_scores_below_non_wrapper_witness :
  calculateVersionPriority
    "/n8n/packages/nodes-base/nodes/Postgres/Postgres.node.ts"
    (Sample.schema [] low
       ["Wrapper file: VersionedNodeType with defaultVersion 2.5"])
  < calculateVersionPriority
      "/n8n/packages/nodes-base/nodes/Postgres/v2/PostgresV2.node.ts"
      (Sample.schema (repeat (Sample.param "a" "string" None) 2) medium []).
Proof.
  apply wrapper_scores_below_non_wrapper.
  - reflexivity.
  - reflexivity.
  - simpl. lia.
  - simpl. discriminate.
  - vm_compute. reflexivity.
  - vm_compute. reflexivity.
  - vm_compute. discriminate.
  - intros _. vm_compute. reflexivity.
  - simpl. lia.
Defined.

(** C3 as stated fails: a wrapper fallback named [FooV9] outranks a
    non-wrapper [FooV1] with two parameters of medium quality, both of
    the same group, 350 against 85. *)
Lemma wrapper_outranks_non_wrapper :
  let wrapperPath := "/n8n/packages/nodes-base/nodes/Foo/FooV9.node.ts" in
  let otherPath := "/n8n/packages/nodes-base/nodes/Foo/FooV1.node.ts" in
  let wrapper :=
    Sample.schema [] low
      ["Wrapper file: VersionedNodeType with defaultVersion unspecified"] in
  let other :=
    Sample.schema (repeat (Sample.param "a" "string" None) 2) medium [] in
  isWrapperFallback wrapper = true
  /\ isWrapperFallback other = false
  /\ (1 <= List.length (Schema.parameters other))%nat
  /\ Schema.extractionQuality other = medium
  /\ versionNumOf wrapperPath = 9
  /\ versionNumOf otherPath = 1
  /\ extractBaseNodeName wrapperPath = extractBaseNodeName otherPath
  /\ calculateVersionPriority wrapperPath wrapper = 350
  /\ calculateVersionPriority otherPath other = 85
  /\ ~ (calculateVersionPriority wrapperPath wrapper
        < calculateVersionPriority otherPath other).
Proof.
  cbv zeta.
  repeat match goal with |- _ /\ _ => split end;
    try (vm_compute; reflexivity).
  - simpl. lia.
  - vm_compute. discriminate.
Qed.

End Priority.

(* ------------------------------------------------------------------ *)
(** ** The selection of the winner *)
(* ------------------------------------------------------------------ *)

Section Selection.
Local Open Scope Z_scope.

Local Abbreviation priority := Candidate.priority.

Lemma selectBestVersion_nil : selectBestVersion [] = None.
Proof. reflexivity. Qed.

(** The head of the sorted array, candidate by candidate: a candidate
    seen earlier stays in front of whatever does not beat it. *)
Lemma selectBestVersion_cons (c : Candidate.t) (l : list Candidate.t) :
  selectBestVersion (c :: l)
  = match selectBestVersion l with
    | None => Some c
    | Some b => if priority b <=? priority c then Some c else Some b
    end.
Proof.
  unfold selectBestVersion, sort. simpl fold_right.
  destruct (fold_right _ [] l) as [|y rest]; simpl; [reflexivity|].
  destruct (priority y - priority c <=? 0) eqn:E1,
           (priority y <=? priority c) eqn:E2;
    try reflexivity;
    try apply Z.leb_le in E1; try apply Z.leb_gt in E1;
    try apply Z.leb_le in E2; try apply Z.leb_gt in E2; lia.
Qed.

(** The winner is the first candidate of maximal priority. *)
Lemma selectBestVersion_first_max (l : list Candidate.t) :
  l <> [] ->
  exists pre best post,
    l = pre ++ best :: post
    /\ selectBestVersion l = Some best
    /\ (forall c, In c pre -> priority c < priority best)
    /\ (forall c, In c post -> priority c <= priority best).
Proof.
  induction l as [|c l IH]; intros Hne; [congruence|].
  rewrite selectBestVersion_cons.
  destruct l as [|d l].
  - exists [], c, []. simpl. repeat split; intros ? [].
  - destruct IH as (pre & b & post & Hl & Hs & Hpre & Hpost);
      [discriminate|].
    rewrite Hs.
    destruct (priority b <=? priority c) eqn:E.
    + apply Z.leb_le in E.
      exists [], c, (d :: l). repeat split; [intros ? []|].
      intros x Hx. rewrite Hl in Hx.
      apply in_app_or in Hx. destruct Hx as [Hx|[<-|Hx]].
      * apply Hpre in Hx. lia.
      * exact E.
      * apply Hpost in Hx. lia.
    + apply Z.leb_gt in E.
      exists (c :: pre), b, post. rewrite Hl. repeat split.
      * intros x [<-|Hx]; [exact E|apply Hpre, Hx].
      * exact Hpost.
Qed.

Lemma selectBestVersion_max (l : list Candidate.t) :
  l <> [] ->
  exists best,
    selectBestVersion l = Some best
    /\ In best l
    /\ forall c, In c l -> priority c <= priority best.
Proof.
  intros Hne.
  destruct (selectBestVersion_first_max Hne)
    as (pre & b & post & Hl & Hs & Hpre & Hpost).
  exists b. split; [exact Hs|]. rewrite Hl. split.
  - apply in_or_app. right. left. reflexivity.
  - intros c Hc. apply in_app_or in Hc. destruct Hc as [Hc|[<-|Hc]].
    + apply Hpre in Hc. lia.
    + lia.
    + apply Hpost, Hc.
Qed.

(** C2.  On a non-empty array of candidates [selectBestVersion]
    returns a candidate of the array whose priority is at least every
    candidate's; it is the first-seen candidate of that priority; and
    under any reordering of the array the priority of the winner is the
    same, and the winner itself when no other candidate ties with it. *)
Theorem selectBestVersion_chooses_maximum (versions : list Candidate.t) :
  versions <> [] ->
  exists best,
    selectBestVersion versions = Some best
    /\ In best versions
    /\ (forall c, In c versions -> priority c <= priority best)
    /\ (exists pre post,
           versions = pre ++ best :: post
           /\ forall c, In c pre -> priority c < priority best)
    /\ (forall versions',
           Permutation versions versions' ->
           exists best',
             selectBestVersion versions' = Some best'
             /\ priority best' = priority best
             /\ ((forall c, In c versions ->
                            c = best \/ priority c < priority best) ->
                 best' = best)).
Proof.
  intros Hne.
  destruct (selectBestVersion_first_max Hne)
    as (pre & b & post & Hl & Hs & Hpre & Hpost).
  destruct (selectBestVersion_max Hne) as (b0 & Hs0 & Hin & Hmax).
  rewrite Hs in Hs0. injection Hs0 as <-.
  exists b. repeat split; try assumption.
  - exists pre, post. split; assumption.
  - intros versions' Hperm.
    assert (Hne' : versions' <> []).
    { intros ->. apply Permutation_sym, Permutation_nil in Hperm.
      contradiction. }
    destruct (selectBestVersion_max Hne') as (b' & Hs' & Hin' & Hmax').
    exists b'. split; [exact Hs'|].
    assert (Hb : priority b <= priority b').
    { apply Hmax'. eapply Permutation_in; eassumption. }
    assert (Hb' : priority b' <= priority b).
    { apply Hmax. eapply Permutation_in;
        [apply Permutation_sym|]; eassumption. }
    split; [lia|].
    intros Huniq.
    destruct (Huniq b') as [->|Hlt]; [|reflexivity|lia].
    eapply Permutation_in; [apply Permutation_sym|]; eassumption.
Qed.

Lemma selectBestVersion_chooses_maximum_witness :
  let a := Sample.candidate "/n8n/nodes/Postgres/Postgres.node.ts"
             (Sample.schema (repeat (Sample.param "a" "string" None) 2)
                            medium []) in
  let b := Sample.candidate "/n8n/nodes/Postgres/v2/PostgresV2.node.ts"
             (Sample.schema
                (repeat (Sample.param "a" "string" (Some "d")) 9) high []) in
  exists best,
    selectBestVersion [a; b] = Some best
    /\ In best [a; b]
    /\ (forall c, In c [a; b] -> priority c <= priority best)
    /\ (exists pre post,
           [a; b] = pre ++ best :: post
           /\ forall c, In c pre -> priority c < priority best)
    /\ (forall versions',
           Permutation [a; b] versions' ->
           exists best',
             selectBestVersion versions' = Some best'
             /\ priority best' = priority best
             /\ ((forall c, In c [a; b] ->
                            c = best \/ priority c < priority best) ->
                 best' = best)).
Proof.
  intros a b. apply (@selectBestVersion_chooses_maximum [a; b]).
  discriminate.
Defined.

(** Two candidates of different priorities: the higher one wins in
    either order; of two that tie, the first one wins. *)
Lemma selectBestVersion_pair (a b : Candidate.t) :
  (priority b < priority a ->
   selectBestVersion [a; b] = Some a /\ selectBestVersion [b; a] = Some a)
  /\ (priority a = priority b -> selectBestVersion [a; b] = Some a).
Proof.
  rewrite !selectBestVersion_cons, selectBestVersion_nil.
  split; [intros H; split|intros H].
  - destruct (priority b <=? priority a) eqn:E; [reflexivity|].
    apply Z.leb_gt in E. lia.
  - destruct (priority a <=? priority b) eqn:E; [|reflexivity].
    apply Z.leb_le in E. lia.
  - destruct (priority b <=? priority a) eqn:E; [reflexivity|].
    apply Z.leb_gt in E. lia.
Qed.

(** Scenario B: the [V2] candidate wins in either order. *)
Example selectBestVersion_sample :
  let a := Sample.candidate "/n8n/nodes/Postgres/Postgres.node.ts"
             (Sample.schema (repeat (Sample.param "a" "string" None) 2)
                            medium []) in
  let b := Sample.candidate "/n8n/nodes/Postgres/v2/PostgresV2.node.ts"
             (Sample.schema
                (repeat (Sample.param "a" "string" (Some "d")) 9) high []) in
  selectBestVersion [a; b] = Some b /\ selectBestVersion [b; a] = Some b.
Proof. split; reflexivity. Qed.

End Selection.

(* ------------------------------------------------------------------ *)
(** ** The quality classifier *)
(* ------------------------------------------------------------------ *)

Section QualityClassifier.
Local Open Scope nat_scope.

Lemma nonEmpty_string (s : string) : nonEmpty (Js.JStr s) <-> s <> "".
Proof.
  unfold nonEmpty. simpl. rewrite negb_true_iff. apply String.eqb_neq.
Qed.

Lemma hasTypes_iff (parameters : list Param.t) :
  forallb (fun p => Js.truthy (Param.type p)) parameters = true
  <-> forall p, In p parameters -> hasTypeTag p.
Proof. apply forallb_forall. Qed.

(** C4.  The classifier answers [high] exactly for a list of at least
    five parameters that all have a non-empty type tag and of which
    more than half have a description; failing that, [medium] exactly
    for a list of at least two parameters that all have a type tag;
    [low] otherwise. *)
Theorem quality_classification (parameters : list Param.t) :
  let n := List.length parameters in
  let isHigh :=
    5 <= n /\ (forall p, In p parameters -> hasTypeTag p)
    /\ n < 2 * describedCount parameters in
  let isMedium :=
    2 <= n /\ (forall p, In p parameters -> hasTypeTag p) in
  (determineExtractionQuality parameters = high <-> isHigh)
  /\ (determineExtractionQuality parameters = medium
      <-> ~ isHigh /\ isMedium)
  /\ (determineExtractionQuality parameters = low
      <-> ~ isHigh /\ ~ isMedium).
Proof.
  cbv zeta. unfold determineExtractionQuality, describedCount.
  rewrite <- hasTypes_iff.
  fold hasDescription.
  destruct (forallb _ parameters);
    destruct (Nat.leb_spec 5 (List.length parameters));
    destruct (Nat.leb_spec 2 (List.length parameters));
    destruct (Nat.ltb_spec (List.length parameters)
                (2 * List.length (filter hasDescription parameters)));
    simpl; repeat split; intros;
    repeat match goal with
           | H : _ /\ _ |- _ => destruct H
           | H : ~ (_ /\ _) |- False => apply H; clear H
           | |- _ /\ _ => split
           | |- ~ _ => intro
           end;
    try discriminate; try reflexivity; try lia; try assumption;
    try contradiction.
Qed.

(** Scenario A: three well-formed entries are of medium quality. *)
Example quality_sample :
  determineExtractionQuality
    (repeat (Sample.param "a" "string" (Some "d")) 3) = medium
  /\ determineExtractionQuality
       (repeat (Sample.param "a" "string" (Some "d")) 5) = high
  /\ determineExtractionQuality
       (repeat (Sample.param "a" "string" None) 5) = medium
  /\ determineExtractionQuality [Sample.param "a" "string" (Some "d")] = low.
Proof. repeat split; reflexivity. Qed.

End QualityClassifier.

(* ------------------------------------------------------------------ *)
(** ** The conditional parameter expander *)
(* ------------------------------------------------------------------ *)

Section Expander.
Local Open Scope nat_scope.

Lemma expandValue_fold (param : Param.t) (conditionKey : string)
      (conditionValues : list Js.Value) (st : ExpandState) :
  fold_left (expandValue param conditionKey) conditionValues st
  = (fst st ++ map (conditionalParam param conditionKey) conditionValues,
     snd st + List.length conditionValues).
Proof.
  revert st. induction conditionValues as [|v vs IH]; intros [ps n]; simpl.
  - rewrite app_nil_r, Nat.add_0_r. reflexivity.
  - rewrite IH. simpl. rewrite <- app_assoc. simpl.
    f_equal. lia.
Qed.

Lemma expandCondition_fold (param : Param.t)
      (entries : list (string * Js.Value)) (st : ExpandState) :
  fold_left (expandCondition param) entries st
  = (fst st
       ++ map (fun pair => conditionalParam param (fst pair) (snd pair))
              (conditionPairs entries),
     snd st + List.length (conditionPairs entries)).
Proof.
  revert st. induction entries as [|[k v] es IH]; intros [ps n]; simpl.
  - rewrite app_nil_r, Nat.add_0_r. reflexivity.
  - rewrite IH. unfold expandCondition. simpl.
    destruct v; simpl; try reflexivity.
    rewrite expandValue_fold. simpl.
    rewrite map_app, map_map, length_app, length_map, <- app_assoc.
    simpl. f_equal. lia.
Qed.

Lemma expandParam_spec (st : ExpandState) (param : Param.t) :
  expandParam st param
  = (fst st ++ derivedOf param, snd st + List.length (showPairs param)).
Proof.
  unfold expandParam, derivedOf, showPairs.
  destruct (showOf param) as [show|];
    [destruct (Js.truthy show)|];
    try (destruct st; simpl; rewrite app_nil_r, Nat.add_0_r; reflexivity).
  apply expandCondition_fold.
Qed.

Lemma expandParam_fold (parameters : list Param.t) (st : ExpandState) :
  fold_left expandParam parameters st
  = (fst st ++ flat_map derivedOf parameters,
     snd st + List.length (flat_map showPairs parameters)).
Proof.
  revert st. induction parameters as [|p ps IH]; intros [l n]; simpl.
  - rewrite app_nil_r, Nat.add_0_r. reflexivity.
  - rewrite IH, expandParam_spec. simpl.
    rewrite length_app, <- app_assoc. f_equal. lia.
Qed.

Lemma expandConditionalParameters_parameters
      (parameters : list Param.t) (extractionNotes : list string) :
  fst (expandConditionalParameters parameters extractionNotes)
  = parameters ++ flat_map derivedOf parameters.
Proof.
  unfold expandConditionalParameters. rewrite expandParam_fold. reflexivity.
Qed.





End Expander.

Section ExpanderScenario.

(** Scenario D: [show = { operation: ['insert', 'update'] }] expands
    into exactly two derived parameters that keep the name [table] in
    their usage record. *)
Example expansion_sample :
  exists param d1 d2,
    parsePropertyObject Sample.conditionalProperty = Some param
    /\ showPairs param
       = [("operation", Js.JStr "insert"); ("operation", Js.JStr "update")]
    /\ expandConditionalParameters [param] []
       = ([param; d1; d2],
          ["🔀 Expanded 2 conditional parameters from displayOptions.show"])
    /\ Param.name d1 = Js.JStr "table_when_operation_insert"
    /\ Param.name d2 = Js.JStr "table_when_operation_update"
    /\ WorkflowJsonStructure.parameterName (Param.workflowJsonStructure d1)
       = Js.JStr "table"
    /\ WorkflowJsonStructure.parameterName (Param.workflowJsonStructure d2)
       = Js.JStr "table".
Proof.
  do 3 eexists.
  split; [vm_compute; reflexivity|].
  split; [vm_compute; reflexivity|].
  split; [vm_compute; reflexivity|].
  repeat split; reflexivity.
Qed.

End ExpanderScenario.

(* ------------------------------------------------------------------ *)
(** ** Names and type tags of the emitted parameters *)
(* ------------------------------------------------------------------ *)

Section EmittedParameters.

Lemma append_nonempty (a b : string) : b <> "" -> (a ++ b)%string <> "".
Proof.
  intros Hb. destruct a; simpl; [exact Hb|discriminate].
Qed.

Lemma parsePropertyObject_guard (properties : list Node) :
  let param := assignProperties properties [] in
  (exists p, parsePropertyObject properties = Some p)
  <-> Js.truthy_opt (Js.get "name" param) = true
      /\ Js.truthy_opt (Js.get "type" param) = true.
Proof.
  cbv zeta. unfold parsePropertyObject.
  destruct (Js.get "name" _) as [name|];
    destruct (Js.get "type" _) as [type|]; simpl;
    try (split; [intros [p Hp]; discriminate|intros [? ?]; discriminate]).
  destruct (Js.truthy name), (Js.truthy type); simpl;
    split; try (intros [p Hp]; discriminate);
    try (intros [? ?]; discriminate); eauto.
Qed.

Lemma parsePropertyObject_namedAndTyped (properties : list Node)
      (param : Param.t) :
  parsePropertyObject properties = Some param -> namedAndTyped param.
Proof.
  unfold parsePropertyObject.
  destruct (Js.get "name" _) as [name|]; [|discriminate].
  destruct (Js.get "type" _) as [type|]; [|discriminate].
  destruct (Js.truthy name) eqn:En, (Js.truthy type) eqn:Et;
    try discriminate.
  simpl. intros H. injection H as <-. split; assumption.
Qed.

Lemma parseElements_namedAndTyped (elements : list Node) :
  Forall namedAndTyped (parseElements elements).
Proof.
  unfold parseElements. apply Forall_flat_map.
  apply Forall_forall. intros element _.
  destruct element; try constructor.
  destruct (parsePropertyObject properties) as [param|] eqn:E;
    constructor; [|constructor].
  eapply parsePropertyObject_namedAndTyped, E.
Qed.

Lemma directPropertiesAt_namedAndTyped (node : Node) :
  Forall namedAndTyped (directPropertiesAt node).
Proof.
  unfold directPropertiesAt.
  destruct node; try constructor.
  - destruct name as [text|]; [|constructor].
    destruct (String.eqb text "properties") eqn:E.
    + apply String.eqb_eq in E. subst text.
      destruct node; try constructor. apply parseElements_namedAndTyped.
    + repeat match goal with
             | |- context [match ?x with _ => _ end] => destruct x
             end; try constructor; try apply parseElements_namedAndTyped.
  - destruct exported; [|constructor].
    apply Forall_flat_map, Forall_forall. intros declaration _.
    repeat match goal with
           | |- context [match ?x with _ => _ end] => destruct x
           end; try constructor; try apply parseElements_namedAndTyped.
Qed.

Lemma findDirectProperties_namedAndTyped (sourceFile : Node) :
  Forall namedAndTyped (findDirectProperties sourceFile).
Proof.
  unfold findDirectProperties.
  assert (H : forall nodes acc,
             Forall namedAndTyped acc ->
             Forall namedAndTyped
               (fold_left (fun properties node =>
                             properties ++ directPropertiesAt node)
                          nodes acc)).
  { induction nodes as [|n nodes IH]; intros acc Hacc; simpl; [exact Hacc|].
    apply IH, Forall_app. split; [exact Hacc|].
    apply directPropertiesAt_namedAndTyped. }
  apply H. constructor.
Qed.

Lemma conditionalParam_namedAndTyped (param : Param.t)
      (conditionKey : string) (value : Js.Value) :
  nonEmpty (Param.type param) ->
  namedAndTyped (conditionalParam param conditionKey value).
Proof.
  intros Ht. split; [|exact Ht].
  unfold conditionalParam. cbn [Param.name]. apply nonEmpty_string.
  apply append_nonempty. discriminate.
Qed.

Lemma expandConditionalParameters_namedAndTyped
      (parameters : list Param.t) (extractionNotes : list string) :
  Forall namedAndTyped parameters ->
  Forall namedAndTyped
    (fst (expandConditionalParameters parameters extractionNotes)).
Proof.
  intros H. rewrite expandConditionalParameters_parameters.
  apply Forall_app. split; [exact H|].
  apply Forall_flat_map. eapply Forall_impl; [|exact H].
  intros param [_ Ht]. unfold derivedOf. apply Forall_map.
  apply Forall_forall. intros pair _.
  apply conditionalParam_namedAndTyped, Ht.
Qed.

End EmittedParameters.

(* ------------------------------------------------------------------ *)
(** ** What parsing one file does to the database *)
(* ------------------------------------------------------------------ *)

Section ParseEffects.
Local Open Scope nat_scope.

Lemma Extends_refl (db : Database.t) : Extends 0 db db.
Proof.
  unfold Extends. rewrite Nat.add_0_r. repeat split.
  exists []. rewrite app_nil_r. reflexivity.
Qed.

Lemma Extends_trans (n m : nat) (a b c : Database.t) :
  Extends n a b -> Extends m b c -> Extends (n + m) a c.
Proof.
  unfold Extends.
  intros (H1 & H2 & H3 & H4 & H5 & H6 & H7 & i1 & H8)
         (K1 & K2 & K3 & K4 & K5 & K6 & K7 & i2 & K8).
  repeat split; try congruence; try lia.
  exists (i1 ++ i2). rewrite K8, H8, app_assoc. reflexivity.
Qed.

Lemma Extends_addParameters (n : nat) (db : Database.t) :
  Extends n db (addParameters n db).
Proof.
  unfold Extends, addParameters. simpl. repeat split.
  exists []. rewrite app_nil_r. reflexivity.
Qed.

Lemma Extends_pushIssue (issue : string) (db : Database.t) :
  Extends 0 db (pushIssue issue db).
Proof.
  unfold Extends, pushIssue. simpl. rewrite Nat.add_0_r. repeat split.
  exists [issue]. reflexivity.
Qed.

Lemma extractPropertiesAST_eq (env : Environment) (sourceFile : Node)
      (filePath : string) (extractionNotes : list string)
      (db : Database.t) :
  extractPropertiesAST env sourceFile filePath extractionNotes db
  = match resolveImportedProperties env sourceFile filePath with
    | Returns imported =>
        let r := assembleProperties sourceFile imported extractionNotes in
        (Ok r, addParameters (List.length (fst r)) db)
    | Throws message => (Throw message, db)
    end.
Proof.
  unfold extractPropertiesAST, assembleProperties, bind, attempt, modify, ret.
  destruct (findDirectProperties sourceFile) as [|p ps] eqn:Ed; simpl;
    destruct (resolveImportedProperties env sourceFile filePath);
    try reflexivity;
    destruct (expandConditionalParameters _ _); reflexivity.
Qed.

Lemma assembleProperties_namedAndTyped (sourceFile : Node)
      (imported : list Param.t * list string)
      (extractionNotes : list string) :
  Forall namedAndTyped (fst imported) ->
  Forall namedAndTyped
    (fst (assembleProperties sourceFile imported extractionNotes)).
Proof.
  intros H. unfold assembleProperties.
  apply expandConditionalParameters_namedAndTyped, Forall_app.
  split; [apply findDirectProperties_namedAndTyped|exact H].
Qed.

Lemma extractNodeSchemaAST_eq (env : Environment) (sourceFile : Node)
      (filePath : string) (db : Database.t) :
  extractNodeSchemaAST env sourceFile filePath db
  = match findNodeDescription sourceFile filePath [] with
    | (None, _) => (Ok None, db)
    | (Some description, notes) =>
        match resolveImportedProperties env sourceFile filePath with
        | Returns imported =>
            let r := assembleProperties sourceFile imported notes in
            (Ok (Some (schemaOf description (fst r)
                         (determineExtractionQuality (fst r)) (snd r))),
             addParameters (List.length (fst r)) db)
        | Throws message => (Throw message, db)
        end
    end.
Proof.
  unfold extractNodeSchemaAST, bind, ret.
  destruct (findNodeDescription sourceFile filePath [])
    as [[description|] notes]; [|reflexivity].
  rewrite extractPropertiesAST_eq.
  destruct (resolveImportedProperties env sourceFile filePath);
    [|reflexivity].
  cbv zeta. destruct (assembleProperties _ _ _). reflexivity.
Qed.

(** What [extractNodeSchemaAST] returns does not depend on the
    database; a schema adds its parameters to the total. *)
Lemma extractNodeSchemaAST_run (env : Environment) (sourceFile : Node)
      (filePath : string) :
  exists r,
    r <> OutOfFuel
    /\ (resolverNamedAndTyped env ->
        forall schema, r = Ok (Some schema) ->
                       Forall namedAndTyped (Schema.parameters schema))
    /\ (fst (findNodeDescription sourceFile filePath []) = None ->
        r = Ok None)
    /\ forall db,
        extractNodeSchemaAST env sourceFile filePath db
        = (r, match r with
              | Ok (Some schema) =>
                  addParameters (List.length (Schema.parameters schema)) db
              | _ => db
              end).
Proof.
  destruct (findNodeDescription sourceFile filePath [])
    as [[description|] notes] eqn:Ef.
  - destruct (resolveImportedProperties env sourceFile filePath)
      as [imported|message] eqn:Er.
    + remember (assembleProperties sourceFile imported notes) as R eqn:ER.
      exists (Ok (Some (schemaOf description (fst R)
                          (determineExtractionQuality (fst R)) (snd R)))).
      split; [discriminate|]. split; [|split].
      * intros Hres schema Hs. injection Hs as <-.
        unfold schemaOf. cbn [Schema.parameters]. subst R.
        apply assembleProperties_namedAndTyped. exact (Hres _ _ _ Er).
      * simpl. discriminate.
      * intros db. rewrite extractNodeSchemaAST_eq, Ef, Er, <- ER.
        reflexivity.
    + exists (Throw message). split; [discriminate|].
      split; [discriminate|]. split; [simpl; discriminate|].
      intros db. rewrite extractNodeSchemaAST_eq, Ef, Er. reflexivity.
  - exists (Ok None). split; [discriminate|].
    split; [discriminate|]. split; [reflexivity|].
    intros db. rewrite extractNodeSchemaAST_eq, Ef. reflexivity.
Qed.

(** One step of [parseNodeFile]. *)
Lemma parseNodeFile_step (fuel : nat) (env : Environment)
      (filePath : string) (db : Database.t) :
  parseNodeFile (S fuel) env filePath db
  = match readSourceFile env filePath with
    | Throws message =>
        (Ok None, pushIssue (processingIssue filePath message) db)
    | Returns sourceFile =>
        let wrapperInfo := detectVersionedNodeWrapper sourceFile in
        match redirection env filePath wrapperInfo with
        | Some implementationFile =>
            match parseNodeFile fuel env implementationFile db with
            | (Throw message, db') =>
                (Ok None, pushIssue (processingIssue filePath message) db')
            | r => r
            end
        | None =>
            match extractNodeSchemaAST env sourceFile filePath db with
            | (Ok (Some schema), db') =>
                (Ok (Some (if isWrapper wrapperInfo
                           then pushNote (wrapperMark wrapperInfo) schema
                           else schema)), db')
            | (Ok None, db') => (Ok None, db')
            | (Throw message, db') =>
                (Ok None, pushIssue (processingIssue filePath message) db')
            | (OutOfFuel, db') => (OutOfFuel, db')
            end
        end
    end.
Proof.
  cbn [parseNodeFile].
  unfold tryCatch, bind, attempt, modify, ret, processingIssue.
  destruct (readSourceFile env filePath) as [sourceFile|message];
    [|reflexivity].
  cbv zeta.
  destruct (redirection env filePath (detectVersionedNodeWrapper sourceFile)).
  - destruct (parseNodeFile fuel env s db) as [[r|m|] db']; reflexivity.
  - destruct (extractNodeSchemaAST env sourceFile filePath db)
      as [[[schema|]|m|] db']; try reflexivity.
    destruct (isWrapper (detectVersionedNodeWrapper sourceFile));
      reflexivity.
Qed.

(** [parseNodeFile] catches what is thrown; what it returns does not
    depend on the database; a returned schema has added its parameter
    count to the total, and nothing else of the counters and nodes has
    changed. *)
Lemma parseNodeFile_run (fuel : nat) (env : Environment)
      (filePath : string) :
  exists r,
    (forall message, r <> Throw message)
    /\ (resolverNamedAndTyped env ->
        forall schema, r = Ok (Some schema) ->
                       Forall namedAndTyped (Schema.parameters schema))
    /\ forall db,
        fst (parseNodeFile fuel env filePath db) = r
        /\ Extends (schemaCount r) db
                   (snd (parseNodeFile fuel env filePath db)).
Proof.
  revert filePath. induction fuel as [|fuel IH]; intros filePath.
  - exists OutOfFuel. split; [discriminate|]. split; [discriminate|].
    intros db. split; [reflexivity|apply Extends_refl].
  - destruct (readSourceFile env filePath) as [sourceFile|message] eqn:Er.
    + destruct (redirection env filePath
                  (detectVersionedNodeWrapper sourceFile))
        as [implementationFile|] eqn:Ed.
      * destruct (IH implementationFile) as (r & Hnt & Hgood & Hrun).
        exists r. split; [exact Hnt|]. split; [exact Hgood|].
        intros db. rewrite parseNodeFile_step, Er. cbv zeta. rewrite Ed.
        destruct (Hrun db) as [Hv He].
        destruct (parseNodeFile fuel env implementationFile db)
          as [[v|m|] db']; simpl in *; subst r;
          try (split; [reflexivity|exact He]).
        exfalso. eapply Hnt. reflexivity.
      * destruct (extractNodeSchemaAST_run env sourceFile filePath)
          as (r0 & Hfuel & Hgood & _ & Hrun).
        destruct r0 as [[schema|]|m|].
        -- exists (Ok (Some (if isWrapper
                                   (detectVersionedNodeWrapper sourceFile)
                             then pushNote
                                    (wrapperMark
                                       (detectVersionedNodeWrapper sourceFile))
                                    schema
                             else schema))).
           split; [discriminate|]. split.
           ++ intros Hres s Hs. injection Hs as <-.
              specialize (Hgood Hres schema eq_refl).
              destruct (isWrapper _); exact Hgood.
           ++ intros db. rewrite parseNodeFile_step, Er. cbv zeta.
              rewrite Ed, Hrun. simpl. split; [reflexivity|].
              destruct (isWrapper _); apply Extends_addParameters.
        -- exists (Ok None). split; [discriminate|].
           split; [discriminate|].
           intros db. rewrite parseNodeFile_step, Er. cbv zeta.
           rewrite Ed, Hrun. simpl. split; [reflexivity|apply Extends_refl].
        -- exists (Ok None). split; [discriminate|].
           split; [discriminate|].
           intros db. rewrite parseNodeFile_step, Er. cbv zeta.
           rewrite Ed, Hrun. simpl.
           split; [reflexivity|apply Extends_pushIssue].
        -- congruence.
    + exists (Ok None). split; [discriminate|]. split; [discriminate|].
      intros db. rewrite parseNodeFile_step, Er. simpl.
      split; [reflexivity|apply Extends_pushIssue].
Qed.

Lemma parsedSchema_run (fuel : nat) (env : Environment)
      (filePath : string) (db : Database.t) :
  fst (parseNodeFile fuel env filePath db) = parsedSchema fuel env filePath
  /\ Extends (schemaCount (parsedSchema fuel env filePath)) db
             (snd (parseNodeFile fuel env filePath db)).
Proof.
  destruct (parseNodeFile_run fuel env filePath) as (r & _ & _ & Hrun).
  unfold parsedSchema, valueOf.
  rewrite (proj1 (Hrun (Database.initial ""))).
  apply Hrun.
Qed.

Lemma parsedSchema_not_thrown (fuel : nat) (env : Environment)
      (filePath message : string) :
  parsedSchema fuel env filePath <> Throw message.
Proof.
  destruct (parseNodeFile_run fuel env filePath) as (r & Hnt & _ & Hrun).
  unfold parsedSchema, valueOf.
  rewrite (proj1 (Hrun (Database.initial ""))). apply Hnt.
Qed.

Lemma parsedSchema_namedAndTyped (fuel : nat) (env : Environment)
      (filePath : string) (schema : Schema.t) :
  resolverNamedAndTyped env ->
  parsedSchema fuel env filePath = Ok (Some schema) ->
  Forall namedAndTyped (Schema.parameters schema).
Proof.
  destruct (parseNodeFile_run fuel env filePath) as (r & _ & Hgood & Hrun).
  unfold parsedSchema, valueOf.
  rewrite (proj1 (Hrun (Database.initial ""))).
  intros Hres Hr. exact (Hgood Hres schema Hr).
Qed.

End ParseEffects.

Section EmittedParametersClaim.




End EmittedParametersClaim.

(* ------------------------------------------------------------------ *)
(** ** Objects as ordered maps *)
(* ------------------------------------------------------------------ *)

Section ObjectLemmas.
Variable A : Type.
Implicit Types (o : Js.Obj A) (k : string) (v : A).



Lemma get_none_iff o k : Js.get k o = None <-> ~ In k (Js.keys o).
Proof.
  induction o as [|[k' v'] o IH]; simpl.
  - split; [intros _ []|reflexivity].
  - destruct (String.eqb k k') eqn:E.
    + apply String.eqb_eq in E. subst k'.
      split; [discriminate|]. intros H. exfalso. apply H. left. reflexivity.
    + apply String.eqb_neq in E. rewrite IH.
      split; intros H; [intros [H'|H']; [congruence|contradiction]|].
      intros H'. apply H. right. exact H'.
Qed.

Lemma set_fresh o k v : ~ In k (Js.keys o) -> Js.set k v o = o ++ [(k, v)].
Proof.
  induction o as [|[k' v'] o IH]; simpl; intros H; [reflexivity|].
  destruct (String.eqb k k') eqn:E.
  - apply String.eqb_eq in E. subst k'. exfalso. apply H. left. reflexivity.
  - rewrite IH; [reflexivity|]. intros H'. apply H. right. exact H'.
Qed.

Lemma set_keys o k v :
  Js.keys (Js.set k v o)
  = if in_dec string_dec k (Js.keys o) then Js.keys o else Js.keys o ++ [k].
Proof.
  induction o as [|[k' v'] o IH]; simpl; [reflexivity|].
  destruct (String.eqb k k') eqn:E.
  - apply String.eqb_eq in E. subst k'. simpl.
    destruct (string_dec k k) as [He|Hn]; [reflexivity|congruence].
  - apply String.eqb_neq in E. simpl. rewrite IH.
    destruct (string_dec k' k) as [He|Hn]; [congruence|].
    destruct (in_dec string_dec k (Js.keys o)); reflexivity.
Qed.

Lemma set_keys_NoDup o k v :
  NoDup (Js.keys o) -> NoDup (Js.keys (Js.set k v o)).
Proof.
  intros H. rewrite set_keys.
  destruct (in_dec string_dec k (Js.keys o)) as [Hin|Hnin]; [exact H|].
  apply NoDup_app; [exact H|repeat constructor; intros []|].
  intros x Hx [Hk|[]]. subst x. contradiction.
Qed.

Lemma get_in o k v : NoDup (Js.keys o) -> (Js.get k o = Some v <-> In (k, v) o).
Proof.
  induction o as [|[k' v'] o IH]; simpl; intros Hnd.
  - split; [discriminate|intros []].
  - inversion Hnd as [|? ? Hnin Hnd']; subst.
    destruct (String.eqb k k') eqn:E.
    + apply String.eqb_eq in E. subst k'. split.
      * intros H. injection H as <-. left. reflexivity.
      * intros [H|H]; [congruence|].
        exfalso. apply Hnin. change k with (fst (k, v)).
        apply in_map, H.
    + apply String.eqb_neq in E. rewrite (IH Hnd').
      split; [intros H; right; exact H|].
      intros [H|H]; [congruence|exact H].
Qed.

Lemma fromEntries_from (es : list (string * A)) o :
  NoDup (Js.keys o ++ map fst es) ->
  fold_left (fun o e => Js.set (fst e) (snd e) o) es o = o ++ es.
Proof.
  revert o. induction es as [|[k v] es IH]; intros o Hnd; simpl.
  - rewrite app_nil_r. reflexivity.
  - simpl in Hnd.
    assert (Hk : ~ In k (Js.keys o)).
    { apply NoDup_remove_2 in Hnd. intros H. apply Hnd.
      apply in_or_app. left. exact H. }
    rewrite (@set_fresh o k v Hk), IH.
    + rewrite <- app_assoc. reflexivity.
    + unfold Js.keys. rewrite map_app. simpl. rewrite <- app_assoc.
      exact Hnd.
Qed.

Lemma fromEntries_NoDup (es : list (string * A)) :
  NoDup (map fst es) -> Js.fromEntries es = es.
Proof. intros H. unfold Js.fromEntries. apply fromEntries_from, H. Qed.

Lemma filter_keys_NoDup (f : string * A -> bool) o :
  NoDup (Js.keys o) -> NoDup (Js.keys (filter f o)).
Proof.
  induction o as [|e o IH]; simpl; intros H; [exact H|].
  inversion H as [|? ? Hnin Hnd]; subst.
  destruct (f e); simpl; [|exact (IH Hnd)].
  constructor; [|exact (IH Hnd)].
  intros Hin. apply Hnin. unfold Js.keys in *.
  apply in_map_iff in Hin. destruct Hin as (x & Hx & Hf).
  apply filter_In in Hf. apply in_map_iff. exists x. tauto.
Qed.

End ObjectLemmas.

(* ------------------------------------------------------------------ *)
(** ** The statistics and the two documents *)
(* ------------------------------------------------------------------ *)

Section Documents.
Local Open Scope nat_scope.


Lemma generateStats_keeps (db : Database.t) :
  Database.nodeCount (generateStats db) = Database.nodeCount db
  /\ Database.nodes (generateStats db) = Database.nodes db
  /\ Stats.totalParametersExtracted
       (Database.extractionStats (generateStats db))
     = Stats.totalParametersExtracted (Database.extractionStats db).
Proof. repeat split. Qed.

Lemma ragOptimized_nodes (db : Database.t) :
  NoDup (Js.keys (Database.nodes db)) ->
  Database.nodes (ragOptimized db)
  = filter isHighOrMedium (Database.nodes db).
Proof.
  intros H. unfold ragOptimized. cbn [Database.nodes].
  apply fromEntries_NoDup. apply filter_keys_NoDup, H.
Qed.

(** C9.  The second document of [saveResults] holds exactly the node
    entries of the first whose quality is high or medium, its
    [nodeCount] is the number of its entries, and its other fields are
    those of the first document. *)
Theorem filtered_document_is_a_projection
        (env : Environment) (db : Database.t) :
  ignoredDirExists env = true ->
  NoDup (Js.keys (Database.nodes db)) ->
  exists full filtered,
    fst (saveResults env db) = Ok (full, filtered)
    /\ full = db
    /\ (forall key schema,
           In (key, schema) (Js.entries (Database.nodes filtered))
           <-> In (key, schema) (Js.entries (Database.nodes full))
               /\ (Schema.extractionQuality schema = high
                   \/ Schema.extractionQuality schema = medium))
    /\ (forall key schema,
           Js.get key (Database.nodes filtered) = Some schema ->
           Js.get key (Database.nodes full) = Some schema)
    /\ Database.nodeCount filtered
       = List.length (Js.keys (Database.nodes filtered))
    /\ Database.generatedAt filtered = Database.generatedAt full
    /\ Database.extractionStats filtered = Database.extractionStats full
    /\ Database.knownIssues filtered = Database.knownIssues full.
Proof.
  intros Hdir Hnd. exists db, (ragOptimized db).
  unfold saveResults. rewrite Hdir. cbn [fst].
  split; [reflexivity|]. split; [reflexivity|].
  assert (Hin : forall key schema,
             In (key, schema) (Database.nodes (ragOptimized db))
             <-> In (key, schema) (Database.nodes db)
                 /\ (Schema.extractionQuality schema = high
                     \/ Schema.extractionQuality schema = medium)).
  { intros key schema. rewrite (@ragOptimized_nodes db Hnd), filter_In.
    unfold isHighOrMedium. cbn [snd].
    destruct (Schema.extractionQuality schema);
      intuition (auto; discriminate). }
  split; [exact Hin|]. split.
  - intros key schema H.
    assert (Hnd' : NoDup (Js.keys (Database.nodes (ragOptimized db)))).
    { rewrite (@ragOptimized_nodes db Hnd). apply filter_keys_NoDup, Hnd. }
    apply (@get_in _ _ key schema Hnd') in H. apply Hin in H.
    apply (@get_in _ _ key schema Hnd). apply H.
  - repeat split.
Qed.

Lemma filtered_document_is_a_projection_witness :
  exists full filtered,
    fst (saveResults Sample.env (snd Sample.run)) = Ok (full, filtered)
    /\ full = snd Sample.run
    /\ (forall key schema,
           In (key, schema) (Js.entries (Database.nodes filtered))
           <-> In (key, schema) (Js.entries (Database.nodes full))
               /\ (Schema.extractionQuality schema = high
                   \/ Schema.extractionQuality schema = medium))
    /\ (forall key schema,
           Js.get key (Database.nodes filtered) = Some schema ->
           Js.get key (Database.nodes full) = Some schema)
    /\ Database.nodeCount filtered
       = List.length (Js.keys (Database.nodes filtered))
    /\ Database.generatedAt filtered = Database.generatedAt full
    /\ Database.extractionStats filtered = Database.extractionStats full
    /\ Database.knownIssues filtered = Database.knownIssues full.
Proof.
  apply filtered_document_is_a_projection.
  - reflexivity.
  - vm_compute.
    repeat (constructor;
            [simpl; intuition discriminate|]).
    constructor.
Defined.

(** The second document of the sample run: [bar], of low quality, is
    left out, and two nodes are counted. *)
Example ragOptimized_sample :
  Js.keys (Database.nodes (snd Sample.run)) = ["foo"; "bar"; "postgres"]
  /\ Js.keys (Database.nodes (ragOptimized (snd Sample.run)))
     = ["foo"; "postgres"]
  /\ Database.nodeCount (ragOptimized (snd Sample.run)) = 2.
Proof. repeat split; vm_compute; reflexivity. Qed.

End Documents.

(* ------------------------------------------------------------------ *)
(** ** What a version group does to the database *)
(* ------------------------------------------------------------------ *)

Section GroupEffects.
Local Open Scope nat_scope.

Variable fuel : nat.
Variable env : Environment.

Lemma candidatesOf_cons (file : string) (files : list string) :
  candidatesOf fuel env (file :: files)
  = match parsedSchema fuel env file with
    | Ok (Some schema) =>
        [Candidate.mk schema file (calculateVersionPriority file schema)]
    | _ => []
    end ++ candidatesOf fuel env files.
Proof. reflexivity. Qed.

(** The loop over the files of a group: it runs out of fuel, or it
    returns the candidates and has added their parameter counts. *)
Lemma collectVersions_run (files : list string) :
  forall versions db,
    let r := collectVersions fuel env files versions db in
    (fst r = OutOfFuel
     \/ fst r = Ok (versions ++ candidatesOf fuel env files)
        /\ Extends (sumCounts fuel env files) db (snd r)).
Proof.
  induction files as [|file files IH]; intros versions db; cbv zeta.
  - right. simpl. rewrite app_nil_r. split; [reflexivity|].
    apply Extends_refl.
  - cbn [collectVersions]. unfold bind.
    destruct (parsedSchema_run fuel env file db) as [Hv He].
    pose proof (@parsedSchema_not_thrown fuel env file) as Hnt.
    rewrite candidatesOf_cons. unfold sumCounts. cbn [map list_sum].
    fold (sumCounts fuel env files).
    destruct (parseNodeFile fuel env file db) as [r db1].
    cbn [fst snd] in Hv, He. rewrite <- Hv in *.
    destruct r as [[schema|]|message|].
    + specialize (IH (versions
                        ++ [Candidate.mk schema file
                              (calculateVersionPriority file schema)]) db1).
      cbv zeta in IH. destruct IH as [IH|[IH1 IH2]]; [left; exact IH|].
      right. split.
      * rewrite IH1, <- app_assoc. reflexivity.
      * eapply Extends_trans; eassumption.
    + specialize (IH versions db1).
      cbv zeta in IH. destruct IH as [IH|[IH1 IH2]]; [left; exact IH|].
      right. split; [exact IH1|].
      eapply Extends_trans; eassumption.
    + exfalso. eapply Hnt. reflexivity.
    + left. reflexivity.
Qed.

Lemma Extends_total (n : nat) (db db' : Database.t) :
  Extends n db db' ->
  Stats.totalParametersExtracted (Database.extractionStats db')
  = Stats.totalParametersExtracted (Database.extractionStats db) + n
  /\ Database.nodes db' = Database.nodes db
  /\ Database.nodeCount db' = Database.nodeCount db.
Proof. unfold Extends. tauto. Qed.

(** [processNodeGroupAST] runs out of fuel, or it returns and has made
    the step of its group. *)
Lemma processNodeGroupAST_run (baseName : string) (files : list string)
      (db : Database.t) :
  let r := processNodeGroupAST fuel env baseName files db in
  fst r = OutOfFuel
  \/ fst r = Ok tt
     /\ GroupStep (sumCounts fuel env files)
                  (winnerOf fuel env baseName files) db (snd r).
Proof.
  cbv zeta.
  assert (Hmulti :
            forall files',
              let r := bind (collectVersions fuel env files' [])
                         (fun versions =>
                            match selectBestVersion versions with
                            | Some bestVersion =>
                                let schema :=
                                  pushNote
                                    (selectionNote (List.length versions)
                                       (Candidate.filePath bestVersion))
                                    (Candidate.schema bestVersion) in
                                bind (modify (storeNode baseName schema))
                                     (fun _ =>
                                        modify (updateQualityStats schema))
                            | None => ret tt
                            end) db in
              fst r = OutOfFuel
              \/ fst r = Ok tt
                 /\ GroupStep (sumCounts fuel env files')
                      (match selectBestVersion (candidatesOf fuel env files')
                       with
                       | Some bestVersion =>
                           Some (baseName,
                                 pushNote
                                   (selectionNote
                                      (List.length
                                         (candidatesOf fuel env files'))
                                      (Candidate.filePath bestVersion))
                                   (Candidate.schema bestVersion))
                       | None => None
                       end) db (snd r)).
  { intros files'. cbv zeta. unfold bind.
    destruct (collectVersions_run files' [] db) as [H|[H1 H2]];
      destruct (collectVersions fuel env files' [] db) as [r db1];
      cbn [fst snd] in *; subst r; [left; reflexivity|].
    right. cbn [app].
    apply Extends_total in H2. destruct H2 as (Ht & Hn & Hc).
    destruct (selectBestVersion (candidatesOf fuel env files'))
      as [best|]; simpl.
    - split; [reflexivity|]. unfold GroupStep. simpl.
      destruct (Schema.extractionQuality (Candidate.schema best)); simpl;
        rewrite Ht, Hn, Hc; repeat split.
    - split; [reflexivity|]. unfold GroupStep. rewrite Ht, Hn, Hc.
      repeat split. }
  destruct files as [|file [|file' files]].
  - apply (Hmulti []).
  - unfold processNodeGroupAST, processNodeFileAST, bind.
    destruct (parsedSchema_run fuel env file db) as [Hv He].
    pose proof (@parsedSchema_not_thrown fuel env file) as Hnt.
    assert (Hs : sumCounts fuel env [file]
                 = schemaCount (parsedSchema fuel env file)).
    { unfold sumCounts. simpl. lia. }
    rewrite Hs. clear Hs. unfold winnerOf.
    destruct (parseNodeFile fuel env file db) as [r db1].
    cbn [fst snd] in Hv, He. rewrite <- Hv in *.
    apply Extends_total in He. destruct He as (Ht & Hn & Hc).
    destruct r as [[schema|]|message|]; simpl.
    + right. split; [reflexivity|]. unfold GroupStep. simpl in *.
      destruct (Schema.extractionQuality schema); simpl;
        rewrite Ht, Hn, Hc; repeat split.
    + right. split; [reflexivity|]. unfold GroupStep.
      simpl in Ht. rewrite Ht, Hn, Hc. repeat split.
    + exfalso. eapply Hnt. reflexivity.
    + left. reflexivity.
  - apply (Hmulti (file :: file' :: files)).
Qed.

(** The loop over the groups. *)
Lemma processGroups_run (groups : list (string * list string)) :
  forall db,
    let r := processGroups fuel env groups db in
    fst r = OutOfFuel
    \/ fst r = Ok tt
       /\ Stats.totalParametersExtracted (Database.extractionStats (snd r))
          = Stats.totalParametersExtracted (Database.extractionStats db)
            + sumGroups fuel env groups
       /\ Database.nodes (snd r)
          = storeWinners (winners fuel env groups) (Database.nodes db)
       /\ Database.nodeCount (snd r)
          = Database.nodeCount db + List.length (winners fuel env groups).
Proof.
  induction groups as [|[baseName files] groups IH]; intros db; cbv zeta.
  - right. simpl. unfold sumGroups. simpl. rewrite !Nat.add_0_r.
    repeat split.
  - cbn [processGroups]. unfold bind, tryCatch.
    destruct (processNodeGroupAST_run baseName files db) as [H|[H1 H2]];
      destruct (processNodeGroupAST fuel env baseName files db)
      as [r db1]; cbn [fst snd] in *; subst r; [left; reflexivity|].
    specialize (IH db1). cbv zeta in IH.
    destruct IH as [IH|(IH1 & IH2 & IH3 & IH4)]; [left; exact IH|].
    right. split; [exact IH1|].
    destruct H2 as (Ht & Hw).
    unfold sumGroups, winners in *. cbn [map list_sum flat_map fst snd].
    destruct (winnerOf fuel env baseName files) as [[key schema]|];
      destruct Hw as [Hn Hc]; rewrite IH2, IH3, IH4, Ht, Hn, Hc;
      cbn [app List.length storeWinners fold_left fst snd];
      repeat split; try lia.
    all: try reflexivity.
    all: change (list_sum (?a :: ?l)) with (a + list_sum l); lia.
Qed.

End GroupEffects.

(* ------------------------------------------------------------------ *)
(** ** The grouping of the files *)
(* ------------------------------------------------------------------ *)

Section Grouping.

Lemma in_set (A : Type) (o : Js.Obj A) (k : string) (v : A)
      (e : string * A) :
  In e (Js.set k v o) -> e = (k, v) \/ In e o.
Proof.
  induction o as [|[k' v'] o IH]; simpl.
  - intros [H|[]]. left. symmetry. exact H.
  - destruct (String.eqb k k'); simpl.
    + intros [H|H]; [left; symmetry; exact H|right; right; exact H].
    + intros [H|H]; [right; left; exact H|].
      destruct (IH H) as [H'|H']; [left; exact H'|right; right; exact H'].
Qed.

Lemma get_some_in (A : Type) (o : Js.Obj A) (k : string) (v : A) :
  Js.get k o = Some v -> In (k, v) o.
Proof.
  induction o as [|[k' v'] o IH]; simpl; [discriminate|].
  destruct (String.eqb k k') eqn:E.
  - apply String.eqb_eq in E. subst k'. intros H. injection H as <-.
    left. reflexivity.
  - intros H. right. apply IH, H.
Qed.

Lemma concat_set_existing (o : Js.Obj (list string)) (k : string)
      (group : list string) (file : string) :
  Js.get k o = Some group ->
  Permutation (List.concat (map snd (Js.set k (group ++ [file]) o)))
              (List.concat (map snd o) ++ [file]).
Proof.
  induction o as [|[k' v'] o IH]; simpl; [discriminate|].
  destruct (String.eqb k k') eqn:E.
  - intros H. injection H as ->. simpl.
    rewrite <- !app_assoc. apply Permutation_app_head.
    apply Permutation_app_comm.
  - intros H. simpl. rewrite <- app_assoc.
    apply Permutation_app_head, IH, H.
Qed.

Lemma grouping_step (groups : Js.Obj (list string)) (seen : list string)
      (file : string) :
  Grouped groups seen ->
  Grouped
    (let baseName := extractBaseNodeName file in
     match Js.get baseName groups with
     | None => Js.set baseName [file] groups
     | Some group => Js.set baseName (group ++ [file]) groups
     end)
    (seen ++ [file]).
Proof.
  intros (Hnd & Hname & Hperm). cbv zeta.
  destruct (Js.get (extractBaseNodeName file) groups) as [group|] eqn:E.
  - split; [apply set_keys_NoDup, Hnd|]. split.
    + intros baseName files f Hin Hf.
      apply in_set in Hin. destruct Hin as [Hin|Hin].
      * injection Hin as -> ->. apply in_app_or in Hf.
        destruct Hf as [Hf|[<-|[]]]; [|reflexivity].
        eapply Hname; [|exact Hf]. apply get_some_in, E.
      * eapply Hname; eassumption.
    + eapply Permutation_trans; [apply concat_set_existing, E|].
      apply Permutation_app_tail, Hperm.
  - apply get_none_iff in E.
    rewrite (@set_fresh _ groups (extractBaseNodeName file) [file] E).
    split; [|split].
    + unfold Js.keys. rewrite map_app. simpl.
      apply NoDup_app; [exact Hnd|repeat constructor; intros []|].
      intros x Hx [Hk|[]]. subst x. contradiction.
    + intros baseName files f Hin Hf.
      apply in_app_or in Hin. destruct Hin as [Hin|[Hin|[]]].
      * eapply Hname; eassumption.
      * injection Hin as <- <-. destruct Hf as [<-|[]]. reflexivity.
    + rewrite map_app, List.concat_app. simpl.
      apply Permutation_app_tail, Hperm.
Qed.

Lemma groupNodeFilesByBaseName_grouped (files : list string) :
  Grouped (groupNodeFilesByBaseName files) files.
Proof.
  unfold groupNodeFilesByBaseName.
  assert (H : forall files groups seen,
             Grouped groups seen ->
             Grouped
               (fold_left
                  (fun groups file =>
                     let baseName := extractBaseNodeName file in
                     match Js.get baseName groups with
                     | None => Js.set baseName [file] groups
                     | Some group => Js.set baseName (group ++ [file]) groups
                     end) files groups)
               (seen ++ files)).
  { clear files. induction files as [|file files IH]; intros groups seen Hg.
    - rewrite app_nil_r. exact Hg.
    - simpl fold_left.
      replace (seen ++ file :: files) with ((seen ++ [file]) ++ files)
        by (rewrite <- app_assoc; reflexivity).
      apply IH, grouping_step, Hg. }
  apply (H files [] []).
  split; [constructor|]. split; [intros ? ? ? []|]. constructor.
Qed.

End Grouping.

(* ------------------------------------------------------------------ *)
(** ** Winners, losers and the parameter total *)
(* ------------------------------------------------------------------ *)

Section Winners.
Local Open Scope nat_scope.

Variable fuel : nat.
Variable env : Environment.

Lemma sort_insert_Permutation (A : Type) (compare : A -> A -> Z) (x : A)
      (l : list A) :
  Permutation (sort_insert compare x l) (x :: l).
Proof.
  induction l as [|y l IH]; simpl; [reflexivity|].
  destruct (compare x y <=? 0)%Z; [reflexivity|].
  eapply Permutation_trans; [apply perm_skip, IH|apply perm_swap].
Qed.

Lemma sort_Permutation (A : Type) (compare : A -> A -> Z) (l : list A) :
  Permutation (sort compare l) l.
Proof.
  induction l as [|x l IH]; simpl; [reflexivity|].
  eapply Permutation_trans; [apply sort_insert_Permutation|].
  apply perm_skip, IH.
Qed.

Lemma list_sum_Permutation (l l' : list nat) :
  Permutation l l' -> list_sum l = list_sum l'.
Proof.
  induction 1; simpl; lia.
Qed.

(** The parameters the parses of a group add are those of its
    candidates. *)
Lemma sumCounts_candidates (files : list string) :
  sumCounts fuel env files
  = list_sum (map candidateParameters (candidatesOf fuel env files)).
Proof.
  unfold sumCounts. induction files as [|file files IH]; [reflexivity|].
  rewrite candidatesOf_cons, map_app, list_sum_app. cbn [map].
  change (list_sum (?a :: ?l)) with (a + list_sum l). rewrite IH.
  f_equal.
  destruct (parsedSchema fuel env file) as [[schema|]|m|]; simpl;
    unfold candidateParameters; simpl; lia.
Qed.

Lemma sumCounts_app (a b : list string) :
  sumCounts fuel env (a ++ b) = sumCounts fuel env a + sumCounts fuel env b.
Proof. unfold sumCounts. rewrite map_app, list_sum_app. reflexivity. Qed.

Lemma sumGroups_concat (groups : list (string * list string)) :
  sumGroups fuel env groups
  = sumCounts fuel env (List.concat (map snd groups)).
Proof.
  unfold sumGroups. induction groups as [|[b files] groups IH];
    [reflexivity|].
  cbn [map List.concat snd]. rewrite sumCounts_app, <- IH. reflexivity.
Qed.

Lemma sumCounts_Permutation (a b : list string) :
  Permutation a b -> sumCounts fuel env a = sumCounts fuel env b.
Proof.
  intros H. unfold sumCounts. apply list_sum_Permutation.
  apply Permutation_map, H.
Qed.

Local Abbreviation winnerParameters := (winnerParametersOf fuel env).

Lemma parametersOfNodes_winners (groups : list (string * list string)) :
  parametersOfNodes (winners fuel env groups)
  = list_sum (map winnerParameters groups).
Proof.
  unfold parametersOfNodes, winners.
  induction groups as [|group groups IH]; [reflexivity|].
  cbn [flat_map map]. rewrite map_app, list_sum_app, IH.
  change (list_sum (?a :: ?l)) with (a + list_sum l). f_equal.
  unfold winnerParametersOf.
  destruct (winnerOf fuel env (fst group) (snd group)); simpl; lia.
Qed.

Lemma selectBestVersion_sorted (versions : list Candidate.t)
      (best : Candidate.t) :
  selectBestVersion versions = Some best ->
  Permutation (best :: tl (sort (fun a b => (Candidate.priority b
                                             - Candidate.priority a)%Z)
                                versions))
              versions.
Proof.
  unfold selectBestVersion. intros H.
  pose proof (sort_Permutation
                (fun a b => (Candidate.priority b - Candidate.priority a)%Z)
                versions) as Hp.
  destruct (sort _ versions) as [|c rest]; [discriminate|].
  simpl in H. injection H as ->. exact Hp.
Qed.

(** The winner of a group has no more parameters than the parses of
    the group added, and fewer when a loser has a parameter. *)
Lemma winnerParameters_le (baseName : string) (files : list string) :
  winnerParameters (baseName, files) <= sumCounts fuel env files
  /\ forall loser,
      In loser (losersOf fuel env files) ->
      winnerParameters (baseName, files) + candidateParameters loser
      <= sumCounts fuel env files.
Proof.
  unfold winnerParametersOf, losersOf. cbn [fst snd].
  rewrite sumCounts_candidates.
  assert (Hmulti :
            match selectBestVersion (candidatesOf fuel env files) with
            | Some best => candidateParameters best
            | None => 0
            end
            <= list_sum (map candidateParameters (candidatesOf fuel env files))
            /\ forall loser,
                In loser
                   (tl (sort (fun a b => (Candidate.priority b
                                          - Candidate.priority a)%Z)
                             (candidatesOf fuel env files))) ->
                match selectBestVersion (candidatesOf fuel env files) with
                | Some best => candidateParameters best
                | None => 0
                end + candidateParameters loser
                <= list_sum (map candidateParameters
                                 (candidatesOf fuel env files))).
  { destruct (selectBestVersion (candidatesOf fuel env files))
      as [best|] eqn:Es.
    - pose proof (selectBestVersion_sorted _ Es) as Hp.
      rewrite <- (list_sum_Permutation (Permutation_map _ Hp)).
      cbn [map]. change (list_sum (?a :: ?l)) with (a + list_sum l).
      split; [lia|]. intros loser Hl.
      apply in_split in Hl. destruct Hl as (l1 & l2 & ->).
      rewrite map_app, list_sum_app. cbn [map].
      change (list_sum (?a :: ?l)) with (a + list_sum l). lia.
    - split; [lia|]. intros loser Hl. exfalso.
      unfold selectBestVersion in Es.
      destruct (sort _ (candidatesOf fuel env files)); [destruct Hl|].
      discriminate. }
  destruct files as [|file [|file' files]].
  - exact Hmulti.
  - unfold winnerOf. split.
    + unfold candidatesOf. cbn [flat_map].
      destruct (parsedSchema fuel env file) as [[schema|]|m|]; simpl;
        unfold candidateParameters; simpl; lia.
    + intros loser Hl. exfalso. revert Hl.
      unfold candidatesOf. cbn [flat_map].
      destruct (parsedSchema fuel env file) as [[schema|]|m|]; simpl;
        intros [].
  - unfold winnerOf.
    destruct (selectBestVersion
                (candidatesOf fuel env (file :: file' :: files)));
      exact Hmulti.
Qed.

Lemma list_sum_le (A : Type) (f g : A -> nat) (l : list A) :
  (forall x, In x l -> f x <= g x) ->
  list_sum (map f l) <= list_sum (map g l).
Proof.
  induction l as [|x l IH]; intros H; simpl; [lia|].
  pose proof (H x (or_introl eq_refl)).
  assert (list_sum (map f l) <= list_sum (map g l)).
  { apply IH. intros y Hy. apply H. right. exact Hy. }
  lia.
Qed.

Lemma list_sum_lt (A : Type) (f g : A -> nat) (l : list A) (x : A) :
  (forall y, In y l -> f y <= g y) ->
  In x l -> f x < g x ->
  list_sum (map f l) < list_sum (map g l).
Proof.
  intros Hle Hin Hlt. apply in_split in Hin.
  destruct Hin as (l1 & l2 & ->).
  rewrite !map_app, !list_sum_app. cbn [map].
  change (list_sum (?a :: ?l)) with (a + list_sum l).
  assert (list_sum (map f l1) <= list_sum (map g l1)).
  { apply list_sum_le. intros y Hy. apply Hle, in_or_app. left. exact Hy. }
  assert (list_sum (map f l2) <= list_sum (map g l2)).
  { apply list_sum_le. intros y Hy. apply Hle, in_or_app.
    right. right. exact Hy. }
  lia.
Qed.

Lemma winnerOf_key (baseName : string) (files : list string)
      (key : string) (schema : Schema.t) :
  (forall file, In file files -> extractBaseNodeName file = baseName) ->
  winnerOf fuel env baseName files = Some (key, schema) ->
  key = baseName.
Proof.
  intros Hname. unfold winnerOf.
  destruct files as [|file [|file' files]].
  - destruct (selectBestVersion _); [|discriminate].
    intros H. injection H as <- _. reflexivity.
  - destruct (parsedSchema fuel env file) as [[s|]|m|]; try discriminate.
    intros H. injection H as <- _. apply Hname. left. reflexivity.
  - destruct (selectBestVersion _); [|discriminate].
    intros H. injection H as <- _. reflexivity.
Qed.


Lemma in_winners (groups : list (string * list string))
      (winner : string * Schema.t) :
  In winner (winners fuel env groups) ->
  exists baseName files,
    In (baseName, files) groups
    /\ winnerOf fuel env baseName files = Some winner.
Proof.
  unfold winners. intros H. apply in_flat_map in H.
  destruct H as ([baseName files] & Hg & Hw). cbn [fst snd] in Hw.
  exists baseName, files. split; [exact Hg|].
  destruct (winnerOf fuel env baseName files) as [w|]; [|destruct Hw].
  destruct Hw as [<-|[]]. reflexivity.
Qed.

Lemma winners_keys_NoDup (groups : list (string * list string)) :
  NoDup (map fst groups) ->
  (forall baseName files file,
      In (baseName, files) groups -> In file files ->
      extractBaseNodeName file = baseName) ->
  NoDup (map fst (winners fuel env groups)).
Proof.
  induction groups as [|[baseName files] groups IH]; intros Hnd Hname;
    [constructor|].
  inversion Hnd as [|? ? Hnin Hnd']; subst.
  assert (Hname' : forall b fs f,
             In (b, fs) groups -> In f fs -> extractBaseNodeName f = b).
  { intros b fs f Hin. apply Hname. right. exact Hin. }
  specialize (IH Hnd' Hname').
  unfold winners. cbn [flat_map fst snd]. fold (winners fuel env groups).
  destruct (winnerOf fuel env baseName files) as [[key schema]|] eqn:E;
    [|exact IH].
  cbn [app map fst]. constructor; [|exact IH].
  assert (key = baseName).
  { eapply winnerOf_key; [|exact E].
    intros file. apply (Hname baseName files file). left. reflexivity. }
  subst key. intros Hin. apply Hnin.
  apply in_map_iff in Hin. destruct Hin as ([k s] & Hk & Hw).
  cbn [fst] in Hk. subst k.
  apply in_winners in Hw. destruct Hw as (b & fs & Hg & Hw).
  assert (baseName = b).
  { eapply winnerOf_key; [|exact Hw]. intros f. apply (Hname' b fs f Hg). }
  subst b. apply in_map_iff. exists (baseName, fs).
  split; [reflexivity|exact Hg].
Qed.

(** The run as a whole: when it returns, the total is the sum over all
    the files, and the nodes are the winners of the groups. *)
Lemma extractAllSchemas_run (nodeFiles : list string) (now : string)
      (db' : Database.t) :
  extractAllSchemas fuel env nodeFiles (Database.initial now)
  = (Ok tt, db') ->
  Stats.totalParametersExtracted (Database.extractionStats db')
  = sumCounts fuel env nodeFiles
  /\ Database.nodes db'
     = winners fuel env (groupNodeFilesByBaseName nodeFiles)
  /\ Database.nodeCount db' = List.length (Database.nodes db')
  /\ NoDup (Js.keys (Database.nodes db'))
  /\ Stats.averageParametersPerNode (Database.extractionStats db')
     = if 0 <? Database.nodeCount db'
       then (inject_Z (Z.of_nat (Stats.totalParametersExtracted
                                   (Database.extractionStats db')))
             / inject_Z (Z.of_nat (Database.nodeCount db')))%Q
       else 0%Q.
Proof.
  unfold extractAllSchemas, bind, modify. unfold Js.entries.
  destruct (groupNodeFilesByBaseName_grouped nodeFiles)
    as (Hnd & Hname & Hperm).
  destruct (processGroups_run fuel env (groupNodeFilesByBaseName nodeFiles)
              (Database.initial now)) as [H|(H1 & H2 & H3 & H4)];
    destruct (processGroups fuel env (groupNodeFilesByBaseName nodeFiles)
                (Database.initial now)) as [r db1];
    cbn [fst snd] in *; subst r; [discriminate|].
  intros Hrun. injection Hrun as <-.
  assert (Hw : NoDup (map fst (winners fuel env
                                 (groupNodeFilesByBaseName nodeFiles)))).
  { apply winners_keys_NoDup; assumption. }
  assert (Hnodes : Database.nodes db1
                   = winners fuel env (groupNodeFilesByBaseName nodeFiles)).
  { rewrite H3. apply (fromEntries_NoDup _ Hw). }
  simpl in H2, H4.
  unfold generateStats. cbn [Database.extractionStats Database.nodes
    Database.nodeCount Stats.totalParametersExtracted
    Stats.averageParametersPerNode].
  rewrite Hnodes, H2, H4.
  rewrite sumGroups_concat, (sumCounts_Permutation Hperm).
  repeat split. exact Hw.
Qed.

(** A group with a losing candidate has a winner. *)
Lemma loser_has_winner (baseName : string) (files : list string)
      (loser : Candidate.t) :
  In loser (losersOf fuel env files) ->
  exists winner, winnerOf fuel env baseName files = Some winner.
Proof.
  unfold losersOf, winnerOf.
  destruct files as [|file [|file' files]].
  - intros [].
  - unfold candidatesOf. cbn [flat_map].
    destruct (parsedSchema fuel env file) as [[schema|]|m|]; intros [].
  - unfold selectBestVersion.
    destruct (sort _ (candidatesOf fuel env (file :: file' :: files)));
      [intros []|].
    intros _. eexists. reflexivity.
Qed.

Lemma in_winners_intro (groups : list (string * list string))
      (baseName : string) (files : list string)
      (winner : string * Schema.t) :
  In (baseName, files) groups ->
  winnerOf fuel env baseName files = Some winner ->
  In winner (winners fuel env groups).
Proof.
  intros Hg Hw. unfold winners. apply in_flat_map.
  exists (baseName, files). split; [exact Hg|].
  cbn [fst snd]. rewrite Hw. left. reflexivity.
Qed.

Lemma average_lt (a b n : nat) :
  a < b -> 0 < n ->
  (inject_Z (Z.of_nat a) / inject_Z (Z.of_nat n)
   < inject_Z (Z.of_nat b) / inject_Z (Z.of_nat n))%Q.
Proof.
  intros Hab Hn. unfold Qdiv. apply Qmult_lt_compat_r.
  - apply Qinv_lt_0_compat. change 0%Q with (inject_Z 0).
    rewrite <- Zlt_Qlt. lia.
  - rewrite <- Zlt_Qlt. lia.
Qed.

End Winners.

(* ------------------------------------------------------------------ *)
(** ** The run as a whole *)
(* ------------------------------------------------------------------ *)

Section Run.
Local Open Scope nat_scope.






(** C10.  When the run returns, [totalParametersExtracted] is the sum,
    over every candidate file of the run, of the parameter count of the
    schema the file parsed to (losing candidates included), while the
    nodes, and [nodeCount], are the winners only; so the parameters of
    the winning schemas are at most the total, and when some group has
    a losing candidate with at least one parameter the average per node
    is strictly above the average parameter count of the winning
    schemas. *)
Theorem parameter_total_counts_every_parsed_candidate
        (fuel : nat) (env : Environment) (nodeFiles : list string)
        (now : string) (db' : Database.t) :
  extractAllSchemas fuel env nodeFiles (Database.initial now)
  = (Ok tt, db') ->
  let groups := groupNodeFilesByBaseName nodeFiles in
  let total :=
    Stats.totalParametersExtracted (Database.extractionStats db') in
  total
  = list_sum (map (fun file => schemaCount (parsedSchema fuel env file))
                  nodeFiles)
  /\ Database.nodes db' = winners fuel env groups
  /\ Database.nodeCount db' = List.length (Database.nodes db')
  /\ parametersOfNodes (Database.nodes db') <= total
  /\ ((exists baseName files loser,
          In (baseName, files) groups
          /\ In loser (losersOf fuel env files)
          /\ 1 <= candidateParameters loser) ->
      (inject_Z (Z.of_nat (parametersOfNodes (Database.nodes db')))
       / inject_Z (Z.of_nat (Database.nodeCount db'))
       < Stats.averageParametersPerNode (Database.extractionStats db'))%Q).
Proof.
  intros Hrun. cbv zeta.
  destruct (extractAllSchemas_run _ _ _ _ Hrun)
    as (Ht & Hn & Hc & Hnd & Ha).
  destruct (groupNodeFilesByBaseName_grouped nodeFiles)
    as (Hkeys & Hname & Hperm).
  assert (Hsum : Stats.totalParametersExtracted (Database.extractionStats db')
                 = sumGroups fuel env (groupNodeFilesByBaseName nodeFiles)).
  { rewrite Ht, sumGroups_concat. symmetry.
    apply sumCounts_Permutation, Hperm. }
  assert (Hle : forall group,
             In group (groupNodeFilesByBaseName nodeFiles) ->
             winnerParametersOf fuel env group
             <= sumCounts fuel env (snd group)).
  { intros [b fs] _. apply winnerParameters_le. }
  split; [exact Ht|]. split; [exact Hn|]. split; [exact Hc|]. split.
  - rewrite Hn, parametersOfNodes_winners, Hsum. unfold sumGroups.
    apply list_sum_le, Hle.
  - intros (baseName & files & loser & Hg & Hl & Hp).
    assert (Hlt : parametersOfNodes (Database.nodes db')
                  < Stats.totalParametersExtracted
                      (Database.extractionStats db')).
    { rewrite Hn, parametersOfNodes_winners, Hsum. unfold sumGroups.
      apply list_sum_lt with (x := (baseName, files));
        [exact Hle|exact Hg|].
      pose proof (proj2 (winnerParameters_le fuel env baseName files)
                        loser Hl).
      cbn [snd]. lia. }
    assert (Hpos : 0 < Database.nodeCount db').
    { destruct (loser_has_winner fuel env baseName files loser Hl)
        as (winner & Hw).
      pose proof (in_winners_intro fuel env _ _ _ Hg Hw) as Hin.
      rewrite Hc, Hn.
      destruct (winners fuel env (groupNodeFilesByBaseName nodeFiles));
        [destruct Hin|simpl; lia]. }
    rewrite Ha.
    destruct (Nat.ltb_spec 0 (Database.nodeCount db')) as [_|Hz]; [|lia].
    apply average_lt; assumption.
Qed.

Lemma parameter_total_counts_every_parsed_candidate_witness :
  let db' := snd Sample.run in
  Stats.totalParametersExtracted (Database.extractionStats db') = 10
  /\ Database.nodeCount db' = 3
  /\ parametersOfNodes (Database.nodes db') = 8
  /\ (inject_Z 8 / inject_Z 3
      < Stats.averageParametersPerNode (Database.extractionStats db'))%Q.
Proof.
  intros db'.
  assert (Hrun : extractAllSchemas 2 Sample.env Sample.nodeFiles
                   (Database.initial Sample.now) = (Ok tt, db'))
    by (vm_compute; reflexivity).
  destruct (parameter_total_counts_every_parsed_candidate _ _ _ _ Hrun)
    as (Ht & Hn & Hc & Hle & Hlt).
  split; [vm_compute; reflexivity|].
  split; [vm_compute; reflexivity|].
  split; [vm_compute; reflexivity|].
  assert (H8 : parametersOfNodes (Database.nodes db') = 8)
    by (vm_compute; reflexivity).
  assert (H3 : Database.nodeCount db' = 3) by (vm_compute; reflexivity).
  rewrite H8, H3 in Hlt. apply Hlt.
  exists "postgres", [Sample.postgresPath; Sample.postgresV2Path].
  destruct (losersOf 2 Sample.env
              [Sample.postgresPath; Sample.postgresV2Path])
    as [|loser rest] eqn:E; [vm_compute in E; discriminate|].
  exists loser. split; [vm_compute; tauto|].
  split; [left; reflexivity|].
  vm_compute in E. injection E as <- _. vm_compute. lia.
Defined.




End Run.

(* ------------------------------------------------------------------ *)
(** ** Version suffixes and base names *)
(* ------------------------------------------------------------------ *)

Section BaseNames.
Import JsString.

Lemma chars_str (l : list ascii) : chars (str l) = l.
Proof. apply list_ascii_of_string_of_list_ascii. Qed.

Lemma str_chars (s : string) : str (chars s) = s.
Proof. apply string_of_list_ascii_of_string. Qed.

Lemma chars_append (a b : string) :
  chars (a ++ b)%string = chars a ++ chars b.
Proof. induction a as [|c a IH]; simpl; [reflexivity|]. f_equal. exact IH. Qed.

Lemma is_Vv_not_digit (c : ascii) : is_Vv c = true -> is_digit c = false.
Proof.
  unfold is_Vv. intros H. apply orb_true_iff in H.
  destruct H as [H|H]; apply Ascii.eqb_eq in H; subst c; reflexivity.
Qed.

Lemma version_here_sound (s ds : list ascii) :
  Regex.version_here s = Some ds ->
  exists c, s = c :: ds /\ is_Vv c = true /\ ds <> []
            /\ forallb is_digit ds = true.
Proof.
  unfold Regex.version_here. destruct s as [|c [|d s]]; try discriminate.
  destruct (is_Vv c && forallb is_digit (d :: s)) eqn:E; try discriminate.
  intros H. injection H as <-. apply andb_true_iff in E.
  exists c. repeat split; try tauto. discriminate.
Qed.

Lemma version_here_complete (c : ascii) (ds : list ascii) :
  is_Vv c = true -> ds <> [] -> forallb is_digit ds = true ->
  Regex.version_here (c :: ds) = Some ds.
Proof.
  intros Hc Hne Hd. unfold Regex.version_here.
  destruct ds as [|d ds]; [congruence|]. rewrite Hc, Hd. reflexivity.
Qed.

Lemma version_here_before_marker (a c : ascii) (pre ds : list ascii) :
  is_Vv c = true -> Regex.version_here (a :: pre ++ c :: ds) = None.
Proof.
  intros Hc. destruct (Regex.version_here (a :: pre ++ c :: ds)) as [x|] eqn:E;
    [|reflexivity].
  apply version_here_sound in E.
  destruct E as (c' & Heq & _ & _ & Hd). injection Heq as _ <-.
  rewrite forallb_app in Hd. apply andb_true_iff in Hd.
  destruct Hd as [_ Hd]. simpl in Hd.
  rewrite (@is_Vv_not_digit c Hc) in Hd. discriminate.
Qed.

Lemma search_version_suffix_complete (pre before : list ascii) (c : ascii)
      (ds : list ascii) :
  is_Vv c = true -> ds <> [] -> forallb is_digit ds = true ->
  Regex.search_version_suffix before (pre ++ c :: ds)
  = Some (rev before ++ pre, ds).
Proof.
  intros Hc Hne Hd. revert before.
  induction pre as [|a pre IH]; intros before.
  - cbn [app]. destruct ds as [|d ds]; [congruence|].
    cbn [Regex.search_version_suffix].
    rewrite (@version_here_complete c (d :: ds) Hc Hne Hd), app_nil_r.
    reflexivity.
  - cbn [app Regex.search_version_suffix].
    rewrite (@version_here_before_marker a c pre ds Hc), IH.
    cbn [rev]. rewrite <- app_assoc. reflexivity.
Qed.

Lemma search_version_suffix_sound (s before pre ds : list ascii) :
  Regex.search_version_suffix before s = Some (pre, ds) ->
  exists pre' c,
    s = pre' ++ c :: ds /\ pre = rev before ++ pre' /\ is_Vv c = true
    /\ ds <> [] /\ forallb is_digit ds = true.
Proof.
  revert before. induction s as [|a s IH]; intros before.
  - simpl. discriminate.
  - cbn [Regex.search_version_suffix].
    destruct (Regex.version_here (a :: s)) as [ds'|] eqn:E.
    + intros H. injection H as <- <-.
      apply version_here_sound in E. destruct E as (c & Heq & Hc & Hne & Hd).
      exists [], c. rewrite app_nil_r. repeat split; assumption.
    + intros H. apply IH in H.
      destruct H as (pre' & c & Hs & Hp & Hc & Hne & Hd).
      exists (a :: pre'), c. subst s pre. cbn [rev app].
      rewrite <- app_assoc. repeat split; assumption.
Qed.

Lemma version_marker_facts :
  (forall pre c ds,
      is_Vv c = true -> ds <> [] -> forallb is_digit ds = true ->
      Regex.match_version_suffix (str (pre ++ c :: ds)) = Some ds
      /\ Regex.strip_version_suffix (pre ++ c :: ds) = pre)
  /\ (forall name,
         Regex.match_version_suffix name = None ->
         Regex.strip_version_suffix (chars name) = chars name).
Proof.
  split.
  - intros pre c ds Hc Hne Hd.
    unfold Regex.match_version_suffix, Regex.strip_version_suffix.
    rewrite chars_str, (@search_version_suffix_complete pre [] c ds Hc Hne Hd).
    split; reflexivity.
  - intros name H. unfold Regex.match_version_suffix in H.
    unfold Regex.strip_version_suffix.
    destruct (Regex.search_version_suffix [] (chars name)) as [[pre ds']|];
      [discriminate|reflexivity].
Qed.

(** X1.  The version suffix of a file name.  A name that ends with [V]
    or [v] and one or more digits has these digits as its version and
    loses exactly that suffix, whatever comes before, another version
    suffix included; and a version is only ever read off a name of that
    shape. *)
Theorem version_suffix_is_the_last_marker_and_digits :
  (forall pre c ds,
      is_Vv c = true -> ds <> [] -> forallb is_digit ds = true ->
      Regex.match_version_suffix (str (pre ++ c :: ds)) = Some ds
      /\ Regex.strip_version_suffix (pre ++ c :: ds) = pre)
  /\ (forall name ds,
         Regex.match_version_suffix name = Some ds ->
         exists pre c,
           chars name = pre ++ c :: ds /\ is_Vv c = true /\ ds <> []
           /\ forallb is_digit ds = true
           /\ Regex.strip_version_suffix (chars name) = pre)
  /\ (forall name,
         Regex.match_version_suffix name = None ->
         Regex.strip_version_suffix (chars name) = chars name).
Proof.
  split; [|split].
  - intros pre c ds Hc Hne Hd.
    unfold Regex.match_version_suffix, Regex.strip_version_suffix.
    rewrite chars_str, (@search_version_suffix_complete pre [] c ds Hc Hne Hd).
    split; reflexivity.
  - intros name ds H. unfold Regex.match_version_suffix in H.
    unfold Regex.strip_version_suffix.
    destruct (Regex.search_version_suffix [] (chars name)) as [[pre ds']|] eqn:E;
      [|discriminate].
    simpl in H. injection H as ->.
    apply search_version_suffix_sound in E.
    destruct E as (pre' & c & Hs & Hp & Hc & Hne & Hd).
    exists pre', c. simpl in Hp. subst pre. repeat split; assumption.
  - intros name H. unfold Regex.match_version_suffix in H.
    unfold Regex.strip_version_suffix.
    destruct (Regex.search_version_suffix [] (chars name)) as [[pre ds']|];
      [discriminate|reflexivity].
Qed.

Lemma version_suffix_is_the_last_marker_and_digits_witness :
  Regex.match_version_suffix "FooV1V22" = Some ["2"%char; "2"%char]
  /\ Regex.strip_version_suffix (chars "FooV1V22") = chars "FooV1".
Proof.
  apply (proj1 version_suffix_is_the_last_marker_and_digits
           (chars "FooV1") "V"%char ["2"%char; "2"%char]).
  - reflexivity.
  - discriminate.
  - reflexivity.
Defined.

Lemma drop_while_all (f : ascii -> bool) (x r : list ascii) :
  forallb f x = true -> drop_while f (x ++ r) = drop_while f r.
Proof.
  induction x as [|c x IH]; simpl; [reflexivity|].
  intros H. apply andb_true_iff in H. destruct H as [Hc Hx].
  rewrite Hc. apply IH, Hx.
Qed.

Lemma take_while_all (f : ascii -> bool) (x r : list ascii) :
  forallb f x = true -> take_while f (x ++ r) = x ++ take_while f r.
Proof.
  induction x as [|c x IH]; simpl; [reflexivity|].
  intros H. apply andb_true_iff in H. destruct H as [Hc Hx].
  rewrite Hc, (IH Hx). reflexivity.
Qed.

Lemma forallb_rev (f : ascii -> bool) (x : list ascii) :
  forallb f (rev x) = forallb f x.
Proof.
  induction x as [|c x IH]; simpl; [reflexivity|].
  rewrite forallb_app, IH. simpl. rewrite andb_true_r. apply andb_comm.
Qed.

Lemma drop_while_sep_name (x r : list ascii) :
  x <> [] -> forallb Path.not_sep x = true ->
  drop_while Path.is_sep (rev x ++ r) = rev x ++ r.
Proof.
  intros Hne Hx. rewrite <- forallb_rev in Hx.
  destruct (rev x) as [|c y] eqn:E.
  - exfalso. apply Hne. rewrite <- (rev_involutive x), E. reflexivity.
  - simpl in Hx. apply andb_true_iff in Hx. destruct Hx as [Hc _].
    unfold Path.not_sep in Hc. apply negb_true_iff in Hc.
    simpl. rewrite Hc. reflexivity.
Qed.

Lemma is_sep_slash : Path.is_sep "/"%char = true.
Proof. reflexivity. Qed.

(** The last component of [dir/name] is [name]. *)
Lemma last_component_name (d x : list ascii) :
  x <> [] -> forallb Path.not_sep x = true ->
  Path.last_component (d ++ "/"%char :: x) = x.
Proof.
  intros Hne Hx. unfold Path.last_component.
  rewrite rev_app_distr. cbn [rev]. rewrite <- !app_assoc. cbn [app].
  rewrite (drop_while_sep_name _ Hne Hx).
  rewrite take_while_all by (rewrite forallb_rev; exact Hx).
  cbn [take_while]. unfold Path.not_sep at 1. rewrite is_sep_slash. simpl.
  rewrite app_nil_r. apply rev_involutive.
Qed.

Lemma starts_with_app (p r : list ascii) : starts_with p (p ++ r) = true.
Proof.
  induction p as [|c p IH]; simpl; [reflexivity|].
  rewrite Ascii.eqb_refl. exact IH.
Qed.

Lemma string_length_chars (s : string) :
  String.length s = List.length (chars s).
Proof. induction s as [|c s IH]; simpl; [reflexivity|]. f_equal. exact IH. Qed.

(** [path.basename(dir + '/' + name + '.node.ts', '.node.ts')] is
    [name]. *)
Lemma basename_node_file (d x : list ascii) :
  x <> [] -> forallb Path.not_sep x = true ->
  Path.basename (str (d ++ "/"%char :: x ++ chars ".node.ts")) ".node.ts"
  = str x.
Proof.
  intros Hne Hx. unfold Path.basename. rewrite chars_str.
  assert (Hfull : forallb Path.not_sep (x ++ chars ".node.ts") = true).
  { rewrite forallb_app, Hx. reflexivity. }
  assert (Hne' : x ++ chars ".node.ts" <> []).
  { destruct x; [congruence|discriminate]. }
  rewrite (last_component_name d Hne' Hfull).
  assert (Hlen : List.length (chars ".node.ts") = 8%nat) by reflexivity.
  assert (Hx1 : (1 <= List.length x)%nat).
  { destruct x; [congruence|simpl; lia]. }
  assert (Hcomp : List.length (x ++ chars ".node.ts")
                  = (List.length x + 8)%nat).
  { rewrite length_app, Hlen. reflexivity. }
  assert (Hpath : (8 <= List.length (d ++ "/"%char :: x ++ chars ".node.ts"))%nat).
  { rewrite length_app. cbn [List.length]. rewrite Hcomp. lia. }
  rewrite Hcomp, Hlen.
  destruct (Nat.ltb_spec 0 8) as [_|H0]; [|lia].
  destruct (Nat.leb_spec 8 (List.length
                              (d ++ "/"%char :: x ++ chars ".node.ts")))
    as [_|H1]; [|lia].
  cbn [andb].
  destruct (String.eqb_spec ".node.ts"
              (str (d ++ "/"%char :: x ++ chars ".node.ts"))) as [He|_].
  { exfalso. apply (f_equal String.length) in He.
    rewrite (string_length_chars (str _)), chars_str in He.
    change (String.length ".node.ts") with 8%nat in He.
    rewrite length_app in He. cbn [List.length] in He.
    rewrite Hcomp in He. lia. }
  destruct (Nat.ltb_spec (List.length x + 8) 8) as [H2|_]; [lia|].
  cbn [andb].
  destruct (Nat.ltb_spec 8 (List.length x + 8)) as [_|H3]; [|lia].
  unfold ends_with. rewrite rev_app_distr, starts_with_app. cbn [andb].
  unfold Path.remove_last. rewrite Hcomp.
  replace (List.length x + 8 - 8)%nat with (List.length x + 0)%nat by lia.
  rewrite firstn_app_2. cbn [firstn]. rewrite app_nil_r. reflexivity.
Qed.

(** The directory of [dir/name] does not depend on [name]. *)
Lemma dirname_name (d x y : list ascii) :
  x <> [] -> forallb Path.not_sep x = true ->
  y <> [] -> forallb Path.not_sep y = true ->
  Path.dirname (str (d ++ "/"%char :: x))
  = Path.dirname (str (d ++ "/"%char :: y)).
Proof.
  assert (H : forall z,
             z <> [] -> forallb Path.not_sep z = true ->
             Path.dirname (str (d ++ "/"%char :: z))
             = match d with
               | [] => "/"
               | c0 :: d' =>
                   match rev d' with
                   | [] => if Path.is_sep c0 then "//" else str [c0]
                   | _ => str (c0 :: rev (rev d'))
                   end
               end).
  { intros z Hne Hz. unfold Path.dirname. rewrite chars_str.
    destruct d as [|c0 d'].
    - cbn [app]. rewrite <- (app_nil_r (rev z)).
      rewrite (drop_while_sep_name [] Hne Hz).
      rewrite drop_while_all by (rewrite forallb_rev; exact Hz).
      reflexivity.
    - cbn [app]. rewrite rev_app_distr. cbn [rev].
      rewrite <- !app_assoc. cbn [app].
      rewrite (drop_while_sep_name _ Hne Hz).
      rewrite drop_while_all by (rewrite forallb_rev; exact Hz).
      cbn [drop_while]. unfold Path.not_sep at 1. rewrite is_sep_slash.
      cbn [negb]. reflexivity. }
  intros Hx1 Hx2 Hy1 Hy2. rewrite (H x Hx1 Hx2), (H y Hy1 Hy2). reflexivity.
Qed.

(** X2.  A node file and its versioned variant in the same directory,
    [Stem.node.ts] and [StemV<digits>.node.ts] (or [Stemv<digits>]), get
    the same base name and so go to the same group, provided [Stem]
    itself does not end with a version suffix. *)
Theorem versioned_file_shares_the_base_name
        (dir stem marker digits : string) :
  stem <> "" ->
  forallb Path.not_sep (chars stem) = true ->
  Regex.match_version_suffix stem = None ->
  marker = "V" \/ marker = "v" ->
  digits <> "" ->
  forallb is_digit (chars digits) = true ->
  extractBaseNodeName
    (dir ++ "/" ++ stem ++ marker ++ digits ++ ".node.ts")%string
  = extractBaseNodeName (dir ++ "/" ++ stem ++ ".node.ts")%string.
Proof.
  intros Hstem Hsep Hnone Hmarker Hdigits Hd.
  assert (Hc : exists c, marker = String c "" /\ is_Vv c = true).
  { destruct Hmarker as [->| ->]; eexists; split; reflexivity. }
  destruct Hc as (c & -> & Hc).
  assert (Hds : chars digits <> []).
  { destruct digits; [congruence|discriminate]. }
  assert (Hst : chars stem <> []).
  { destruct stem; [congruence|discriminate]. }
  assert (Hdsep : forallb Path.not_sep (chars digits) = true).
  { clear -Hd. induction (chars digits) as [|a l IH]; [reflexivity|].
    simpl in *. apply andb_true_iff in Hd. destruct Hd as [Ha Hl].
    rewrite (IH Hl), andb_true_r.
    unfold Path.not_sep, Path.is_sep, Path.sep. apply negb_true_iff.
    apply Ascii.eqb_neq. intros ->. discriminate. }
  assert (Hcsep : Path.not_sep c = true).
  { unfold is_Vv in Hc. apply orb_true_iff in Hc.
    destruct Hc as [Hc|Hc]; apply Ascii.eqb_eq in Hc; subst c; reflexivity. }
  set (versioned := chars stem ++ c :: chars digits).
  assert (Hp1 : (dir ++ "/" ++ stem ++ String c "" ++ digits ++ ".node.ts")%string
                = str (chars dir ++ "/"%char :: versioned ++ chars ".node.ts")).
  { rewrite <- (str_chars (dir ++ _)%string). f_equal.
    unfold versioned. rewrite !chars_append, <- !app_assoc. reflexivity. }
  assert (Hp2 : (dir ++ "/" ++ stem ++ ".node.ts")%string
                = str (chars dir ++ "/"%char :: chars stem ++ chars ".node.ts")).
  { rewrite <- (str_chars (dir ++ _)%string). f_equal.
    rewrite !chars_append. reflexivity. }
  assert (Hv1 : versioned <> []).
  { unfold versioned. destruct (chars stem); discriminate. }
  assert (Hv2 : forallb Path.not_sep versioned = true).
  { unfold versioned. rewrite forallb_app. cbn [forallb].
    rewrite Hsep, Hcsep, Hdsep. reflexivity. }
  assert (Hs1 : forall z, z <> [] -> forallb Path.not_sep z = true ->
                          z ++ chars ".node.ts" <> []
                          /\ forallb Path.not_sep (z ++ chars ".node.ts") = true).
  { intros z Hz1 Hz2. split; [destruct z; [congruence|discriminate]|].
    rewrite forallb_app, Hz2. reflexivity. }
  unfold extractBaseNodeName. rewrite Hp1, Hp2.
  rewrite (basename_node_file (chars dir) Hv1 Hv2).
  rewrite (basename_node_file (chars dir) Hst Hsep).
  rewrite (dirname_name (chars dir)
             (proj1 (Hs1 _ Hv1 Hv2)) (proj2 (Hs1 _ Hv1 Hv2))
             (proj1 (Hs1 _ Hst Hsep)) (proj2 (Hs1 _ Hst Hsep))).
  rewrite !chars_str. unfold versioned.
  rewrite (proj2 (proj1 version_marker_facts
                        (chars stem) c (chars digits) Hc Hds Hd)).
  rewrite (proj2 version_marker_facts stem Hnone).
  reflexivity.
Qed.

Lemma versioned_file_shares_the_base_name_witness :
  extractBaseNodeName "/n8n/nodes/Postgres/PostgresV2.node.ts"
  = extractBaseNodeName "/n8n/nodes/Postgres/Postgres.node.ts".
Proof.
  apply (@versioned_file_shares_the_base_name
           "/n8n/nodes/Postgres" "Postgres" "V" "2").
  - discriminate.
  - reflexivity.
  - reflexivity.
  - left. reflexivity.
  - discriminate.
  - reflexivity.
Defined.

End BaseNames.

(* ------------------------------------------------------------------ *)
(** ** The groups, key by key *)
(* ------------------------------------------------------------------ *)

Section GroupLookup.



End GroupLookup.

(* ------------------------------------------------------------------ *)
(** ** The version dispatcher *)
(* ------------------------------------------------------------------ *)

Section WrapperDispatch.
Local Open Scope nat_scope.

(** Every schema [parseNodeFile] returns was extracted from a file that
    was read and not redirected, and is built by [schemaOf] from the
    description and the assembled parameters of that file. *)
Lemma parsedSchema_shape (fuel : nat) (env : Environment) :
  forall filePath schema,
    parsedSchema fuel env filePath = Ok (Some schema) ->
    exists path sourceFile description notes imported,
      readSourceFile env path = Returns sourceFile
      /\ redirection env path (detectVersionedNodeWrapper sourceFile) = None
      /\ findNodeDescription sourceFile path [] = (Some description, notes)
      /\ resolveImportedProperties env sourceFile path = Returns imported
      /\ schema
         = markedSchema (detectVersionedNodeWrapper sourceFile)
             (schemaOf description
                (fst (assembleProperties sourceFile imported notes))
                (determineExtractionQuality
                   (fst (assembleProperties sourceFile imported notes)))
                (snd (assembleProperties sourceFile imported notes))).
Proof.
  induction fuel as [|fuel IH]; intros filePath schema.
  - unfold parsedSchema, valueOf. simpl. discriminate.
  - unfold parsedSchema, valueOf. rewrite parseNodeFile_step.
    destruct (readSourceFile env filePath) as [sourceFile|message] eqn:Er;
      [|simpl; discriminate].
    cbv zeta.
    destruct (redirection env filePath
                (detectVersionedNodeWrapper sourceFile)) as [impl|] eqn:Ed.
    + specialize (IH impl schema). unfold parsedSchema, valueOf in IH.
      destruct (parseNodeFile fuel env impl (Database.initial ""))
        as [[v|m|] db']; cbn [fst] in *; try discriminate.
      exact IH.
    + rewrite extractNodeSchemaAST_eq.
      destruct (findNodeDescription sourceFile filePath [])
        as [[description|] notes] eqn:Ef; [|simpl; discriminate].
      destruct (resolveImportedProperties env sourceFile filePath)
        as [imported|m] eqn:Ei; [|simpl; discriminate].
      cbv zeta. cbn [fst]. intros H. injection H as <-.
      exists filePath, sourceFile, description, notes, imported.
      repeat split; assumption.
Qed.

(** X4.  A wrapper with an implementation file is parsed as that file:
    the result and the database after the call are those of parsing the
    implementation file, so the wrapper's own description, parameters
    and path play no part, and an issue is recorded under the
    implementation's path. *)
Theorem wrapper_is_parsed_as_its_implementation
        (fuel : nat) (env : Environment) (filePath : string)
        (sourceFile : Node) (implementationFile : string) :
  readSourceFile env filePath = Returns sourceFile ->
  redirection env filePath (detectVersionedNodeWrapper sourceFile)
  = Some implementationFile ->
  forall db,
    parseNodeFile (S fuel) env filePath db
    = parseNodeFile fuel env implementationFile db.
Proof.
  intros Hread Hred db. rewrite parseNodeFile_step, Hread. cbv zeta.
  rewrite Hred.
  destruct (parseNodeFile_run fuel env implementationFile)
    as (r & Hnt & _ & Hrun).
  destruct (Hrun db) as [Hv _].
  destruct (parseNodeFile fuel env implementationFile db) as [[v|m|] db'];
    try reflexivity.
  exfalso. apply (Hnt m). symmetry. exact Hv.
Qed.

Lemma wrapper_is_parsed_as_its_implementation_witness :
  parseNodeFile 2 Fixture.env Fixture.wrapperPath (Database.initial Sample.now)
  = parseNodeFile 1 Fixture.env Fixture.v3Path (Database.initial Sample.now).
Proof.
  apply (@wrapper_is_parsed_as_its_implementation
           1 Fixture.env Fixture.wrapperPath Fixture.wrapperFile
           Fixture.v3Path).
  - reflexivity.
  - vm_compute. reflexivity.
Defined.





Lemma detectAt_spec (info : WrapperInfo) (node : Node) :
  detectAt info node
  = mkWrapperInfo
      (isWrapper info || extendsVersionedNodeType node)
      (match defaultVersionAt node with
       | Some text => Some text
       | None => defaultVersion info
       end).
Proof.
  destruct info as [w d].
  destruct node; cbn [detectAt extendsVersionedNodeType defaultVersionAt
                      isWrapper defaultVersion];
    try (rewrite orb_false_r; reflexivity).
  all: repeat match goal with
              | |- context [match ?x with _ => _ end] => destruct x
              end;
    rewrite ?orb_false_r, ?orb_true_r; reflexivity.
Qed.

Lemma detect_fold (nodes : list Node) :
  forall info,
    fold_left detectAt nodes info
    = mkWrapperInfo
        (isWrapper info || existsb extendsVersionedNodeType nodes)
        (match rev (flat_map (fun node => match defaultVersionAt node with
                                          | Some text => [text]
                                          | None => []
                                          end) nodes) with
         | text :: _ => Some text
         | [] => defaultVersion info
         end).
Proof.
  induction nodes as [|node nodes IH]; intros info.
  - simpl. rewrite orb_false_r. destruct info; reflexivity.
  - cbn [fold_left existsb flat_map]. rewrite IH, detectAt_spec.
    cbn [isWrapper defaultVersion]. rewrite orb_assoc. f_equal.
    rewrite rev_app_distr.
    destruct (rev (flat_map _ nodes)) as [|t ts]; [|reflexivity].
    cbn [app]. destruct (defaultVersionAt node); reflexivity.
Qed.

(** X6.  [detectVersionedNodeWrapper]: a file is a wrapper exactly when
    some class below its root extends [VersionedNodeType], and its
    default version is the numeric literal of the last
    [defaultVersion: <number>] assignment of the file in source order,
    wherever that assignment stands. *)
Theorem wrapper_detection_reads_class_and_last_default
        (sourceFile : Node) :
  isWrapper (detectVersionedNodeWrapper sourceFile)
  = existsb extendsVersionedNodeType (visited_below sourceFile)
  /\ defaultVersion (detectVersionedNodeWrapper sourceFile)
     = match rev (flat_map (fun node => match defaultVersionAt node with
                                        | Some text => [text]
                                        | None => []
                                        end) (visited_below sourceFile)) with
       | text :: _ => Some text
       | [] => None
       end.
Proof.
  unfold detectVersionedNodeWrapper. rewrite detect_fold.
  split; reflexivity.
Qed.

End WrapperDispatch.

(* ------------------------------------------------------------------ *)
(** ** Quality counters and known issues of the run *)
(* ------------------------------------------------------------------ *)

Section Ledger.
Local Open Scope nat_scope.

Lemma Records_refl (db : Database.t) : Records db db.
Proof. exists []. rewrite app_nil_r. split; [reflexivity|constructor]. Qed.

Lemma Records_trans (a b c : Database.t) :
  Records a b -> Records b c -> Records a c.
Proof.
  intros (i1 & H1 & F1) (i2 & H2 & F2). exists (i1 ++ i2). split.
  - rewrite H2, H1, app_assoc. reflexivity.
  - apply Forall_app. split; assumption.
Qed.

Lemma Records_pushIssue (filePath message : string) (db : Database.t) :
  Records db (pushIssue (processingIssue filePath message) db).
Proof.
  exists [processingIssue filePath message]. split; [reflexivity|].
  constructor; [|constructor]. exists filePath, message. reflexivity.
Qed.

Lemma Records_same (db db' : Database.t) :
  Database.knownIssues db' = Database.knownIssues db -> Records db db'.
Proof.
  intros H. exists []. rewrite app_nil_r. split; [exact H|constructor].
Qed.

Lemma Records_In (db db' : Database.t) (issue : string) :
  Records db db' ->
  In issue (Database.knownIssues db) -> In issue (Database.knownIssues db').
Proof.
  intros (added & H & _) Hin. rewrite H. apply in_or_app. left. exact Hin.
Qed.

Lemma counters_Extends (n : nat) (db db' : Database.t) :
  Extends n db db' -> counters db' = counters db.
Proof.
  unfold Extends, counters. intros (_ & _ & _ & Hh & Hm & Hl & _).
  cbv zeta. rewrite Hh, Hm, Hl. reflexivity.
Qed.

Lemma counters_stored (key : string) (schema : Schema.t) (db : Database.t) :
  counters (updateQualityStats schema (storeNode key schema db))
  = bump (Schema.extractionQuality schema) (counters db)
  /\ Database.knownIssues (updateQualityStats schema (storeNode key schema db))
     = Database.knownIssues db.
Proof.
  unfold counters, updateQualityStats, storeNode, bump.
  destruct (Schema.extractionQuality schema); split; reflexivity.
Qed.

(** What [parseNodeFile] does to the issues: it appends processing
    issues only, and the one of what was thrown in the file itself. *)
Lemma parseNodeFile_records (fuel : nat) (env : Environment) :
  forall filePath db,
    Records db (snd (parseNodeFile fuel env filePath db))
    /\ forall message,
        fuel <> 0 ->
        thrownIn env filePath = Some message ->
        In (processingIssue filePath message)
           (Database.knownIssues (snd (parseNodeFile fuel env filePath db))).
Proof.
  induction fuel as [|fuel IH]; intros filePath db.
  - split; [apply Records_refl|]. intros message H. congruence.
  - rewrite parseNodeFile_step. unfold thrownIn.
    destruct (readSourceFile env filePath) as [sourceFile|m] eqn:Er.
    + cbv zeta.
      destruct (redirection env filePath
                  (detectVersionedNodeWrapper sourceFile)) as [impl|] eqn:Ed.
      * destruct (IH impl db) as [Hrec _].
        destruct (parseNodeFile_run fuel env impl) as (r & Hnt & _ & Hrun).
        destruct (Hrun db) as [Hv _].
        destruct (parseNodeFile fuel env impl db) as [[v|m|] db'];
          cbn [fst snd] in *.
        -- split; [exact Hrec|]. intros message _ H. discriminate.
        -- exfalso. apply (Hnt m). symmetry. exact Hv.
        -- split; [exact Hrec|]. intros message _ H. discriminate.
      * rewrite extractNodeSchemaAST_eq.
        destruct (findNodeDescription sourceFile filePath [])
          as [[description|] notes].
        -- destruct (resolveImportedProperties env sourceFile filePath)
             as [imported|m].
           ++ cbv zeta. cbn [snd]. split.
              ** apply Records_same. reflexivity.
              ** intros message _ H. discriminate.
           ++ cbn [snd]. split; [apply Records_pushIssue|].
              intros message _ H. injection H as <-.
              unfold pushIssue. cbn [Database.knownIssues].
              apply in_or_app. right. left. reflexivity.
        -- cbn [snd]. split; [apply Records_refl|].
           intros message _ H. discriminate.
    + cbn [snd]. split; [apply Records_pushIssue|].
      intros message _ H. injection H as <-.
      unfold pushIssue. cbn [Database.knownIssues].
      apply in_or_app. right. left. reflexivity.
Qed.

Variable fuel : nat.
Variable env : Environment.

Lemma collectVersions_ledger (files : list string) :
  forall versions db,
    fst (collectVersions fuel env files versions db) <> OutOfFuel ->
    LedgerStep env files (fun c => c) db
               (snd (collectVersions fuel env files versions db)).
Proof.
  induction files as [|file files IH]; intros versions db Hr.
  - simpl. split; [reflexivity|]. split; [apply Records_refl|].
    intros f m [].
  - cbn [collectVersions] in *. unfold bind in *.
    destruct (parseNodeFile_records fuel env file db) as [Hrec Hthrown].
    destruct (parsedSchema_run fuel env file db) as [Hv He].
    pose proof (@parsedSchema_not_thrown fuel env file) as Hnt.
    assert (Hfuel : fst (parseNodeFile fuel env file db) <> OutOfFuel ->
                    fuel <> 0).
    { intros H ->. apply H. reflexivity. }
    destruct (parseNodeFile fuel env file db) as [r db1].
    cbn [fst snd] in Hv, He, Hrec, Hthrown, Hfuel. rewrite <- Hv in *.
    assert (Hstep :
              forall versions',
                fst (collectVersions fuel env files versions' db1)
                <> OutOfFuel ->
                r <> OutOfFuel ->
                LedgerStep env (file :: files) (fun c => c) db
                  (snd (collectVersions fuel env files versions' db1))).
    { intros versions' Hr' Hok.
      destruct (IH versions' db1 Hr') as (Hc & Hrec2 & Hth2).
      split; [|split].
      - rewrite Hc. eapply counters_Extends. exact He.
      - eapply Records_trans; eassumption.
      - intros f m [<-|Hin] Hm.
        + eapply Records_In; [exact Hrec2|].
          apply Hthrown; [apply Hfuel; exact Hok|exact Hm].
        + apply (Hth2 f m Hin Hm). }
    destruct r as [[schema|]|m|].
    + apply Hstep; [exact Hr|discriminate].
    + apply Hstep; [exact Hr|discriminate].
    + exfalso. eapply Hnt. reflexivity.
    + exfalso. apply Hr. reflexivity.
Qed.

Lemma processNodeGroupAST_ledger (baseName : string) (files : list string)
      (db : Database.t) :
  fst (processNodeGroupAST fuel env baseName files db) <> OutOfFuel ->
  LedgerStep env files (bumpWinner (winnerOf fuel env baseName files)) db
             (snd (processNodeGroupAST fuel env baseName files db)).
Proof.
  assert (Hmulti :
            forall files',
              let m := bind (collectVersions fuel env files' [])
                         (fun versions =>
                            match selectBestVersion versions with
                            | Some bestVersion =>
                                let schema :=
                                  pushNote
                                    (selectionNote (List.length versions)
                                       (Candidate.filePath bestVersion))
                                    (Candidate.schema bestVersion) in
                                bind (modify (storeNode baseName schema))
                                     (fun _ =>
                                        modify (updateQualityStats schema))
                            | None => ret tt
                            end) in
              fst (m db) <> OutOfFuel ->
              LedgerStep env files'
                (bumpWinner
                   (match selectBestVersion (candidatesOf fuel env files')
                    with
                    | Some bestVersion =>
                        Some (baseName,
                              pushNote
                                (selectionNote
                                   (List.length
                                      (candidatesOf fuel env files'))
                                   (Candidate.filePath bestVersion))
                                (Candidate.schema bestVersion))
                    | None => None
                    end)) db (snd (m db))).
  { intros files'. cbv zeta. unfold bind.
    pose proof (collectVersions_ledger files' [] db) as HL.
    destruct (collectVersions_run fuel env files' [] db) as [H|[H1 _]];
      destruct (collectVersions fuel env files' [] db) as [r db1];
      cbn [fst snd] in *; subst r.
    - intros Hr. exfalso. apply Hr. reflexivity.
    - intros _. cbn [app].
      destruct HL as (Hc & Hrec & Hth); [discriminate|].
      destruct (selectBestVersion (candidatesOf fuel env files'))
        as [best|]; unfold modify, ret; cbn [fst snd].
      + match goal with
        | |- LedgerStep _ _ _ _ (updateQualityStats ?s (storeNode ?k ?s ?d)) =>
            destruct (counters_stored k s d) as [Hc2 Hi2]
        end.
        split; [|split].
        * rewrite Hc2, Hc. reflexivity.
        * eapply Records_trans; [exact Hrec|].
          apply Records_same. exact Hi2.
        * intros f m Hin Hm. rewrite Hi2. apply (Hth f m Hin Hm).
      + split; [exact Hc|]. split; [exact Hrec|exact Hth]. }
  destruct files as [|file [|file' files]].
  - apply (Hmulti []).
  - unfold processNodeGroupAST, processNodeFileAST, bind, winnerOf.
    destruct (parseNodeFile_records fuel env file db) as [Hrec Hthrown].
    destruct (parsedSchema_run fuel env file db) as [Hv He].
    pose proof (@parsedSchema_not_thrown fuel env file) as Hnt.
    assert (Hfuel : fst (parseNodeFile fuel env file db) <> OutOfFuel ->
                    fuel <> 0).
    { intros H ->. apply H. reflexivity. }
    destruct (parseNodeFile fuel env file db) as [r db1].
    cbn [fst snd] in Hv, He, Hrec, Hthrown, Hfuel. rewrite <- Hv in *.
    apply counters_Extends in He.
    destruct r as [[schema|]|m|]; unfold modify, ret; cbn [fst snd].
    + intros _.
      destruct (counters_stored (extractBaseNodeName file) schema db1)
        as [Hc2 Hi2].
      split; [|split].
      * rewrite Hc2, He. reflexivity.
      * eapply Records_trans; [exact Hrec|].
        apply Records_same. exact Hi2.
      * intros f m [<-|[]] Hm. rewrite Hi2.
        apply Hthrown; [apply Hfuel; discriminate|exact Hm].
    + intros _. split; [exact He|]. split; [exact Hrec|].
      intros f m [<-|[]] Hm.
      apply Hthrown; [apply Hfuel; discriminate|exact Hm].
    + exfalso. eapply Hnt. reflexivity.
    + intros Hr. exfalso. apply Hr. reflexivity.
  - apply (Hmulti (file :: file' :: files)).
Qed.

Lemma processGroups_ledger (groups : list (string * list string)) :
  forall db,
    fst (processGroups fuel env groups db) <> OutOfFuel ->
    counters (snd (processGroups fuel env groups db))
    = fold_left (fun c winner =>
                   bump (Schema.extractionQuality (snd winner)) c)
                (winners fuel env groups) (counters db)
    /\ Records db (snd (processGroups fuel env groups db))
    /\ forall baseName files file message,
        In (baseName, files) groups -> In file files ->
        thrownIn env file = Some message ->
        In (processingIssue file message)
           (Database.knownIssues (snd (processGroups fuel env groups db))).
Proof.
  induction groups as [|[baseName files] groups IH]; intros db.
  - intros _. simpl. split; [reflexivity|]. split; [apply Records_refl|].
    intros b fs f m [].
  - cbn [processGroups]. unfold bind, tryCatch.
    pose proof (processNodeGroupAST_ledger baseName files db) as HL.
    destruct (processNodeGroupAST_run fuel env baseName files db)
      as [H|[H _]];
      destruct (processNodeGroupAST fuel env baseName files db)
      as [r db1]; cbn [fst snd] in *; subst r.
    + intros Hr. exfalso. apply Hr. reflexivity.
    + intros Hr. destruct (IH db1 Hr) as (Hc & Hrec & Hth).
      destruct HL as (Hc1 & Hrec1 & Hth1); [discriminate|].
      split; [|split].
      * rewrite Hc, Hc1. unfold winners. cbn [flat_map fst snd].
        rewrite fold_left_app.
        destruct (winnerOf fuel env baseName files); reflexivity.
      * eapply Records_trans; eassumption.
      * intros b fs f m [Hg|Hg] Hin Hm.
        -- injection Hg as <- <-.
           eapply Records_In; [exact Hrec|]. apply (Hth1 f m Hin Hm).
        -- apply (Hth b fs f m Hg Hin Hm).
Qed.

Lemma fold_bump (nodes : list (string * Schema.t)) :
  forall h m l,
    fold_left (fun c winner =>
                 bump (Schema.extractionQuality (snd winner)) c)
              nodes (h, m, l)
    = (h + countQuality high nodes, m + countQuality medium nodes,
       l + countQuality low nodes).
Proof.
  induction nodes as [|[k s] nodes IH]; intros h m l.
  - unfold countQuality. simpl. rewrite !Nat.add_0_r. reflexivity.
  - cbn [fold_left snd]. unfold countQuality in *. cbn [filter snd].
    destruct (Schema.extractionQuality s); cbn [bump sameQuality];
      rewrite IH; cbn [List.length];
      (apply pair_equal_spec; split; [apply pair_equal_spec; split|]); lia.
Qed.

Lemma countQuality_total (nodes : list (string * Schema.t)) :
  countQuality high nodes + countQuality medium nodes
  + countQuality low nodes = List.length nodes
  /\ List.length (filter isHighOrMedium nodes)
     = countQuality high nodes + countQuality medium nodes.
Proof.
  unfold countQuality, isHighOrMedium.
  induction nodes as [|[k s] nodes [IH1 IH2]]; [split; reflexivity|].
  cbn [filter snd List.length].
  destruct (Schema.extractionQuality s); cbn [sameQuality List.length];
    split; lia.
Qed.

End Ledger.

Section RunLedger.
Local Open Scope nat_scope.


Lemma in_groups (nodeFiles : list string) (file : string) :
  In file nodeFiles ->
  exists baseName files,
    In (baseName, files) (groupNodeFilesByBaseName nodeFiles)
    /\ In file files.
Proof.
  intros Hin.
  destruct (groupNodeFilesByBaseName_grouped nodeFiles) as (_ & _ & Hperm).
  apply Permutation_sym in Hperm.
  apply (Permutation_in _ Hperm) in Hin.
  apply in_concat in Hin. destruct Hin as (fs & Hfs & Hf).
  apply in_map_iff in Hfs. destruct Hfs as ([b fs'] & Heq & Hg).
  cbn [snd] in Heq. subst fs'. exists b, fs. split; assumption.
Qed.

Lemma extractAllSchemas_ledger (fuel : nat) (env : Environment)
      (nodeFiles : list string) (db db' : Database.t) :
  extractAllSchemas fuel env nodeFiles db = (Ok tt, db') ->
  counters db'
  = fold_left (fun c winner =>
                 bump (Schema.extractionQuality (snd winner)) c)
              (winners fuel env (groupNodeFilesByBaseName nodeFiles))
              (counters db)
  /\ Records db db'
  /\ forall file message,
      In file nodeFiles -> thrownIn env file = Some message ->
      In (processingIssue file message) (Database.knownIssues db').
Proof.
  unfold extractAllSchemas, bind, modify, Js.entries.
  pose proof (processGroups_ledger fuel env
                (groupNodeFilesByBaseName nodeFiles) db) as HL.
  destruct (processGroups fuel env (groupNodeFilesByBaseName nodeFiles) db)
    as [[[]|m|] db1]; cbn [fst snd] in HL; try discriminate.
  intros H. injection H as <-.
  destruct HL as (Hc & Hrec & Hth); [discriminate|].
  split; [|split].
  - rewrite <- Hc. reflexivity.
  - exact Hrec.
  - intros file message Hin Hm.
    destruct (in_groups nodeFiles file Hin) as (b & fs & Hg & Hf).
    apply (Hth b fs file message Hg Hf Hm).
Qed.



(** X8.  After the run each quality counter is the number of stored
    nodes of that quality, the three counters add up to [nodeCount], and
    the second document of [saveResults] has [highQuality +
    mediumQuality] nodes. *)
Theorem quality_counters_count_the_nodes
        (fuel : nat) (env : Environment) (nodeFiles : list string)
        (now : string) (db' : Database.t) :
  extractAllSchemas fuel env nodeFiles (Database.initial now) = (Ok tt, db') ->
  let stats := Database.extractionStats db' in
  Stats.highQuality stats = countQuality high (Database.nodes db')
  /\ Stats.mediumQuality stats = countQuality medium (Database.nodes db')
  /\ Stats.lowQuality stats = countQuality low (Database.nodes db')
  /\ Stats.highQuality stats + Stats.mediumQuality stats
     + Stats.lowQuality stats = Database.nodeCount db'
  /\ Database.nodeCount (ragOptimized db')
     = Stats.highQuality stats + Stats.mediumQuality stats.
Proof.
  intros Hrun stats.
  destruct (extractAllSchemas_ledger _ _ _ _ Hrun) as (Hc & _ & _).
  destruct (@extractAllSchemas_run fuel env nodeFiles now db' Hrun)
    as (_ & Hn & Hcount & Hnd & _).
  rewrite <- Hn in Hc. unfold counters in Hc.
  cbn [Database.initial Database.extractionStats Stats.highQuality
       Stats.mediumQuality Stats.lowQuality] in Hc.
  rewrite fold_bump in Hc. cbn [Nat.add] in Hc.
  fold stats in Hc. injection Hc as Hh Hm Hl.
  destruct (countQuality_total (Database.nodes db')) as [Ht Hf].
  rewrite Hh, Hm, Hl, Hcount.
  repeat split; try exact Ht.
  unfold ragOptimized. cbn [Database.nodeCount]. unfold Js.entries.
  rewrite fromEntries_NoDup.
  - unfold Js.keys. rewrite length_map. exact Hf.
  - apply filter_keys_NoDup. exact Hnd.
Qed.

Lemma quality_counters_count_the_nodes_witness :
  let db' := snd Fixture.run in
  Stats.mediumQuality (Database.extractionStats db') = 1
  /\ Database.nodeCount (ragOptimized db') = 1.
Proof.
  intros db'.
  assert (Hrun : extractAllSchemas 2 Fixture.env Fixture.nodeFiles
                   (Database.initial Sample.now) = (Ok tt, db'))
    by (vm_compute; reflexivity).
  destruct (quality_counters_count_the_nodes _ _ _ _ Hrun)
    as (Hh & Hm & Hl & Ht & Hr).
  split.
  - rewrite Hm. vm_compute. reflexivity.
  - rewrite Hr, Hh, Hm. vm_compute. reflexivity.
Defined.



End RunLedger.

(* ------------------------------------------------------------------ *)
(** ** The stored nodes *)
(* ------------------------------------------------------------------ *)

Section StoredNodes.
Local Open Scope nat_scope.

Lemma or_default_truthy (a : option Js.Value) (d : Js.Value) :
  Js.truthy d = true -> Js.truthy (Js.or_default a d) = true.
Proof.
  intros Hd. unfold Js.or_default.
  destruct a as [v|]; [|exact Hd].
  destruct (Js.truthy v) eqn:E; [exact E|exact Hd].
Qed.

(** The fields [markedSchema] and [pushNote] leave alone. *)
Lemma markedSchema_fields (info : WrapperInfo) (schema : Schema.t) :
  Schema.displayName (markedSchema info schema) = Schema.displayName schema
  /\ Schema.name (markedSchema info schema) = Schema.name schema
  /\ Schema.version (markedSchema info schema) = Schema.version schema
  /\ Schema.parameters (markedSchema info schema) = Schema.parameters schema
  /\ Schema.extractionQuality (markedSchema info schema)
     = Schema.extractionQuality schema.
Proof.
  unfold markedSchema. destruct (isWrapper info); repeat split.
Qed.

(** A schema [parseNodeFile] returns has a display name, a name and a
    version, and the quality of its parameters. *)
Lemma parsedSchema_wellformed (fuel : nat) (env : Environment)
      (filePath : string) (schema : Schema.t) :
  parsedSchema fuel env filePath = Ok (Some schema) ->
  nonEmpty (Schema.displayName schema)
  /\ nonEmpty (Schema.name schema)
  /\ nonEmpty (Schema.version schema)
  /\ Schema.extractionQuality schema
     = determineExtractionQuality (Schema.parameters schema).
Proof.
  intros H. apply parsedSchema_shape in H.
  destruct H as (path & sf & d & notes & imported & _ & _ & _ & _ & ->).
  destruct (markedSchema_fields (detectVersionedNodeWrapper sf)
              (schemaOf d (fst (assembleProperties sf imported notes))
                 (determineExtractionQuality
                    (fst (assembleProperties sf imported notes)))
                 (snd (assembleProperties sf imported notes))))
    as (-> & -> & -> & -> & ->).
  unfold nonEmpty, schemaOf.
  cbn [Schema.displayName Schema.name Schema.version Schema.parameters
       Schema.extractionQuality].
  repeat split; apply or_default_truthy; reflexivity.
Qed.

(** With a type tag on every parameter the classifier only counts. *)
Lemma typed_low_iff (parameters : list Param.t) :
  Forall namedAndTyped parameters ->
  (determineExtractionQuality parameters = low
   <-> List.length parameters < 2)
  /\ (determineExtractionQuality parameters = high
      <-> 5 <= List.length parameters
          /\ List.length parameters < 2 * describedCount parameters).
Proof.
  intros Hall.
  assert (Ht : forallb (fun p => Js.truthy (Param.type p)) parameters = true).
  { apply forallb_forall. intros p Hin.
    rewrite Forall_forall in Hall. apply (Hall p Hin). }
  unfold determineExtractionQuality, describedCount. cbv zeta.
  fold hasDescription. rewrite Ht.
  destruct (Nat.leb_spec 5 (List.length parameters));
    destruct (Nat.leb_spec 2 (List.length parameters));
    destruct (Nat.ltb_spec (List.length parameters)
                (2 * List.length (filter hasDescription parameters)));
    simpl; repeat split; intros;
    repeat match goal with
           | H : _ /\ _ |- _ => destruct H
           end;
    try discriminate; try reflexivity; try lia.
Qed.

Lemma winnerOf_schema (fuel : nat) (env : Environment) (baseName : string)
      (files : list string) (key : string) (schema : Schema.t) :
  winnerOf fuel env baseName files = Some (key, schema) ->
  exists file parsed,
    In file files
    /\ parsedSchema fuel env file = Ok (Some parsed)
    /\ (schema = parsed \/ exists note, schema = pushNote note parsed).
Proof.
  assert (Hmulti :
            forall best,
              selectBestVersion (candidatesOf fuel env files) = Some best ->
              exists file,
                In file files
                /\ parsedSchema fuel env file
                   = Ok (Some (Candidate.schema best))).
  { intros best Hs. apply selectBestVersion_sorted in Hs.
    assert (Hin : In best (candidatesOf fuel env files)).
    { eapply Permutation_in; [exact Hs|]. left. reflexivity. }
    unfold candidatesOf in Hin. apply in_flat_map in Hin.
    destruct Hin as (file & Hf & Hb).
    destruct (parsedSchema fuel env file) as [[s|]|m|] eqn:E;
      [|destruct Hb..].
    destruct Hb as [<-|[]]. exists file. split; [exact Hf|exact E]. }
  assert (Hcase :
            match selectBestVersion (candidatesOf fuel env files) with
            | Some bestVersion =>
                Some (baseName,
                      pushNote
                        (selectionNote
                           (List.length (candidatesOf fuel env files))
                           (Candidate.filePath bestVersion))
                        (Candidate.schema bestVersion))
            | None => None
            end = Some (key, schema) ->
            exists file parsed,
              In file files
              /\ parsedSchema fuel env file = Ok (Some parsed)
              /\ (schema = parsed \/ exists note, schema = pushNote note parsed)).
  { destruct (selectBestVersion (candidatesOf fuel env files)) as [best|]
      eqn:E; [|discriminate].
    intros H. injection H as _ <-.
    destruct (Hmulti best eq_refl) as (file & Hf & Hp).
    exists file, (Candidate.schema best).
    split; [exact Hf|]. split; [exact Hp|].
    right. eexists. reflexivity. }
  unfold winnerOf.
  destruct files as [|file [|file' files]]; try exact Hcase.
  destruct (parsedSchema fuel env file) as [[s|]|m|] eqn:E;
    try discriminate.
  intros H. injection H as _ <-.
  exists file, s. split; [left; reflexivity|].
  split; [exact E|left; reflexivity].
Qed.

(** X10.  Every node the run stores is the schema one of the candidate
    files of its base name parsed to, as it is or with the selection
    note appended; it has a non-empty display name, name and version
    (the defaults [Unknown], [unknown] and [1] fill in), and its quality
    is the classifier's answer for its own parameters.  Since emitted
    parameters always carry a type tag, the quality is low exactly for
    fewer than two parameters and high exactly for five or more with
    more than half described. *)
Theorem stored_nodes_are_classified_parsed_schemas
        (fuel : nat) (env : Environment) (nodeFiles : list string)
        (now : string) (db' : Database.t) :
  extractAllSchemas fuel env nodeFiles (Database.initial now) = (Ok tt, db') ->
  forall key schema,
    In (key, schema) (Database.nodes db') ->
    (exists file parsed,
        In file nodeFiles
        /\ extractBaseNodeName file = key
        /\ parsedSchema fuel env file = Ok (Some parsed)
        /\ (schema = parsed \/ exists note, schema = pushNote note parsed))
    /\ nonEmpty (Schema.displayName schema)
    /\ nonEmpty (Schema.name schema)
    /\ nonEmpty (Schema.version schema)
    /\ Schema.extractionQuality schema
       = determineExtractionQuality (Schema.parameters schema)
    /\ (resolverNamedAndTyped env ->
        (Schema.extractionQuality schema = low
         <-> List.length (Schema.parameters schema) < 2)
        /\ (Schema.extractionQuality schema = high
            <-> 5 <= List.length (Schema.parameters schema)
                /\ List.length (Schema.parameters schema)
                   < 2 * describedCount (Schema.parameters schema))).
Proof.
  intros Hrun key schema Hin.
  destruct (@extractAllSchemas_run fuel env nodeFiles now db' Hrun)
    as (_ & Hn & _).
  rewrite Hn in Hin. apply in_winners in Hin.
  destruct Hin as (b & fs & Hg & Hw).
  destruct (groupNodeFilesByBaseName_grouped nodeFiles)
    as (_ & Hname & Hperm).
  assert (Hkey : key = b).
  { eapply winnerOf_key; [|exact Hw]. intros f. apply (Hname b fs f Hg). }
  subst b.
  destruct (winnerOf_schema _ _ _ _ Hw) as (file & parsed & Hf & Hp & Hs).
  destruct (parsedSchema_wellformed _ _ _ Hp) as (Hd & Hnm & Hv & Hq).
  assert (Hsame :
            Schema.displayName schema = Schema.displayName parsed
            /\ Schema.name schema = Schema.name parsed
            /\ Schema.version schema = Schema.version parsed
            /\ Schema.parameters schema = Schema.parameters parsed
            /\ Schema.extractionQuality schema
               = Schema.extractionQuality parsed).
  { destruct Hs as [->|(note & ->)]; repeat split. }
  destruct Hsame as (E1 & E2 & E3 & E4 & E5).
  rewrite E1, E2, E3, E4, E5.
  split.
  { exists file, parsed. split.
    - eapply Permutation_in; [exact Hperm|].
      apply in_concat. exists fs. split; [|exact Hf].
      apply in_map_iff. exists (key, fs). split; [reflexivity|exact Hg].
    - split; [apply (Hname key fs file Hg Hf)|]. split; assumption. }
  split; [exact Hd|]. split; [exact Hnm|]. split; [exact Hv|].
  split; [exact Hq|].
  intros Hres. rewrite Hq. apply typed_low_iff.
  eapply parsedSchema_namedAndTyped; eassumption.
Qed.

Lemma stored_nodes_are_classified_parsed_schemas_witness :
  exists schema,
    Js.get "httprequest" (Database.nodes (snd Fixture.run)) = Some schema
    /\ nonEmpty (Schema.displayName schema)
    /\ Schema.extractionQuality schema
       = determineExtractionQuality (Schema.parameters schema).
Proof.
  destruct (Js.get "httprequest" (Database.nodes (snd Fixture.run)))
    as [schema|] eqn:E; [|vm_compute in E; discriminate].
  exists schema. split; [reflexivity|].
  assert (Hin : In ("httprequest"%string, schema)
                   (Database.nodes (snd Fixture.run))).
  { vm_compute in E. injection E as <-. vm_compute. left. reflexivity. }
  destruct (@stored_nodes_are_classified_parsed_schemas
              2 Fixture.env Fixture.nodeFiles Sample.now (snd Fixture.run)
              ltac:(vm_compute; reflexivity) _ _ Hin)
    as (_ & Hd & _ & _ & Hq & _).
  split; [exact Hd|exact Hq].
Defined.

End StoredNodes.

(* ------------------------------------------------------------------ *)
(** ** Expanding twice *)
(* ------------------------------------------------------------------ *)

Section ExpandAgain.
Local Open Scope nat_scope.

Lemma flat_map_nil (A B : Type) (f : A -> list B) (l : list A) :
  flat_map f l = [] <-> forall x, In x l -> f x = [].
Proof.
  induction l as [|a l IH]; simpl.
  - split; [intros _ x []|reflexivity].
  - split.
    + intros H. apply app_eq_nil in H. destruct H as [Ha Hl].
      intros x [<-|Hin]; [exact Ha|]. apply IH; assumption.
    + intros H. rewrite (H a (or_introl eq_refl)). simpl.
      apply IH. intros x Hin. apply H. right. exact Hin.
Qed.

Lemma app_self_nil (A : Type) (l r : list A) : l ++ r = l -> r = [].
Proof.
  intros H. apply (app_inv_head l). rewrite app_nil_r. exact H.
Qed.

Lemma derivedOf_nil (param : Param.t) :
  derivedOf param = [] <-> showPairs param = [].
Proof.
  unfold derivedOf. destruct (showPairs param); simpl;
    split; intros H; try reflexivity; discriminate.
Qed.

Lemma expansion_fixed (parameters : list Param.t) (notes : list string) :
  fst (expandConditionalParameters parameters notes) = parameters
  <-> forall p, In p parameters -> showPairs p = [].
Proof.
  rewrite expandConditionalParameters_parameters.
  split.
  - intros H p Hin. apply derivedOf_nil.
    apply app_self_nil in H.
    exact (proj1 (flat_map_nil derivedOf parameters) H p Hin).
  - intros H.
    rewrite (proj2 (flat_map_nil derivedOf parameters)).
    + apply app_nil_r.
    + intros p Hin. apply derivedOf_nil, H, Hin.
Qed.

(** X11.  A derived parameter keeps the [displayOptions] of its parent,
    so it would be expanded again: the expander leaves a list alone
    exactly when no parameter of it has a list-valued show condition,
    and expanding its own output is the identity only in that case.  It
    appends its note exactly when it derived something. *)
Theorem expansion_is_idempotent_only_without_conditions
        (parameters : list Param.t) (notes notes' : list string) :
  let once := fst (expandConditionalParameters parameters notes) in
  (forall param conditionKey value,
      showPairs (conditionalParam param conditionKey value)
      = showPairs param)
  /\ (once = parameters
      <-> forall param, In param parameters -> showPairs param = [])
  /\ (fst (expandConditionalParameters once notes') = once
      <-> once = parameters)
  /\ (snd (expandConditionalParameters parameters notes) = notes
      <-> once = parameters).
Proof.
  cbv zeta. split; [reflexivity|]. split; [apply expansion_fixed|].
  split.
  - rewrite expansion_fixed. split.
    + intros H. apply expansion_fixed. intros p Hin. apply H.
      rewrite expandConditionalParameters_parameters.
      apply in_or_app. left. exact Hin.
    + intros H p Hin. rewrite H in Hin.
      exact (proj1 (expansion_fixed parameters notes) H p Hin).
  - rewrite expandConditionalParameters_parameters.
    unfold expandConditionalParameters. rewrite expandParam_fold.
    cbn [fst snd Nat.add].
    destruct (flat_map showPairs parameters) as [|pair pairs] eqn:E.
    + cbn [List.length Nat.ltb Nat.leb].
      assert (Hd : flat_map derivedOf parameters = []).
      { apply flat_map_nil. intros p Hin. apply derivedOf_nil.
        exact (proj1 (flat_map_nil showPairs parameters) E p Hin). }
      rewrite Hd, app_nil_r. split; reflexivity.
    + cbn [List.length]. change (0 <? S (List.length pairs)) with true.
      cbv iota. split.
      * intros H. apply (f_equal (@List.length string)) in H.
        rewrite length_app in H. simpl in H. lia.
      * intros H. apply app_self_nil in H. exfalso.
        assert (Hs : flat_map showPairs parameters = []).
        { apply flat_map_nil. intros p Hin. apply derivedOf_nil.
          exact (proj1 (flat_map_nil derivedOf parameters) H p Hin). }
        rewrite Hs in E. discriminate.
Qed.

End ExpandAgain.

(* ------------------------------------------------------------------ *)
(** ** Reading object literals and descriptions *)
(* ------------------------------------------------------------------ *)

Section ObjectLiterals.
Local Open Scope nat_scope.



Lemma assignProperties_cons (prop : Node) (props : list Node)
      (target : Js.Obj Js.Value) :
  assignProperties (prop :: props) target
  = assignProperties props (assignProperties [prop] target).
Proof. reflexivity. Qed.






End ObjectLiterals.

(* ------------------------------------------------------------------ *)
(** ** The structure test of the layered-module walker *)
(* ------------------------------------------------------------------ *)

Section LayeredStructure.
Local Open Scope nat_scope.

Lemma is_2_to_9_digit (c : ascii) :
  JsString.is_2_to_9 c = true -> JsString.is_digit c = true.
Proof.
  unfold JsString.is_2_to_9, JsString.is_digit.
  destruct (Nat.leb_spec 50 (JsString.code c));
    destruct (Nat.leb_spec 48 (JsString.code c));
    destruct (Nat.leb_spec (JsString.code c) 57);
    simpl; intros; try discriminate; try reflexivity; lia.
Qed.

(** The two patterns of the test, anchored at a position, against the
    version marker [calculateVersionPriority] reads there. *)
Lemma versioned_or_high_here (s : list ascii) :
  versioned_here s || high_version_here s
  = match Regex.version_here s with
    | Some digits => aboveVersionOne digits
    | None => false
    end.
Proof.
  destruct s as [|c [|d [|e rest]]]; try reflexivity.
  - cbn [versioned_here high_version_here Regex.version_here forallb
         aboveVersionOne].
    rewrite orb_false_r, andb_true_r.
    destruct (JsString.is_Vv c); [|reflexivity]. cbn [andb].
    destruct (JsString.is_digit d) eqn:Ed; [reflexivity|].
    destruct (JsString.is_2_to_9 d) eqn:E2; [|reflexivity].
    apply is_2_to_9_digit in E2. congruence.
  - cbn [versioned_here high_version_here Regex.version_here orb].
    destruct (JsString.is_Vv c && forallb JsString.is_digit (d :: e :: rest));
      reflexivity.
Qed.

Lemma search_anchored_digits (s : list ascii) :
  forallb JsString.is_digit s = true ->
  search_anchored versioned_here s = false
  /\ search_anchored high_version_here s = false.
Proof.
  induction s as [|c s IH]; [split; reflexivity|].
  cbn [forallb]. intros H. apply andb_prop in H. destruct H as [Hc Hs].
  destruct (IH Hs) as [IH1 IH2].
  assert (Hv : JsString.is_Vv c = false).
  { destruct (JsString.is_Vv c) eqn:E; [|reflexivity].
    apply is_Vv_not_digit in E. congruence. }
  cbn [search_anchored]. rewrite IH1, IH2, !orb_false_r.
  split.
  - destruct s as [|d [|e s']]; cbn [versioned_here]; try reflexivity.
    rewrite Hv. reflexivity.
  - destruct s as [|d [|e s']]; cbn [high_version_here]; try reflexivity.
    rewrite Hv. reflexivity.
Qed.

Lemma search_anchored_suffix (s : list ascii) :
  forall before,
    search_anchored versioned_here s || search_anchored high_version_here s
    = match Regex.search_version_suffix before s with
      | Some (_, digits) => aboveVersionOne digits
      | None => false
      end.
Proof.
  induction s as [|c s IH]; intros before; [reflexivity|].
  cbn [search_anchored Regex.search_version_suffix].
  pose proof (versioned_or_high_here (c :: s)) as Hhere.
  destruct (Regex.version_here (c :: s)) as [digits|] eqn:E.
  - assert (Hd : digits = s /\ forallb JsString.is_digit s = true).
    { revert E. unfold Regex.version_here.
      destruct s as [|d s']; [discriminate|].
      destruct (JsString.is_Vv c && forallb JsString.is_digit (d :: s'))
        eqn:Ec; [|discriminate].
      intros H. injection H as <-. split; [reflexivity|].
      apply andb_prop in Ec. apply Ec. }
    destruct Hd as [-> Hs].
    destruct (search_anchored_digits s Hs) as [-> ->].
    rewrite !orb_false_r. exact Hhere.
  - rewrite <- (IH (c :: before)).
    apply orb_false_elim in Hhere. destruct Hhere as [-> ->].
    reflexivity.
Qed.

Lemma existsb_orb (A : Type) (f g : A -> bool) (l : list A) :
  existsb (fun x => f x || g x) l = existsb f l || existsb g l.
Proof.
  induction l as [|a l IH]; [reflexivity|].
  cbn [existsb]. rewrite IH.
  destruct (f a), (g a), (existsb f l), (existsb g l); reflexivity.
Qed.

Lemma existsb_eq (A : Type) (f g : A -> bool) (l : list A) :
  (forall x, f x = g x) -> existsb f l = existsb g l.
Proof.
  intros H. induction l as [|a l IH]; [reflexivity|].
  cbn [existsb]. rewrite H, IH. reflexivity.
Qed.

(** X14.  [detectV2Structure] answers yes exactly for a path with a
    segment [actions], or with a version marker above one (digits [2]
    to [9], or two digits or more, as in [V01] and [V10]) as a whole
    segment or at the end of the file name: the markers
    [calculateVersionPriority] reads.  Its two tests for high versions
    add nothing, and every path with a versioned directory in the sense
    of the score passes. *)
Theorem layered_structure_is_actions_or_a_marker_above_one
        (filePath : string) :
  detectV2Structure filePath
  = (existsb (fun part =>
                String.eqb part "actions"
                || match Regex.match_version_whole part with
                   | Some digits => aboveVersionOne digits
                   | None => false
                   end) (Path.split filePath)
     || match Regex.match_version_suffix
                (Path.basename filePath ".node.ts") with
        | Some digits => aboveVersionOne digits
        | None => false
        end)
  /\ (pathContainsVersionedDirectory filePath = true ->
      detectV2Structure filePath = true).
Proof.
  assert (Heq :
            detectV2Structure filePath
            = (existsb (fun part =>
                          String.eqb part "actions"
                          || match Regex.match_version_whole part with
                             | Some digits => aboveVersionOne digits
                             | None => false
                             end) (Path.split filePath)
               || match Regex.match_version_suffix
                          (Path.basename filePath ".node.ts") with
                  | Some digits => aboveVersionOne digits
                  | None => false
                  end)).
  { unfold detectV2Structure. cbv zeta.
    pose proof (search_anchored_suffix
                  (JsString.chars (Path.basename filePath ".node.ts")) [])
      as Hs.
    rewrite Hs.
    unfold Regex.match_version_suffix, Regex.match_version_whole.
    rewrite (existsb_orb (fun part => String.eqb part "actions")).
    rewrite <- (existsb_eq
                  (fun part => versioned_here (JsString.chars part)
                               || high_version_here (JsString.chars part))
                  (fun part =>
                     match Regex.version_here (JsString.chars part) with
                     | Some digits => aboveVersionOne digits
                     | None => false
                     end)
                  (Path.split filePath)
                  (fun part => versioned_or_high_here (JsString.chars part))).
    rewrite (existsb_orb
               (fun part => versioned_here (JsString.chars part))).
    destruct (Regex.search_version_suffix []
                (JsString.chars (Path.basename filePath ".node.ts")))
      as [[before digits]|]; cbn [option_map snd];
      destruct (existsb (fun part => versioned_here (JsString.chars part))
                        (Path.split filePath));
      destruct (existsb (fun part => high_version_here (JsString.chars part))
                        (Path.split filePath));
      destruct (existsb (fun part => String.eqb part "actions")
                        (Path.split filePath));
      try destruct (aboveVersionOne digits);
      destruct (search_anchored high_version_here
                  (JsString.chars (Path.basename filePath ".node.ts")));
      try reflexivity;
      rewrite orb_true_r in Hs; discriminate. }
  split; [exact Heq|].
  intros H. unfold detectV2Structure. cbv zeta.
  rewrite (existsb_orb (fun part => versioned_here (JsString.chars part))).
  unfold pathContainsVersionedDirectory in H.
  change (existsb (fun part => versioned_here (JsString.chars part))
                  (Path.split filePath) = true) in H.
  rewrite H. reflexivity.
Qed.

Lemma layered_structure_is_actions_or_a_marker_above_one_witness :
  detectV2Structure "/n8n/nodes/Postgres/v2/PostgresV2.node.ts" = true.
Proof.
  apply (proj2 (layered_structure_is_actions_or_a_marker_above_one
                  "/n8n/nodes/Postgres/v2/PostgresV2.node.ts")).
  reflexivity.
Defined.

End LayeredStructure.

(* ------------------------------------------------------------------ *)
(** ** Implementation files and import paths *)
(* ------------------------------------------------------------------ *)

Section FileLookup.
Local Open Scope nat_scope.

Lemma Qle_bool_floor (n : Z) (version : Q) :
  Qle_bool (inject_Z n) version
  = Qle_bool (inject_Z n) (inject_Z (Qfloor version)).
Proof.
  apply Bool.eq_iff_eq_true. rewrite !Qle_bool_iff. split.
  - intros H. rewrite <- Zle_Qle.
    rewrite <- (Qfloor_Z n). apply Qfloor_resp_le. exact H.
  - intros H. eapply Qle_trans; [exact H|apply Qfloor_le].
Qed.

Lemma targetVersionOf_floor (baseName : string) (version : Q) :
  targetVersionOf baseName version
  = targetVersionOf baseName (inject_Z (Qfloor version)).
Proof.
  unfold targetVersionOf. cbv zeta.
  change 4%Q with (inject_Z 4). change 3%Q with (inject_Z 3).
  rewrite <- !Qle_bool_floor, Qfloor_Z. reflexivity.
Qed.

Lemma findImplementationFile_target (fs : FileSystem)
      (wrapperFilePath : string) (version version' : Q) :
  targetVersionOf (Path.basename wrapperFilePath ".node.ts") version
  = targetVersionOf (Path.basename wrapperFilePath ".node.ts") version' ->
  findImplementationFile fs wrapperFilePath version
  = findImplementationFile fs wrapperFilePath version'.
Proof.
  intros H. unfold findImplementationFile. cbv zeta. rewrite H.
  reflexivity.
Qed.

(** X15.  [findImplementationFileForVersion] looks at the integer part
    of the version only, and for the three nodes with an override at a
    fixed version: [HttpRequest] from 4 on as version 3, [GoogleSheets]
    from 3 on as version 2, [GoogleDrive] from 3 on as version 3. *)
Theorem implementation_lookup_uses_the_integer_part_and_overrides
        (fs : FileSystem) (wrapperFilePath : string) (version : Q) :
  let baseName := Path.basename wrapperFilePath ".node.ts" in
  findImplementationFile fs wrapperFilePath version
  = findImplementationFile fs wrapperFilePath (inject_Z (Qfloor version))
  /\ (baseName = "HttpRequest"%string -> (4 <= version)%Q ->
      findImplementationFile fs wrapperFilePath version
      = findImplementationFile fs wrapperFilePath 3)
  /\ (baseName = "GoogleSheets"%string -> (3 <= version)%Q ->
      findImplementationFile fs wrapperFilePath version
      = findImplementationFile fs wrapperFilePath 2)
  /\ (baseName = "GoogleDrive"%string -> (3 <= version)%Q ->
      findImplementationFile fs wrapperFilePath version
      = findImplementationFile fs wrapperFilePath 3).
Proof.
  cbv zeta. split; [|split; [|split]].
  - apply findImplementationFile_target, targetVersionOf_floor.
  - intros Hb Hv. apply findImplementationFile_target. rewrite Hb.
    unfold targetVersionOf. cbv zeta.
    apply Qle_bool_iff in Hv. rewrite Hv. reflexivity.
  - intros Hb Hv. apply findImplementationFile_target. rewrite Hb.
    unfold targetVersionOf. cbv zeta.
    apply Qle_bool_iff in Hv. rewrite Hv. reflexivity.
  - intros Hb Hv. apply findImplementationFile_target. rewrite Hb.
    unfold targetVersionOf. cbv zeta.
    apply Qle_bool_iff in Hv. rewrite Hv. reflexivity.
Qed.

Lemma implementation_lookup_uses_the_integer_part_and_overrides_witness :
  findImplementationFile Fixture.fs Fixture.wrapperPath (42 # 10)
  = findImplementationFile Fixture.fs Fixture.wrapperPath 3.
Proof.
  apply (proj1 (proj2
                  (@implementation_lookup_uses_the_integer_part_and_overrides
                     Fixture.fs Fixture.wrapperPath (42 # 10)))).
  - reflexivity.
  - vm_compute. discriminate.
Defined.

Lemma probePatterns_exists (fs : FileSystem) (nodeDir baseName : string)
      (versionPatterns : list string) (found : string) :
  probePatterns fs nodeDir baseName versionPatterns = Some found ->
  existsSync fs found = true.
Proof.
  induction versionPatterns as [|pattern patterns IH]; [discriminate|].
  cbn [probePatterns]. cbv zeta.
  destruct (existsSync fs (join fs [nodeDir; pattern; _])) eqn:E1.
  - intros H. injection H as <-. exact E1.
  - destruct (existsSync fs (join fs [nodeDir; JsString.toLowerCase pattern; _]))
      eqn:E2.
    + intros H. injection H as <-. exact E2.
    + exact IH.
Qed.

Lemma scanVersionDirectories_found (fs : FileSystem)
      (nodeDir baseName : string) (entries : list string) (found : string) :
  scanVersionDirectories fs nodeDir baseName entries = Some found ->
  exists entry files nodeFile,
    In entry entries
    /\ Regex.match_version_whole entry <> None
    /\ readdirSync fs (join fs [nodeDir; entry]) = Returns files
    /\ In nodeFile files
    /\ JsString.endsWith nodeFile ".node.ts" = true
    /\ JsString.includes nodeFile baseName = true
    /\ found = join fs [join fs [nodeDir; entry]; nodeFile].
Proof.
  induction entries as [|entry entries IH]; [discriminate|].
  cbn [scanVersionDirectories]. cbv zeta.
  assert (Hrest :
            scanVersionDirectories fs nodeDir baseName entries = Some found ->
            exists entry' files nodeFile,
              In entry' (entry :: entries)
              /\ Regex.match_version_whole entry' <> None
              /\ readdirSync fs (join fs [nodeDir; entry']) = Returns files
              /\ In nodeFile files
              /\ JsString.endsWith nodeFile ".node.ts" = true
              /\ JsString.includes nodeFile baseName = true
              /\ found = join fs [join fs [nodeDir; entry']; nodeFile]).
  { intros H. destruct (IH H) as (e & fl & nf & Hin & Hrest).
    exists e, fl, nf. split; [right; exact Hin|exact Hrest]. }
  destruct (Regex.match_version_whole entry) as [digits|] eqn:Em;
    [|exact Hrest].
  destruct (readdirSync fs (join fs [nodeDir; entry])) as [files|message]
    eqn:Er; [|discriminate].
  destruct (find _ files) as [nodeFile|] eqn:Ef; [|exact Hrest].
  destruct (negb (String.eqb nodeFile "")); [|exact Hrest].
  intros H. injection H as <-.
  apply find_some in Ef. destruct Ef as [Hin Hf].
  apply andb_prop in Hf. destruct Hf as [He Hi].
  exists entry, files, nodeFile.
  split; [left; reflexivity|]. split; [congruence|].
  split; [exact Er|]. split; [exact Hin|].
  split; [exact He|]. split; [exact Hi|reflexivity].
Qed.

(** X16.  A path [findImplementationFileForVersion] returns is a path
    [existsSync] confirms, or a file listed in a version directory
    ([V] or [v] and digits, of any version) listed in the wrapper's
    directory, whose name ends with [.node.ts] and includes the
    wrapper's base name; and a version directory that cannot be listed
    ends the scan of the directories after it. *)
Theorem implementation_file_is_confirmed_or_listed
        (fs : FileSystem) (wrapperFilePath : string) (version : Q) :
  let nodeDir := Path.dirname wrapperFilePath in
  let baseName := Path.basename wrapperFilePath ".node.ts" in
  (forall found,
      findImplementationFile fs wrapperFilePath version = Some found ->
      existsSync fs found = true
      \/ exists entries entry files nodeFile,
          readdirSync fs nodeDir = Returns entries
          /\ In entry entries
          /\ Regex.match_version_whole entry <> None
          /\ readdirSync fs (join fs [nodeDir; entry]) = Returns files
          /\ In nodeFile files
          /\ JsString.endsWith nodeFile ".node.ts" = true
          /\ JsString.includes nodeFile baseName = true
          /\ found = join fs [join fs [nodeDir; entry]; nodeFile])
  /\ (forall entry entries message,
         Regex.match_version_whole entry <> None ->
         readdirSync fs (join fs [nodeDir; entry]) = Throws message ->
         scanVersionDirectories fs nodeDir baseName (entry :: entries)
         = None).
Proof.
  cbv zeta. split.
  - intros found. unfold findImplementationFile. cbv zeta.
    destruct (probePatterns fs _ _ _) as [f|] eqn:Ep.
    + intros H. injection H as <-. left.
      eapply probePatterns_exists, Ep.
    + destruct (readdirSync fs (Path.dirname wrapperFilePath))
        as [entries|message] eqn:Er; [|discriminate].
      intros H. right. apply scanVersionDirectories_found in H.
      destruct H as (e & fl & nf & Hrest).
      exists entries, e, fl, nf. split; [reflexivity|exact Hrest].
  - intros entry entries message Hm Hr. cbn [scanVersionDirectories].
    cbv zeta. rewrite Hr.
    destruct (Regex.match_version_whole entry); [reflexivity|congruence].
Qed.

Lemma implementation_file_is_confirmed_or_listed_witness :
  existsSync Fixture.fs Fixture.v3Path = true
  \/ exists entries entry files nodeFile,
      readdirSync Fixture.fs (Path.dirname Fixture.wrapperPath)
      = Returns entries
      /\ In entry entries
      /\ Regex.match_version_whole entry <> None
      /\ readdirSync Fixture.fs
           (join Fixture.fs [Path.dirname Fixture.wrapperPath; entry])
         = Returns files
      /\ In nodeFile files
      /\ JsString.endsWith nodeFile ".node.ts" = true
      /\ JsString.includes nodeFile
           (Path.basename Fixture.wrapperPath ".node.ts") = true
      /\ Fixture.v3Path
         = join Fixture.fs
             [join Fixture.fs [Path.dirname Fixture.wrapperPath; entry];
              nodeFile].
Proof.
  apply (proj1 (@implementation_file_is_confirmed_or_listed
                  Fixture.fs Fixture.wrapperPath (42 # 10))).
  vm_compute. reflexivity.
Defined.

(** X17.  [resolveImportPath] returns the import path itself or a path
    [existsSync] confirms; an import that does not start with [./] or
    [../] is returned as it is; and [<resolved>.ts], when it exists, is
    preferred to every other candidate. *)
Theorem resolved_import_is_confirmed_or_unchanged
        (fs : FileSystem) (importPath currentFilePath : string) :
  let resolved := resolveImportPath fs importPath currentFilePath in
  let relative := JsString.startsWith importPath "./"
                  || JsString.startsWith importPath "../" in
  let resolvedPath :=
    resolve fs [Path.dirname currentFilePath; importPath] in
  (resolved = importPath \/ existsSync fs resolved = true)
  /\ (relative = false -> resolved = importPath)
  /\ (relative = true ->
      existsSync fs (resolvedPath ++ ".ts")%string = true ->
      resolved = (resolvedPath ++ ".ts")%string)
  /\ (relative = true -> existsSync fs resolved = false ->
      forall ext, In ext [".ts"; ".js"; ".json"]%string ->
                  existsSync fs (resolvedPath ++ ext)%string = false
                  /\ existsSync fs
                       (join fs [resolvedPath; ("index" ++ ext)%string])
                     = false).
Proof.
  cbv zeta. unfold resolveImportPath. cbv zeta.
  destruct (JsString.startsWith importPath "./"
            || JsString.startsWith importPath "../").
  - destruct (find (fun ext => existsSync fs (_ ++ ext)%string) _)
      as [ext|] eqn:E1.
    + pose proof (find_some _ _ E1) as [Hin Hex].
      split; [right; exact Hex|]. split; [discriminate|].
      split.
      * intros _ Hts. revert E1. cbn [find]. rewrite Hts.
        intros H. injection H as <-. reflexivity.
      * intros _ Hno. congruence.
    + destruct (find (fun ext => existsSync fs (join fs _)) _)
        as [ext|] eqn:E2.
      * pose proof (find_some _ _ E2) as [Hin Hex].
        split; [right; exact Hex|]. split; [discriminate|].
        split.
        -- intros _ Hts.
           pose proof (find_none _ _ E1 ".ts"%string (or_introl eq_refl))
             as Hn.
           cbv beta in Hn. congruence.
        -- intros _ Hno. congruence.
      * split; [left; reflexivity|]. split; [discriminate|].
        split.
        -- intros _ Hts.
           pose proof (find_none _ _ E1 ".ts"%string (or_introl eq_refl))
             as Hn.
           cbv beta in Hn. congruence.
        -- intros _ _ ext Hin. split.
           ++ exact (find_none _ _ E1 ext Hin).
           ++ exact (find_none _ _ E2 ext Hin).
  - split; [left; reflexivity|]. split; [reflexivity|].
    split; discriminate.
Qed.

Lemma resolved_import_is_confirmed_or_unchanged_witness :
  resolveImportPath Fixture.fs "n8n-workflow" Fixture.wrapperPath
  = "n8n-workflow"%string.
Proof.
  apply (proj1 (proj2 (@resolved_import_is_confirmed_or_unchanged
                         Fixture.fs "n8n-workflow" Fixture.wrapperPath))).
  reflexivity.
Defined.

End FileLookup.

(* ------------------------------------------------------------------ *)
(** ** Operation files *)
(* ------------------------------------------------------------------ *)

Section OperationFiles.
Local Open Scope nat_scope.






End OperationFiles.

(* ------------------------------------------------------------------ *)
(** ** The values the literal interpreter reads *)
(* ------------------------------------------------------------------ *)

Section ReadValues.
Local Open Scope nat_scope.

Lemma forallb_take_while (f : ascii -> bool) (l : list ascii) :
  forallb f (JsString.take_while f l) = true.
Proof.
  induction l as [|c l IH]; [reflexivity|].
  cbn [JsString.take_while]. destruct (f c) eqn:E; [|reflexivity].
  cbn [forallb]. rewrite E, IH. reflexivity.
Qed.

Lemma all_readable (elements : list Js.Value) :
  fold_right (fun element rest => readable element /\ rest) True elements
  <-> Forall readable elements.
Proof.
  induction elements as [|e l IH]; simpl.
  - split; [constructor|trivial].
  - rewrite IH. split.
    + intros [He Hl]. constructor; assumption.
    + intros H. inversion H; subst. split; assumption.
Qed.

Lemma all_entries_readable (entries : list (string * Js.Value)) :
  fold_right (fun entry rest => readable (snd entry) /\ rest) True entries
  <-> Forall (fun entry => readable (snd entry)) entries.
Proof.
  induction entries as [|e l IH]; simpl.
  - split; [constructor|trivial].
  - rewrite IH. split.
    + intros [He Hl]. constructor; assumption.
    + intros H. inversion H; subst. split; assumption.
Qed.

Lemma size_child (l : list Node) (child : Node) :
  In child l -> size child <= list_sum (map size l).
Proof.
  induction l as [|a l IH]; [intros []|].
  cbn [map]. change (list_sum (?a :: ?l)) with (a + list_sum l).
  intros [<-|Hin]; [lia|]. specialize (IH Hin). lia.
Qed.

Lemma set_readable (o : Js.Obj Js.Value) (k : string) (v : Js.Value) :
  NoDup (Js.keys o) /\ Forall (fun entry => readable (snd entry)) o ->
  readable v ->
  NoDup (Js.keys (Js.set k v o))
  /\ Forall (fun entry => readable (snd entry)) (Js.set k v o).
Proof.
  intros [Hnd Hall] Hv. split; [apply set_keys_NoDup, Hnd|].
  apply Forall_forall. intros e He. apply in_set in He.
  destruct He as [->|He]; [exact Hv|].
  rewrite Forall_forall in Hall. apply Hall, He.
Qed.

Lemma extractValueFromNode_object (properties : list Node) :
  extractValueFromNode (ObjectLiteralExpression properties)
  = match assignProperties properties [] with
    | [] => None
    | _ :: _ => Some (Js.JObj (assignProperties properties []))
    end.
Proof. reflexivity. Qed.

Lemma assignProperties_readable (properties : list Node) :
  forall obj,
    (forall name initializer value,
        In (PropertyAssignment name initializer) properties ->
        extractValueFromNode initializer = Some value -> readable value) ->
    NoDup (Js.keys obj)
    /\ Forall (fun entry => readable (snd entry)) obj ->
    NoDup (Js.keys (assignProperties properties obj))
    /\ Forall (fun entry => readable (snd entry))
         (assignProperties properties obj).
Proof.
  induction properties as [|prop props IHp]; intros obj Hs Hobj;
    [exact Hobj|].
  rewrite assignProperties_cons. apply IHp.
  - intros name init v Hin. apply (Hs name init v). right. exact Hin.
  - unfold assignProperties. cbn [fold_left].
    destruct prop as [| | | | | |[propName|] init| | | | |];
      try exact Hobj.
    destruct (extractValueFromNode init) as [v|] eqn:E; [|exact Hobj].
    apply set_readable; [exact Hobj|].
    apply (Hs (Identifier propName) init v); [left; reflexivity|exact E].
Qed.

Lemma extractValueFromNode_readable (n : nat) :
  forall node value,
    size node <= n ->
    extractValueFromNode node = Some value -> readable value.
Proof.
  induction n as [|n IH]; intros node value Hsize.
  - destruct node; simpl in Hsize; lia.
  - destruct node; try (cbn [extractValueFromNode]; discriminate).
    + cbn [extractValueFromNode]. intros H. injection H as <-. exact I.
    + cbn [extractValueFromNode]. intros H. injection H as <-.
      unfold Js.parseInt.
      pose proof (forallb_take_while JsString.is_digit (JsString.chars text))
        as Hd.
      destruct (JsString.take_while JsString.is_digit (JsString.chars text))
        as [|d ds]; [exact I|].
      cbn [readable]. apply parseInt_digits_nonneg. exact Hd.
    + cbn [extractValueFromNode]. intros H. injection H as <-. exact I.
    + cbn [extractValueFromNode]. intros H. injection H as <-. exact I.
    + cbn [extractValueFromNode]. intros H. injection H as <-.
      cbn [readable]. apply all_readable.
      apply Forall_flat_map. apply Forall_forall. intros el Hin.
      destruct (extractValueFromNode el) as [v|] eqn:E; [|constructor].
      constructor; [|constructor].
      apply (IH el v); [|exact E].
      pose proof (size_child elements el Hin) as Hc.
      cbn [size] in Hsize. lia.
    + rewrite extractValueFromNode_object.
      destruct (@assignProperties_readable properties []) as [Hnd Hall].
      * intros name init v Hin E. apply (IH init v); [|exact E].
        pose proof (size_child properties _ Hin) as Hc.
        cbn [size] in Hsize, Hc. lia.
      * split; constructor.
      * destruct (assignProperties properties []) as [|e o] eqn:E;
          [discriminate|].
        intros H. injection H as <-. cbn [readable].
        split; [discriminate|]. split; [exact Hnd|].
        apply all_entries_readable. exact Hall.
Qed.

(** X19.  Whatever [extractValueFromNode] reads is a string, a boolean,
    [NaN], a number that is not negative, an array of such values (the
    elements it cannot read are left out), or an object of such values
    with at least one key and no key twice: an object literal of which
    it reads no property is not read at all. *)
Theorem read_values_are_readable (node : Node) (value : Js.Value) :
  extractValueFromNode node = Some value -> readable value.
Proof.
  apply (extractValueFromNode_readable (n := size node)). apply Nat.le_refl.
Qed.

Lemma read_values_are_readable_witness :
  readable
    (Js.JObj [("show"%string,
               Js.JObj [("resource"%string,
                         Js.JArr [Js.JStr "user"; Js.JNum 2])])]).
Proof.
  apply (@read_values_are_readable
           (ObjectLiteralExpression
              [Sample.assign "show"
                 (ObjectLiteralExpression
                    [Sample.assign "resource"
                       (ArrayLiteralExpression
                          [StringLiteral "user"; OtherNode [];
                           NumericLiteral "2.5"]);
                     Sample.assign "operation" (ObjectLiteralExpression [])])])).
  reflexivity.
Defined.

End ReadValues.

(* ------------------------------------------------------------------ *)
(** ** Node keys, and the bound on redirections *)
(* ------------------------------------------------------------------ *)

Section KeysAndBound.
Local Open Scope nat_scope.









End KeysAndBound.

(* ------------------------------------------------------------------ *)
(** ** Display names inferred from a version directory *)
(* ------------------------------------------------------------------ *)

Section DisplayNames.
Local Open Scope nat_scope.

Lemma is_digit_no_letter (c : ascii) :
  JsString.is_digit c = true ->
  JsString.is_lower c = false /\ JsString.is_upper c = false.
Proof.
  unfold JsString.is_digit, JsString.is_lower, JsString.is_upper.
  destruct (Nat.leb_spec 48 (JsString.code c));
    destruct (Nat.leb_spec (JsString.code c) 57);
    destruct (Nat.leb_spec 97 (JsString.code c));
    destruct (Nat.leb_spec 65 (JsString.code c));
    destruct (Nat.leb_spec (JsString.code c) 122);
    destruct (Nat.leb_spec (JsString.code c) 90);
    simpl; intros; try discriminate; split; try reflexivity; lia.
Qed.

Lemma space_camel_digits (ds : list ascii) :
  forallb JsString.is_digit ds = true -> Regex.space_camel ds = ds.
Proof.
  induction ds as [|a t IH]; [reflexivity|].
  cbn [forallb]. intros H. apply andb_prop in H. destruct H as [Ha Ht].
  cbn [Regex.space_camel]. destruct t as [|b t']; [reflexivity|].
  destruct (@is_digit_no_letter a Ha) as [-> _]. cbn [andb].
  rewrite (IH Ht). reflexivity.
Qed.

Lemma space_camel_marker (c : ascii) (ds : list ascii) :
  forallb JsString.is_digit ds = true ->
  Regex.space_camel (c :: ds) = c :: ds.
Proof.
  intros Hd. cbn [Regex.space_camel]. destruct ds as [|d ds']; [reflexivity|].
  pose proof Hd as Hd'. cbn [forallb] in Hd'. apply andb_prop in Hd'.
  destruct (@is_digit_no_letter d (proj1 Hd')) as [_ ->].
  rewrite andb_false_r, (@space_camel_digits (d :: ds') Hd). reflexivity.
Qed.

(** X22.  For a directory that is a bare version marker ([V] or [v] and
    digits, as in [v2/]) [formatDisplayName] gives the empty string: the
    marker is removed as a version suffix and nothing is left.  A
    description whose display name was inferred from such a directory
    therefore yields a schema with the display name [Unknown]. *)
Theorem bare_version_directory_has_no_display_name
        (c : ascii) (ds : list ascii) (description : Js.Obj Js.Value)
        (parameters : list Param.t) (quality : Quality)
        (notes : list string) :
  JsString.is_Vv c = true -> ds <> [] ->
  forallb JsString.is_digit ds = true ->
  formatDisplayName (JsString.str (c :: ds)) = ""%string
  /\ (Js.get "displayName" description
      = Some (Js.JStr (formatDisplayName (JsString.str (c :: ds)))) ->
      Schema.displayName (schemaOf description parameters quality notes)
      = Js.JStr "Unknown").
Proof.
  intros Hc Hne Hd.
  assert (Hf : formatDisplayName (JsString.str (c :: ds)) = ""%string).
  { unfold formatDisplayName. rewrite chars_str, (@space_camel_marker c ds Hd).
    assert (Hu : exists c', Regex.upper_first (c :: ds) = c' :: ds
                            /\ JsString.is_Vv c' = true).
    { unfold JsString.is_Vv in Hc. apply orb_prop in Hc.
      destruct Hc as [Hc|Hc]; apply Ascii.eqb_eq in Hc; subst c;
        eexists; split; reflexivity. }
    destruct Hu as (c' & -> & Hc').
    pose proof (proj2 (proj1 version_marker_facts [] c' ds Hc' Hne Hd))
      as Hs.
    cbn [app] in Hs. rewrite Hs. reflexivity. }
  split; [exact Hf|].
  rewrite Hf. intros Hg. unfold schemaOf. cbn [Schema.displayName].
  rewrite Hg. reflexivity.
Qed.

Lemma bare_version_directory_has_no_display_name_witness :
  formatDisplayName "v2" = ""%string.
Proof.
  apply (proj1 (@bare_version_directory_has_no_display_name
                  "v"%char ["2"%char] [] [] low []
                  eq_refl ltac:(discriminate) eq_refl)).
Defined.

End DisplayNames.
